(** * Velodyne HDL-64E raw data accessor (velodyne_pointcloud/src/lib/rawdata.cc)

    A shallow embedding of [RawData::setup], [RawData::processScan],
    [RawDataScans::packet2scans], [RawDataScans::processPacket],
    [RawDataXYZ::scan2xyz] and [RawDataXYZ::processPacket], and the
    properties of the decoding pipeline proved about them.

    Conventions of the embedding:
    - C++ [float] values live in an abstract carrier [F]; every arithmetic
      operation of the source is an operation of the class [FloatArith], every
      call into libm, libc or the ROS [angles] package an operation of the
      class [FloatLib], and the two [float] constants of rawdata.h are the
      fields of the class [Resolutions].  Two carriers are provided: exact
      real arithmetic ([R], rounding ignored), with the library functions
      defined on it, and IEEE-754 binary32 arithmetic ([spec_float]), with
      the two functions of the [angles] package computed in binary64, the
      [double] they are declared with, and the functions of libm and libc,
      whose results the C standard leaves to the implementation, left
      abstract.
    - Array accesses outside the bounds of a C array have no defined
      behaviour; they are modelled by the fault [OutOfBounds].
    - The host is little-endian, as the [two_bytes] union of the source
      assumes. *)

From Stdlib Require Import ZArith Lia Ascii String Reals Machin Lra SpecFloat.
From Stdlib.Strings Require Import Byte.
From stdpp Require Import base tactics option list strings.

Local Open Scope Z_scope.

(** ** Faults and the result monad *)

Inductive fault : Set :=
| OutOfBounds   (* read or write outside a C array: undefined behaviour *)
| AssertFailed. (* ROS_ASSERT violated *)

Inductive Res (A : Type) : Type :=
| Ok (a : A)
| Fault (f : fault).
Arguments Ok {A} a.
Arguments Fault {A} f.

#[global] Instance Res_ret : MRet Res := fun A a => Ok a.
#[global] Instance Res_bind : MBind Res := fun A B k m =>
  match m with
  | Ok a => k a
  | Fault f => Fault f
  end.

(** [a[i]] as an rvalue. *)
Definition rd {A} (a : list A) (i : nat) : Res A :=
  match a !! i with
  | Some v => Ok v
  | None => Fault OutOfBounds
  end.

(** [a[i] = v]. *)
Definition wr {A} (a : list A) (i : nat) (v : A) : Res (list A) :=
  if decide (i < length a)%nat then Ok (<[i := v]> a) else Fault OutOfBounds.

(** [for (i = start; i < start + count; i++) body], threading the state. *)
Fixpoint for_loop {S} (count start : nat) (body : nat -> S -> Res S) (s : S)
  : Res S :=
  match count with
  | O => Ok s
  | Datatypes.S count' => s' ← body start s; for_loop count' (Datatypes.S start) body s'
  end.

(** ** Floating point interface *)

(** The [float] operations the source uses directly. *)
Class FloatArith (F : Type) := {
  fzero : F;                      (* 0, also the all-zero-bytes float *)
  of_int : Z -> F;                (* int -> float conversion *)
  fneg : F -> F;
  fadd : F -> F -> F;
  fsub : F -> F -> F;
  fmul : F -> F -> F;
}.

(** Modelled from the spec: the two [float] constants packet2scans
    multiplies by are declared in rawdata.h, which is not under src/.  The
    spec gives a rotation resolution of 0.01 degree per unit and a distance
    resolution of 2 mm per unit. *)
Class Resolutions (F : Type) := {
  ROTATION_RESOLUTION : F;        (* 0.01f, degrees per unit *)
  DISTANCE_RESOLUTION : F;        (* 0.002f, meters per unit *)
}.

(** Library functions called by the source: [angles::from_degrees],
    [angles::normalize_angle], libm's [cosf] and [sinf], and the conversion
    [sscanf] applies to the text matched by a [%f] directive: [strtof neg m e]
    is the [float] the C library returns for the decimal numeral of sign
    [neg], significand digits [m] and decimal exponent [e]. *)
Class FloatLib (F : Type) := {
  from_degrees : F -> F;
  normalize_angle : F -> F;
  cosf : F -> F;
  sinf : F -> F;
  strtof : bool -> Z -> Z -> F;
}.

(** ** Data model *)

Record correction_angles (F : Type) := mk_correction_angles {
  rotational : F;
  vertical : F;
  offset1 : F;
  offset2 : F;
  offset3 : F;
  horzCorr : F;
  vertCorr : F;
  enabled : Z;
}.
Arguments mk_correction_angles {F}.
Arguments rotational {F}.
Arguments vertical {F}.
Arguments offset1 {F}.
Arguments offset2 {F}.
Arguments offset3 {F}.
Arguments horzCorr {F}.
Arguments vertCorr {F}.
Arguments enabled {F}.

Record laserscan_t (F : Type) := mk_laserscan {
  range : F;
  heading : F;
  pitch : F;
  revolution : Z;
  laser_number : Z;
  intensity : Z;
}.
Arguments mk_laserscan {F}.
Arguments range {F}.
Arguments heading {F}.
Arguments pitch {F}.
Arguments revolution {F}.
Arguments laser_number {F}.
Arguments intensity {F}.

Record laserscan_xyz_t (F : Type) := mk_laserscan_xyz {
  xyz_x : F;
  xyz_y : F;
  xyz_z : F;
  xyz_heading : F;
  xyz_revolution : Z;
  xyz_laser_number : Z;
  xyz_intensity : Z;
}.
Arguments mk_laserscan_xyz {F}.
Arguments xyz_x {F}.
Arguments xyz_y {F}.
Arguments xyz_z {F}.
Arguments xyz_heading {F}.
Arguments xyz_revolution {F}.
Arguments xyz_laser_number {F}.
Arguments xyz_intensity {F}.

(** ** Packet layout *)

(** Modelled from the spec: rawdata.h is not under src/.  The spec fixes 12
    blocks of 32 returns per packet, 3 bytes per return (2-byte range, 1-byte
    intensity), a bank tag and a rotation field per block and a trailing
    16-bit revolution counter; the field widths and the tag value are those of
    the HDL-64E packet: 16-bit header and rotation, 4 status bytes, 1206
    bytes in all. *)
Definition RAW_SCAN_SIZE : nat := 3.
Definition SCANS_PER_BLOCK : nat := 32.
Definition BLOCK_DATA_SIZE : nat := SCANS_PER_BLOCK * RAW_SCAN_SIZE.
Definition SIZE_BLOCK : nat := 2 + 2 + BLOCK_DATA_SIZE.
Definition BLOCKS_PER_PACKET : nat := 12.
Definition SCANS_PER_PACKET : nat := SCANS_PER_BLOCK * BLOCKS_PER_PACKET.
Definition PACKET_STATUS_SIZE : nat := 4.
Definition PACKET_SIZE : nat :=
  BLOCKS_PER_PACKET * SIZE_BLOCK + 2 + PACKET_STATUS_SIZE.
Definition LOWER_BANK : Z := 0xddff.

Definition byte_val (b : byte) : Z := Z.of_N (Byte.to_N b).

(** [union two_bytes]: the [uint] view of [bytes[0]], [bytes[1]]. *)
Definition two_bytes_uint (b0 b1 : byte) : Z := byte_val b0 + 256 * byte_val b1.

(** A [uint16_t] field of the overlaid struct at byte offset [off]. *)
Definition rd_u16 (raw : list byte) (off : nat) : Res Z :=
  b0 ← rd raw off; b1 ← rd raw (off + 1); mret (two_bytes_uint b0 b1).

(** [raw->blocks[i].header], [raw->blocks[i].rotation],
    [raw->blocks[i].data[k]] and [raw->revolution], for [raw] the packet
    bytes seen through [raw_packet_t]. *)
Definition block_header (raw : list byte) (i : nat) : Res Z :=
  rd_u16 raw (i * SIZE_BLOCK).
Definition block_rotation (raw : list byte) (i : nat) : Res Z :=
  rd_u16 raw (i * SIZE_BLOCK + 2).
Definition block_data (raw : list byte) (i k : nat) : Res byte :=
  if decide (k < BLOCK_DATA_SIZE)%nat then rd raw (i * SIZE_BLOCK + 4 + k)
  else Fault OutOfBounds.
Definition packet_revolution (raw : list byte) : Res Z :=
  rd_u16 raw (BLOCKS_PER_PACKET * SIZE_BLOCK).

(** The calibration arrays [lower_] and [upper_] of [RawData]. *)
Record calibration (F : Type) := mk_calibration {
  lower_ : list (correction_angles F);
  upper_ : list (correction_angles F);
}.
Arguments mk_calibration {F}.
Arguments lower_ {F}.
Arguments upper_ {F}.

(** ** RawDataScans::packet2scans *)

Section Decoder.
Context {F : Type} {Farith : FloatArith F} {Flib : FloatLib F}
  {Fres : Resolutions F}.

(** Range in meters of [units] raw units, with the quadratic correction of
    the laser (packet2scans, the two assignments to [scans[index].range]). *)
Definition corrected_range (c : correction_angles F) (units : Z) : F :=
  let r := fmul (of_int units) DISTANCE_RESOLUTION in
  fadd (fadd (fmul (fmul (offset1 c) r) r) (fmul (offset2 c) r)) (offset3 c).

(** One iteration of the inner loop of packet2scans, up to the store into
    [scans[index]]: the entry decoded from slot [j] of block [i], its raw
    bytes starting at [k]. *)
Definition decode_slot (raw : list byte) (corrections : list (correction_angles F))
    (bank_origin : nat) (rotation : F) (revolution_ : Z) (i j k : nat)
  : Res (laserscan_t F) :=
  c ← rd corrections j;
  b0 ← block_data raw i k;
  b1 ← block_data raw i (k + 1);
  b2 ← block_data raw i (k + 2);
  mret {| laser_number := Z.of_nat (j + bank_origin);
          heading := normalize_angle (fneg (fsub rotation (rotational c)));
          pitch := vertical c;
          range := corrected_range c (two_bytes_uint b0 b1);
          intensity := byte_val b2;
          revolution := revolution_ |}.

(** Bank selection at the head of the outer loop body. *)
Definition select_bank (cal : calibration F) (header : Z)
  : nat * list (correction_angles F) :=
  if decide (header = LOWER_BANK) then (0%nat, lower_ cal) else (32%nat, upper_ cal).

(** [angles::from_degrees(raw->blocks[i].rotation * ROTATION_RESOLUTION)]. *)
Definition rotation_of (units : Z) : F :=
  from_degrees (fmul (of_int units) ROTATION_RESOLUTION).

(** Inner loop state: [(k, index, scans)]. *)
Definition slot_body (raw : list byte) (corrections : list (correction_angles F))
    (bank_origin : nat) (rotation : F) (revolution_ : Z) (i : nat)
    (j : nat) (st : nat * nat * list (laserscan_t F))
  : Res (nat * nat * list (laserscan_t F)) :=
  let '(k, index, scans) := st in
  e ← decode_slot raw corrections bank_origin rotation revolution_ i j k;
  scans' ← wr scans index e;
  mret ((k + RAW_SCAN_SIZE)%nat, Datatypes.S index, scans').

(** Outer loop state: [(index, scans)]. *)
Definition block_body (cal : calibration F) (raw : list byte) (revolution_ : Z)
    (i : nat) (st : nat * list (laserscan_t F))
  : Res (nat * list (laserscan_t F)) :=
  let '(index, scans) := st in
  header ← block_header raw i;
  let '(bank_origin, corrections) := select_bank cal header in
  units ← block_rotation raw i;
  let rotation := rotation_of units in
  '(_, index', scans') ←
    for_loop SCANS_PER_BLOCK 0
      (slot_body raw corrections bank_origin rotation revolution_ i)
      (0%nat, index, scans);
  mret (index', scans').

(** [RawDataScans::packet2scans]: the entries of [scans] after the call. *)
Definition packet2scans (cal : calibration F) (raw : list byte)
    (scans : list (laserscan_t F)) : Res (list (laserscan_t F)) :=
  revolution_ ← packet_revolution raw;
  '(index, scans') ←
    for_loop BLOCKS_PER_PACKET 0 (block_body cal raw revolution_) (0%nat, scans);
  if decide (index = SCANS_PER_PACKET) then mret scans' else Fault AssertFailed.

End Decoder.

(** ** The C library routines used by RawData::setup *)

(** [istream::getline(buffer, n)] on the unread characters [s].  Characters
    are extracted and stored until, tested in this order, the input ends, the
    next character is the newline delimiter (extracted, not stored), or
    [n - 1] characters have been stored (failbit).  [room] is the number of
    characters that may still be stored.  The result is the stored
    characters, the unread remainder and the failbit. *)
Fixpoint getline_chars (room : nat) (s : list ascii) {struct s}
  : list ascii * list ascii * bool :=
  match s with
  | [] => ([], [], false)
  | c :: s' =>
      if Ascii.eqb c "010" then ([], s', false)
      else match room with
           | O => ([], s, true)
           | Datatypes.S room' =>
               let '(buf, rest, failed) := getline_chars room' s' in
               (c :: buf, rest, failed)
           end
  end.

(** [config.getline(buffer, n)] as the loop condition: [Some (buffer, rest)]
    when the stream is still good after the call.  A call that extracts no
    character at all (end of file) sets failbit as well. *)
Definition getline (n : nat) (s : list ascii) : option (list ascii * list ascii) :=
  match s with
  | [] => None
  | _ :: _ =>
      let '(buf, rest, failed) := getline_chars (n - 1) s in
      if failed then None else Some (buf, rest)
  end.

(** The buffer as a C string: it ends at the first NUL character. *)
Fixpoint c_str (buf : list ascii) : list ascii :=
  match buf with
  | [] => []
  | c :: buf' => if Ascii.eqb c "000" then [] else c :: c_str buf'
  end.

(** [isspace] in the C locale. *)
Definition isspace (c : ascii) : bool :=
  let n := nat_of_ascii c in
  Nat.eqb n 32 || (Nat.leb 9 n && Nat.leb n 13).

Fixpoint skip_space (s : list ascii) : list ascii :=
  match s with
  | [] => []
  | c :: s' => if isspace c then skip_space s' else s
  end.

Definition digit_val (c : ascii) : option Z :=
  let n := nat_of_ascii c in
  if Nat.leb 48 n && Nat.leb n 57 then Some (Z.of_nat (n - 48)) else None.

(** The longest run of decimal digits at the head of [s], accumulated onto
    [acc]: the value, the number of digits read and the remainder. *)
Fixpoint scan_digits (s : list ascii) (acc : Z) (count : nat)
  : Z * nat * list ascii :=
  match s with
  | [] => (acc, count, [])
  | c :: s' =>
      match digit_val c with
      | Some d => scan_digits s' (10 * acc + d) (Datatypes.S count)
      | None => (acc, count, s)
      end
  end.

(** An optional sign: [true] for a minus. *)
Definition scan_sign (s : list ascii) : bool * list ascii :=
  match s with
  | c :: s' =>
      if Ascii.eqb c "-" then (true, s')
      else if Ascii.eqb c "+" then (false, s')
      else (false, s)
  | [] => (false, [])
  end.

(** The [%d] directive of sscanf: white space, an optional sign, decimal
    digits.  The value is the mathematical one; numerals outside the range of
    [int] are outside the model. *)
Definition scan_d (s : list ascii) : option (Z * list ascii) :=
  let '(neg, s1) := scan_sign (skip_space s) in
  let '(n, count, s2) := scan_digits s1 0 0 in
  match count with
  | O => None
  | _ => Some (if neg : bool then - n else n, s2)
  end.

(** An optional decimal exponent, consumed only when it has digits. *)
Definition scan_exponent (s : list ascii) : Z * list ascii :=
  match s with
  | c :: s' =>
      if Ascii.eqb c "e" || Ascii.eqb c "E" then
        let '(neg, s1) := scan_sign s' in
        let '(e, count, s2) := scan_digits s1 0 0 in
        match count with
        | O => (0, s)
        | _ => (if neg : bool then - e else e, s2)
        end
      else (0, s)
  | [] => (0, [])
  end.

(** The text matched by the [%f] directive of sscanf, for decimal numerals:
    white space, an optional sign, digits with an optional fraction, an
    optional exponent; as sign, significand and decimal exponent.  The
    hexadecimal, infinity and NaN forms are outside the model. *)
Definition scan_f_text (s : list ascii) : option (bool * Z * Z * list ascii) :=
  let '(neg, s1) := scan_sign (skip_space s) in
  let '(ip, ni, s2) := scan_digits s1 0 0 in
  let '(m, nf, s3) :=
    match s2 with
    | c :: s2' => if Ascii.eqb c "." then scan_digits s2' ip 0 else (ip, O, s2)
    | [] => (ip, O, s2)
    end in
  match (ni + nf)%nat with
  | O => None
  | _ =>
      let '(e, s4) := scan_exponent s3 in
      Some (neg, m, e - Z.of_nat nf, s4)
  end.

(** ** ROS messages *)

Record VelodynePacket := mk_packet {
  stamp : Z;
  data : list byte;
}.

Record VelodyneScan := mk_scan {
  frame_id : string;
  packets : list VelodynePacket;
}.

(** ** Object state *)

(** The local variables of RawData::setup that sscanf assigns; they are
    declared outside the loop and keep their values from line to line. *)
Record locals (F : Type) := mk_locals {
  l_index : Z;
  l_rotational : F;
  l_vertical : F;
  l_enabled : Z;
  l_offset1 : F;
  l_offset2 : F;
  l_offset3 : F;
  l_horzCorr : F;
  l_vertCorr : F;
}.
Arguments mk_locals {F}.
Arguments l_index {F}.
Arguments l_rotational {F}.
Arguments l_vertical {F}.
Arguments l_enabled {F}.
Arguments l_offset1 {F}.
Arguments l_offset2 {F}.
Arguments l_offset3 {F}.
Arguments l_horzCorr {F}.
Arguments l_vertCorr {F}.

(** A conversion directive together with the variable it assigns. *)
Inductive directive (F : Type) : Type :=
| conv_d (assign : Z -> locals F -> locals F)
| conv_f (assign : F -> locals F -> locals F).
Arguments conv_d {F}.
Arguments conv_f {F}.

(** The members of RawData, RawDataScans and RawDataXYZ, the number of calls
    made to [ros::ok()] so far, and the arguments the two callbacks have been
    invoked with, oldest first. *)
Record RawData (F : Type) := mk_RawData {
  rawScan_ : option VelodyneScan;
  angles_ : calibration F;
  uninitialized_ : bool;
  scans_ : list (laserscan_t F);
  scans_cb_ : bool;
  xyzScans_ : list (laserscan_xyz_t F);
  xyz_cb_ : bool;
  ok_calls : nat;
  scans_sent : list (list (laserscan_t F) * Z * string);
  xyz_sent : list (list (laserscan_xyz_t F) * Z * string);
}.
Arguments mk_RawData {F}.
Arguments rawScan_ {F}.
Arguments angles_ {F}.
Arguments uninitialized_ {F}.
Arguments scans_ {F}.
Arguments scans_cb_ {F}.
Arguments xyzScans_ {F}.
Arguments xyz_cb_ {F}.
Arguments ok_calls {F}.
Arguments scans_sent {F}.
Arguments xyz_sent {F}.

(** The dynamic type of the object [processScan] is called on. *)
Inductive klass : Set := RawDataScans | RawDataXYZ.

(** ** RawData::setup *)

Section Setup.
Context {F : Type} {Farith : FloatArith F} {Flib : FloatLib F}
  {Fres : Resolutions F}.

Definition set_index (n : Z) (v : locals F) : locals F :=
  mk_locals n (l_rotational v) (l_vertical v) (l_enabled v) (l_offset1 v)
    (l_offset2 v) (l_offset3 v) (l_horzCorr v) (l_vertCorr v).
Definition set_rotational (x : F) (v : locals F) : locals F :=
  mk_locals (l_index v) x (l_vertical v) (l_enabled v) (l_offset1 v)
    (l_offset2 v) (l_offset3 v) (l_horzCorr v) (l_vertCorr v).
Definition set_vertical (x : F) (v : locals F) : locals F :=
  mk_locals (l_index v) (l_rotational v) x (l_enabled v) (l_offset1 v)
    (l_offset2 v) (l_offset3 v) (l_horzCorr v) (l_vertCorr v).
Definition set_enabled (n : Z) (v : locals F) : locals F :=
  mk_locals (l_index v) (l_rotational v) (l_vertical v) n (l_offset1 v)
    (l_offset2 v) (l_offset3 v) (l_horzCorr v) (l_vertCorr v).
Definition set_offset1 (x : F) (v : locals F) : locals F :=
  mk_locals (l_index v) (l_rotational v) (l_vertical v) (l_enabled v) x
    (l_offset2 v) (l_offset3 v) (l_horzCorr v) (l_vertCorr v).
Definition set_offset2 (x : F) (v : locals F) : locals F :=
  mk_locals (l_index v) (l_rotational v) (l_vertical v) (l_enabled v)
    (l_offset1 v) x (l_offset3 v) (l_horzCorr v) (l_vertCorr v).
Definition set_offset3 (x : F) (v : locals F) : locals F :=
  mk_locals (l_index v) (l_rotational v) (l_vertical v) (l_enabled v)
    (l_offset1 v) (l_offset2 v) x (l_horzCorr v) (l_vertCorr v).
Definition set_horzCorr (x : F) (v : locals F) : locals F :=
  mk_locals (l_index v) (l_rotational v) (l_vertical v) (l_enabled v)
    (l_offset1 v) (l_offset2 v) (l_offset3 v) x (l_vertCorr v).
Definition set_vertCorr (x : F) (v : locals F) : locals F :=
  mk_locals (l_index v) (l_rotational v) (l_vertical v) (l_enabled v)
    (l_offset1 v) (l_offset2 v) (l_offset3 v) (l_horzCorr v) x.

(** The [%f] directive: the matched text converted by the C library. *)
Definition scan_f (s : list ascii) : option (F * list ascii) :=
  match scan_f_text s with
  | Some (neg, m, e, rest) => Some (strtof neg m e, rest)
  | None => None
  end.

(** The directives of a format in order, each assigning as soon as it
    matches; the scan stops at the first directive that does not match.
    [count] is the number of assignments made so far. *)
Fixpoint sscanf_from (fmt : list (directive F)) (s : list ascii) (v : locals F)
    (count : Z) : Z * locals F :=
  match fmt with
  | [] => (count, v)
  | conv_d assign :: fmt' =>
      match scan_d s with
      | Some (n, s') => sscanf_from fmt' s' (assign n v) (count + 1)
      | None => (count, v)
      end
  | conv_f assign :: fmt' =>
      match scan_f s with
      | Some (x, s') => sscanf_from fmt' s' (assign x v) (count + 1)
      | None => (count, v)
      end
  end.

(** [sscanf(buffer, fmt, ...)] for a format of white-space separated
    conversions: the number of assignments, or EOF (-1) when the input ends
    before the first conversion. *)
Definition sscanf (buffer : list ascii) (fmt : list (directive F)) (v : locals F)
  : Z * locals F :=
  match skip_space buffer with
  | [] => (-1, v)
  | _ :: _ => sscanf_from fmt buffer v 0
  end.

(** ["%d %f %f %f %f %f %d"] with the arguments of the first call. *)
Definition format7 : list (directive F) :=
  [conv_d set_index; conv_f set_rotational; conv_f set_vertical;
   conv_f set_offset1; conv_f set_offset2; conv_f set_offset3;
   conv_d set_enabled].

(** ["%d %f %f %f %f %f %f %f %d"] with the arguments of the second call. *)
Definition format9 : list (directive F) :=
  [conv_d set_index; conv_f set_rotational; conv_f set_vertical;
   conv_f set_offset1; conv_f set_offset2; conv_f set_offset3;
   conv_f set_vertCorr; conv_f set_horzCorr; conv_d set_enabled].

(** [angles[ind] = v] for an [int] subscript. *)
Definition wr_int {A} (a : list A) (ind : Z) (x : A) : Res (list A) :=
  if decide (0 <= ind) then wr a (Z.to_nat ind) x else Fault OutOfBounds.

(** The eight assignments to the fields of [angles[ind]]. *)
Definition angles_entry (v : locals F) : correction_angles F :=
  {| rotational := from_degrees (l_rotational v);
     vertical := from_degrees (l_vertical v);
     offset1 := l_offset1 v;
     offset2 := l_offset2 v;
     offset3 := l_offset3 v;
     horzCorr := l_horzCorr v;
     vertCorr := l_vertCorr v;
     enabled := l_enabled v |}.

(** The body of the branch taken for a recognized data line. *)
Definition store_angles (v : locals F) (cal : calibration F) : Res (calibration F) :=
  if decide (l_index v < 32) then
    lower' ← wr_int (lower_ cal) (l_index v) (angles_entry v);
    mret (mk_calibration lower' (upper_ cal))
  else
    upper' ← wr_int (upper_ cal) (l_index v - 32) (angles_entry v);
    mret (mk_calibration (lower_ cal) upper').

Definition upper_text : list ascii := list_ascii_of_string "upper".
Definition lower_text : list ascii := list_ascii_of_string "lower".

(** The condition [sscanf(buffer, ...) == 7 || sscanf(buffer, ...) == 9] with
    its assignments: the second call is made only when the first does not
    return 7, on the variables as the first call left them. *)
Definition data_line (buffer : list ascii) (v : locals F) : bool * locals F :=
  let '(n7, v7) := sscanf buffer format7 v in
  if decide (n7 = 7) then (true, v7)
  else
    let '(n9, v9) := sscanf buffer format9 v7 in
    (bool_decide (n9 = 9), v9).

(** One iteration of the while loop, on the C string [buffer]. *)
Definition config_line (buffer : list ascii) (v : locals F) (cal : calibration F)
  : Res (locals F * calibration F) :=
  if decide (head buffer = Some "#"%char) then mret (v, cal)
  else if decide (buffer = upper_text) then mret (v, cal)
  else if decide (buffer = lower_text) then mret (v, cal)
  else
    let '(matched, v') := data_line buffer v in
    if matched then cal' ← store_angles v' cal; mret (v', cal')
    else mret (v', cal).

(** [while (config.getline(buffer, sizeof(buffer))) ...] on the unread
    characters [config].  Every successful getline consumes a character, so
    [fuel] above the length of [config] is never exhausted
    (see [read_config_fuel]). *)
Fixpoint read_config (fuel : nat) (config : list ascii) (v : locals F)
    (cal : calibration F) : Res (calibration F) :=
  match fuel with
  | O => Ok cal
  | Datatypes.S fuel' =>
      match getline 256 config with
      | None => Ok cal
      | Some (buffer, rest) =>
          '(v', cal') ← config_line (c_str buffer) v cal;
          read_config fuel' rest v' cal'
      end
  end.

Definition locals_init : locals F :=
  mk_locals 0 fzero fzero 0 fzero fzero fzero fzero fzero.

(** [RawData::setup].  [config] is what opening the angles file gives: [None]
    when it cannot be opened, otherwise its characters.  The result is the
    value returned and the object afterwards.  The lookup of the file name
    on the parameter server, with the assignment of the member [anglesFile_]
    it makes on every call (lines 71-78), and the log messages are left out:
    [anglesFile_] is not a field of [RawData], and nothing proved here
    speaks of it. *)
Definition setup (this : RawData F) (config : option (list ascii))
  : Res (Z * RawData F) :=
  match config with
  | None => mret (-1, this)
  | Some content =>
      cal ← read_config (Datatypes.S (length content)) content locals_init
              (angles_ this);
      mret (0, mk_RawData (rawScan_ this) cal false (scans_ this)
                 (scans_cb_ this) (xyzScans_ this) (xyz_cb_ this)
                 (ok_calls this) (scans_sent this) (xyz_sent this))
  end.

End Setup.

(** ** Construction and the processing entry points *)

Section Processing.
Context {F : Type} {Farith : FloatArith F} {Flib : FloatLib F}
  {Fres : Resolutions F}.

(** The answers of [ros::ok()], by call number. *)
Variable ros_ok : nat -> bool.

(** An entry whose bytes are all zero ([memset]), and value-initialized
    vector elements ([resize]). *)
Definition zero_angles : correction_angles F :=
  mk_correction_angles fzero fzero fzero fzero fzero fzero fzero 0.
Definition zero_scan : laserscan_t F := mk_laserscan fzero fzero fzero 0 0 0.
Definition zero_xyz : laserscan_xyz_t F :=
  mk_laserscan_xyz fzero fzero fzero fzero 0 0 0.

(** [RawData::RawData] with the constructors of the two derived classes:
    they clear [lower_] and [upper_] ([memset]) and reserve the vectors.  No
    constructor assigns [uninitialized_], and the only assignment to it in
    rawdata.cc is the one of setup (line 155): after construction the member
    holds what the storage of the object held, [stored_flag], which is
    [false] in zero-filled storage.  [cb1] and [cb2] tell whether a scans
    callback and an XYZ callback have been subscribed. *)
Definition RawData_new (stored_flag : bool) (cb1 cb2 : bool) : RawData F :=
  mk_RawData None
    (mk_calibration (replicate 32 zero_angles) (replicate 32 zero_angles))
    stored_flag [] cb1 [] cb2 0 [] [].

(** A call to [ros::ok()]. *)
Definition call_ros_ok (this : RawData F) : bool * RawData F :=
  (ros_ok (ok_calls this),
   mk_RawData (rawScan_ this) (angles_ this) (uninitialized_ this)
     (scans_ this) (scans_cb_ this) (xyzScans_ this) (xyz_cb_ this)
     (Datatypes.S (ok_calls this)) (scans_sent this) (xyz_sent this)).

Definition with_scans (this : RawData F) (scans : list (laserscan_t F))
  : RawData F :=
  mk_RawData (rawScan_ this) (angles_ this) (uninitialized_ this)
    scans (scans_cb_ this) (xyzScans_ this) (xyz_cb_ this)
    (ok_calls this) (scans_sent this) (xyz_sent this).

Definition with_xyzScans (this : RawData F) (points : list (laserscan_xyz_t F))
  : RawData F :=
  mk_RawData (rawScan_ this) (angles_ this) (uninitialized_ this)
    (scans_ this) (scans_cb_ this) points (xyz_cb_ this)
    (ok_calls this) (scans_sent this) (xyz_sent this).

(** [cb_(scans_, pkt->stamp, frame_id)] of RawDataScans. *)
Definition send_scans (this : RawData F) (t : Z) (frame : string) : RawData F :=
  mk_RawData (rawScan_ this) (angles_ this) (uninitialized_ this)
    (scans_ this) (scans_cb_ this) (xyzScans_ this) (xyz_cb_ this)
    (ok_calls this) (scans_sent this ++ [(scans_ this, t, frame)])
    (xyz_sent this).

(** [cb_(xyzScans_, pkt->stamp, frame_id)] of RawDataXYZ. *)
Definition send_xyz (this : RawData F) (t : Z) (frame : string) : RawData F :=
  mk_RawData (rawScan_ this) (angles_ this) (uninitialized_ this)
    (scans_ this) (scans_cb_ this) (xyzScans_ this) (xyz_cb_ this)
    (ok_calls this) (scans_sent this)
    (xyz_sent this ++ [(xyzScans_ this, t, frame)]).

(** [RawDataScans::processPacket]. *)
Definition Scans_processPacket (this : RawData F) (pkt : VelodynePacket)
    (frame : string) : Res (RawData F) :=
  let this := with_scans this (resize SCANS_PER_PACKET zero_scan (scans_ this)) in
  scans ← packet2scans (angles_ this) (data pkt) (scans_ this);
  let this := with_scans this scans in
  let '(ok, this) := call_ros_ok this in
  if negb ok then mret this
  else if scans_cb_ this then mret (send_scans this (stamp pkt) frame)
  else mret this.

(** [RawDataXYZ::scan2xyz]. *)
Definition scan2xyz (scan : laserscan_t F) : laserscan_xyz_t F :=
  let xy_projection := fmul (range scan) (cosf (pitch scan)) in
  {| xyz_laser_number := laser_number scan;
     xyz_heading := heading scan;
     xyz_revolution := revolution scan;
     xyz_x := fmul xy_projection (cosf (heading scan));
     xyz_y := fmul xy_projection (sinf (heading scan));
     xyz_z := fmul (range scan) (sinf (pitch scan));
     xyz_intensity := intensity scan |}.

(** [RawDataXYZ::processPacket]. *)
Definition XYZ_processPacket (this : RawData F) (pkt : VelodynePacket)
    (frame : string) : Res (RawData F) :=
  this ← Scans_processPacket this pkt frame;
  let points := resize (length (scans_ this)) zero_xyz (xyzScans_ this) in
  points ← for_loop (length points) 0
              (fun i points => scan ← rd (scans_ this) i; wr points i (scan2xyz scan))
              points;
  let this := with_xyzScans this points in
  let '(ok, this) := call_ros_ok this in
  if negb ok then mret this
  else if xyz_cb_ this then mret (send_xyz this (stamp pkt) frame)
  else mret this.

(** The virtual call [processPacket(...)]. *)
Definition processPacket (k : klass) (this : RawData F) (pkt : VelodynePacket)
    (frame : string) : Res (RawData F) :=
  match k with
  | RawDataScans => Scans_processPacket this pkt frame
  | RawDataXYZ => XYZ_processPacket this pkt frame
  end.

(** The loop of processScan over the packets not yet visited. *)
Fixpoint process_packets (k : klass) (pkts : list VelodynePacket)
    (frame : string) (this : RawData F) : Res (RawData F) :=
  match pkts with
  | [] => mret this
  | pkt :: pkts' =>
      let '(ok, this) := call_ros_ok this in
      if negb ok then mret this
      else
        this ← processPacket k this pkt frame;
        process_packets k pkts' frame this
  end.

(** [RawData::processScan]. *)
Definition processScan (k : klass) (this : RawData F) (scanMsg : VelodyneScan)
  : Res (RawData F) :=
  let this :=
    mk_RawData (Some scanMsg) (angles_ this) (uninitialized_ this)
      (scans_ this) (scans_cb_ this) (xyzScans_ this) (xyz_cb_ this)
      (ok_calls this) (scans_sent this) (xyz_sent this) in
  if uninitialized_ this then mret this
  else process_packets k (packets scanMsg) (frame_id scanMsg) this.

(** A call made on the object by its owner. *)
Inductive call : Type :=
| call_setup (config : option (list ascii))
| call_processScan (scanMsg : VelodyneScan).

Definition do_call (k : klass) (this : RawData F) (c : call) : Res (RawData F) :=
  match c with
  | call_setup config => '(_, this') ← setup this config; mret this'
  | call_processScan scanMsg => processScan k this scanMsg
  end.

(** A sequence of calls, in order. *)
Fixpoint do_calls (k : klass) (this : RawData F) (cs : list call)
  : Res (RawData F) :=
  match cs with
  | [] => mret this
  | c :: cs' => this' ← do_call k this c; do_calls k this' cs'
  end.

End Processing.

(** ** Carrier 1: exact real arithmetic *)

(** [float] and [double] read as real numbers, every operation exact. *)
#[global] Instance real_arith : FloatArith R := {
  fzero := 0%R;
  of_int := IZR;
  fneg := Ropp;
  fadd := Rplus;
  fsub := Rminus;
  fmul := Rmult;
}.

#[global] Instance real_resolutions : Resolutions R := {
  ROTATION_RESOLUTION := (1 / 100)%R;
  DISTANCE_RESOLUTION := (2 / 1000)%R;
}.

(** The integer part of [x], rounded toward zero. *)
Definition Rtrunc (x : R) : Z :=
  if Rle_dec 0 x then Int_part x else (- Int_part (- x))%Z.

(** C's [fmod]: [x - n * y] for [n] the quotient [x / y] rounded toward
    zero. *)
Definition fmod (x y : R) : R := (x - IZR (Rtrunc (x / y)) * y)%R.

(** [angles::normalize_angle_positive] and [angles::normalize_angle] of the
    ROS angles package. *)
Definition normalize_angle_positive (angle : R) : R :=
  fmod (fmod angle (2 * PI) + 2 * PI) (2 * PI).
Definition real_normalize_angle (angle : R) : R :=
  let a := normalize_angle_positive angle in
  if Rlt_dec PI a then (a - 2 * PI)%R else a.

(** The real number a decimal numeral denotes. *)
Definition decimal_value (neg : bool) (m e : Z) : R :=
  let v := if decide (0 <= e) then IZR (m * 10 ^ e)
           else (IZR m / IZR (10 ^ (- e)))%R in
  if neg then (- v)%R else v.

#[global] Instance real_lib : FloatLib R := {
  from_degrees := fun degrees => (degrees * PI / 180)%R;
  normalize_angle := real_normalize_angle;
  cosf := cos;
  sinf := sin;
  strtof := decimal_value;
}.

(** ** Carrier 2: IEEE-754 binary32 arithmetic *)

(** [float] as binary32 (24-bit precision, maximal exponent 128), with the
    round-to-nearest-even operations of the standard library's
    specification of IEEE-754. *)
#[global] Instance binary32_arith : FloatArith spec_float := {
  fzero := S754_zero false;
  of_int := fun n => binary_normalize 24 128 n 0 false;
  fneg := SFopp;
  fadd := SFadd 24 128;
  fsub := SFsub 24 128;
  fmul := SFmul 24 128;
}.

(** 0.01f = 10737418 * 2^-30 and 0.002f = 8589935 * 2^-32. *)
#[global] Instance binary32_resolutions : Resolutions spec_float := {
  ROTATION_RESOLUTION := S754_finite false 10737418 (-30);
  DISTANCE_RESOLUTION := S754_finite false 8589935 (-32);
}.

(** 1.0f. *)
Definition binary32_one : spec_float := S754_finite false 8388608 (-23).







(** ** Notions used to state the properties *)

Section Notions.
Context {F : Type} {Farith : FloatArith F} {Flib : FloatLib F}
  {Fres : Resolutions F}.

(** What the body of the outer loop of packet2scans computes for slot [j] of
    block [i], once the revolution counter has been read. *)
Definition block_entry (cal : calibration F) (raw : list byte) (revolution_ : Z)
    (i j : nat) : Res (laserscan_t F) :=
  header ← block_header raw i;
  let '(bank_origin, corrections) := select_bank cal header in
  units ← block_rotation raw i;
  decode_slot raw corrections bank_origin (rotation_of units) revolution_
    i j (j * RAW_SCAN_SIZE).

(** The entry packet2scans computes for slot [j] of block [i]. *)
Definition packet_entry (cal : calibration F) (raw : list byte) (i j : nat)
  : Res (laserscan_t F) :=
  revolution_ ← packet_revolution raw;
  block_entry cal raw revolution_ i j.

(** Both calibration arrays have their 32 entries. *)
Definition calibration_wf (cal : calibration F) : Prop :=
  length (lower_ cal) = 32%nat /\ length (upper_ cal) = 32%nat.

(** Two calibration entries that agree on every field but [enabled]. *)
Definition same_but_enabled (c d : correction_angles F) : Prop :=
  rotational c = rotational d /\ vertical c = vertical d /\
  offset1 c = offset1 d /\ offset2 c = offset2 d /\ offset3 c = offset3 d /\
  horzCorr c = horzCorr d /\ vertCorr c = vertCorr d.

(** Two calibration tables that differ at most in [enabled] fields. *)
Definition tables_same_but_enabled (cal1 cal2 : calibration F) : Prop :=
  Forall2 same_but_enabled (lower_ cal1) (lower_ cal2) /\
  Forall2 same_but_enabled (upper_ cal1) (upper_ cal2).

(** A call that does not complete a calibration load: processScan, or a
    setup whose file cannot be opened. *)
Definition loads_nothing (c : call) : bool :=
  match c with
  | call_setup (Some _) => false
  | call_setup None => true
  | call_processScan _ => true
  end.

End Notions.

(** The newline character, and texts made of complete lines. *)
Definition newline : ascii := "010"%char.
Definition complete_lines (s : list ascii) : Prop :=
  s = [] \/ last s = Some newline.

(** The object after [processScan] returned at the initialization gate: only
    the message pointer has been saved. *)
Definition gated {F} (this : RawData F) (scanMsg : VelodyneScan) : RawData F :=
  mk_RawData (Some scanMsg) (angles_ this) (uninitialized_ this)
    (scans_ this) (scans_cb_ this) (xyzScans_ this) (xyz_cb_ this)
    (ok_calls this) (scans_sent this) (xyz_sent this).

(** * Auxiliary definitions and example inputs *)

(** The bytes packet2scans reads: the twelve blocks and the revolution
    counter, 1202 bytes. *)
Definition bytes_read : nat := (BLOCKS_PER_PACKET * SIZE_BLOCK + 2)%nat.

(** Equality of binary32 values as data (not IEEE comparison). *)
Definition spec_float_eqb (a b : spec_float) : bool :=
  match a, b with
  | S754_zero s, S754_zero t => Bool.eqb s t
  | S754_infinity s, S754_infinity t => Bool.eqb s t
  | S754_nan, S754_nan => true
  | S754_finite s m e, S754_finite t m' e' =>
      Bool.eqb s t && Pos.eqb m m' && Z.eqb e e'
  | _, _ => false
  end.

(** [P] on every integer whose binary numeral is [prefix] followed by
    [bits] more digits. *)
Fixpoint all_below (bits : nat) (prefix : Z) (P : Z -> bool) : bool :=
  match bits with
  | O => P prefix
  | Datatypes.S bits' =>
      all_below bits' (2 * prefix) P && all_below bits' (2 * prefix + 1) P
  end.

(** The range of a laser whose correction is the identity, against the
    uncorrected range, in binary32 arithmetic. *)
Definition identity_angles : correction_angles spec_float :=
  mk_correction_angles fzero fzero fzero binary32_one fzero fzero fzero 0.
Definition identity_exact (units : Z) : bool :=
  spec_float_eqb (corrected_range identity_angles units)
    (fmul (of_int units) DISTANCE_RESOLUTION).

(** A freshly constructed object whose storage held a set flag, with a scans
    callback subscribed, over the reals, and its all-zero calibration
    table. *)
Definition example_object : RawData R := RawData_new true true false.
Definition example_table : calibration R := angles_ example_object.

(** A packet of 1206 zero bytes and an output array of 384 entries. *)
Definition example_packet : list byte := replicate 1206 "000"%byte.
Definition example_scans : list (laserscan_t R) := replicate 384 zero_scan.

(** The all-zero table with every laser enabled. *)
Definition enabled_angles : correction_angles R :=
  mk_correction_angles 0%R 0%R 0%R 0%R 0%R 0%R 0%R 1.
Definition enabled_table : calibration R :=
  mk_calibration (replicate 32 enabled_angles) (replicate 32 enabled_angles).


(** The binary32 table whose lasers all have the identity correction, and a
    binary32 output array. *)
Definition example_table32 : calibration spec_float :=
  mk_calibration (replicate 32 identity_angles) (replicate 32 identity_angles).
Definition example_scans32 : list (laserscan_t spec_float) :=
  replicate 384 (mk_laserscan fzero fzero fzero 0 0 0).

(** Calibration lines: a 7-field line for laser 40, one for the index 64,
    which no bank holds, and a 9-field line for laser 5. *)
Definition line_index_40 : list ascii :=
  list_ascii_of_string "40 1.5 -2.0 0.1 0.2 0.3 1".
Definition line_index_64 : list ascii :=
  list_ascii_of_string "64 0 0 0 0 0 1".
Definition line_nine_fields : list ascii :=
  list_ascii_of_string "5 10.0 -2.0 0.1 0.2 0.3 0.5 0.6 1".

(** A packet message whose buffer stops after the revolution counter, four
    bytes short of PACKET_SIZE. *)
Definition short_packet : VelodynePacket := mk_packet 0 (replicate 1202 "000"%byte).

(** A node that is never shut down. *)
Definition always_ok : nat -> bool := fun _ => true.

(** A calibration file: a line for laser 5, then a line of 256 characters,
    then a line for laser 6. *)
Definition file_head : list ascii :=
  list_ascii_of_string "5 10.0 -2.0 0.1 0.2 0.3 1" ++ [newline].
Definition file_tail : list ascii :=
  replicate 256 "x"%char ++ [newline]
  ++ list_ascii_of_string "6 1.0 1.0 1.0 1.0 1.0 1" ++ [newline].

(** A scan message of two packets. *)
Definition example_msg : VelodyneScan :=
  mk_scan "velodyne" [mk_packet 0 example_packet; short_packet].





(** A scan message of one packet of 1206 bytes. *)
Definition full_msg : VelodyneScan :=
  mk_scan "velodyne" [mk_packet 0 example_packet].

(** * Notions and example inputs of the further properties *)

(** A computation whose only possible fault is an access outside an array. *)
Definition faults_out_of_bounds {A} (m : Res A) : Prop :=
  forall f, m = Fault f -> f = OutOfBounds.

(** An output array one entry short. *)
Definition short_scans : list (laserscan_t R) := replicate 383 zero_scan.

(** A packet whose four status bytes are set. *)
Definition example_packet_status : list byte :=
  replicate 1202 "000"%byte ++ replicate 4 "255"%byte.
(** An output array holding entries of an earlier packet. *)
Definition stale_scans : list (laserscan_t R) :=
  replicate 384 (mk_laserscan 1%R 1%R 1%R 9 9 9).

(** The entries packet2scans gives for a packet into a fresh array; no
    entries when it faults. *)
Definition decode_packet {F : Type} {Farith : FloatArith F} {Flib : FloatLib F}
    {Fres : Resolutions F} (cal : calibration F) (pkt : VelodynePacket)
  : list (laserscan_t F) :=
  match packet2scans cal (data pkt) (replicate SCANS_PER_PACKET zero_scan) with
  | Ok out => out
  | Fault _ => []
  end.

(** What processing leaves alone: the calibration tables, the
    initialization flag and the subscriptions. *)
Definition same_setup {F : Type} (this this' : RawData F) : Prop :=
  angles_ this' = angles_ this /\
  uninitialized_ this' = uninitialized_ this /\
  scans_cb_ this' = scans_cb_ this /\ xyz_cb_ this' = xyz_cb_ this.

(** An object on which setup has succeeded, with both callbacks subscribed. *)
Definition ready_object : RawData R :=
  mk_RawData None (angles_ example_object) false [] true [] true 0 [] [].

(** The arguments of the scans callback and of the XYZ callback for the
    packets of a message, in order. *)
Definition scans_batches {F : Type} {Farith : FloatArith F} {Flib : FloatLib F}
    {Fres : Resolutions F} (cal : calibration F) (frame : string)
    (pkts : list VelodynePacket) : list (list (laserscan_t F) * Z * string) :=
  map (fun pkt => (decode_packet cal pkt, stamp pkt, frame)) pkts.
Definition xyz_batches {F : Type} {Farith : FloatArith F} {Flib : FloatLib F}
    {Fres : Resolutions F} (cal : calibration F) (frame : string)
    (pkts : list VelodynePacket) : list (list (laserscan_xyz_t F) * Z * string) :=
  map (fun pkt => (scan2xyz <$> decode_packet cal pkt, stamp pkt, frame)) pkts.

(** A buffer the loop body passes over without touching a variable: a
    comment, a bank marker, or white space only. *)
Definition passed_over (buffer : list ascii) : Prop :=
  head buffer = Some "#"%char \/ buffer = upper_text \/ buffer = lower_text \/
  skip_space buffer = [].

(** A line that getline delivers whole: no newline in it and at most 255
    characters. *)
Definition fits_buffer (line : list ascii) : Prop :=
  Forall (fun c => c <> newline) line /\ (length line <= 255)%nat.

(** [fits_buffer] as a test. *)
Definition fits_bufferb (line : list ascii) : bool :=
  forallb (fun c => negb (Ascii.eqb c "010")) line && Nat.leb (length line) 255.

(** The text of a file made of the given lines, each ended by a newline. *)
Definition file_of_lines (ls : list (list ascii)) : list ascii :=
  concat (map (fun line => line ++ [newline]) ls).

(** The object after a setup that changed no table entry. *)
Definition initialized {F} (this : RawData F) : RawData F :=
  mk_RawData (rawScan_ this) (angles_ this) false (scans_ this)
    (scans_cb_ this) (xyzScans_ this) (xyz_cb_ this)
    (ok_calls this) (scans_sent this) (xyz_sent this).

Definition file_without_data : list (list ascii) :=
  [list_ascii_of_string "# angles of unit 42"; upper_text; [];
   list_ascii_of_string "   "; lower_text].

(** Two arrays [tc] and [xc] obtained from [t] and [x] by the same stores:
    at every position they hold the same entry, or still what [t] and [x]
    held. *)
Definition arrays_track {A} (t x tc xc : list A) : Prop :=
  length xc = length tc /\
  forall k, xc !! k = tc !! k \/ (xc !! k = x !! k /\ tc !! k = t !! k).

Definition tables_track {F} (t x tc xc : calibration F) : Prop :=
  arrays_track (lower_ t) (lower_ x) (lower_ tc) (lower_ xc) /\
  arrays_track (upper_ t) (upper_ x) (upper_ tc) (upper_ xc).

(** The C strings the loop of RawData::setup passes to its tests, in order:
    what [read_config] reads with the same [fuel]. *)
Fixpoint buffers_read (fuel : nat) (config : list ascii) : list (list ascii) :=
  match fuel with
  | O => []
  | Datatypes.S fuel' =>
      match getline 256 config with
      | None => []
      | Some (buffer, rest) => c_str buffer :: buffers_read fuel' rest
      end
  end.

(** The number of assignments [sscanf] makes on [buffer]; it does not depend
    on the variables assigned (see [sscanf_count]). *)
Definition fields {F : Type} {Farith : FloatArith F} {Flib : FloatLib F}
    (buffer : list ascii)
    (fmt : list (directive F)) : Z :=
  (sscanf buffer fmt locals_init).1.

(** A line on which the second sscanf call, if made at all, stops before its
    seventh conversion, the one that assigns vertCorr. *)
Definition first_format_only {F : Type} {Farith : FloatArith F}
    {Flib : FloatLib F}
    (buffer : list ascii) : Prop :=
  fields buffer format7 = 7 \/ fields buffer format9 < 7.

(** An entry whose two correction fields are zero. *)
Definition no_corrections {F : Type} {Farith : FloatArith F}
    (e : correction_angles F) : Prop :=
  horzCorr e = fzero /\ vertCorr e = fzero.

(** Every entry of [new] is the entry of [old] at that place or has no
    corrections. *)
Definition old_or_uncorrected {F : Type} {Farith : FloatArith F}
    (old new : list (correction_angles F)) : Prop :=
  forall k e, new !! k = Some e -> old !! k = Some e \/ no_corrections e.

(** The variables after a nine-field line with vertCorr 0.5 and horzCorr
    0.6 for laser 3, and a seven-field line for laser 4. *)
Definition locals_after_nine : locals R :=
  mk_locals 3 0%R 0%R 1 0%R 0%R 0%R (6 / 10)%R (5 / 10)%R.
Definition line_seven_fields : list ascii :=
  list_ascii_of_string "4 0 0 0 0 0 1".

(** A file of a seven-field and a nine-field line. *)
Definition file_seven_nine : list ascii :=
  file_head ++ line_nine_fields ++ [newline].

(** * Facts *)

(** ** The result monad and the loop combinator *)

Lemma bind_Ok {A B} (a : A) (k : A -> Res B) : (Ok a ≫= k) = k a.
Proof. reflexivity. Qed.

Lemma bind_Ok_inv {A B} (m : Res A) (k : A -> Res B) (b : B) :
  m ≫= k = Ok b -> exists a, m = Ok a /\ k a = Ok b.
Proof. destruct m as [a|f]; simpl; [eauto | discriminate]. Qed.

Lemma rd_lookup {A} (a : list A) (i : nat) (v : A) :
  a !! i = Some v -> rd a i = Ok v.
Proof. unfold rd. intros ->. reflexivity. Qed.

Lemma rd_in_bounds {A} (a : list A) (i : nat) :
  (i < length a)%nat -> exists v, a !! i = Some v /\ rd a i = Ok v.
Proof.
  intros Hi. destruct (lookup_lt_is_Some_2 a i Hi) as [v Hv].
  exists v. split; [exact Hv | now apply rd_lookup].
Qed.

Lemma wr_in_bounds {A} (a : list A) (i : nat) (v : A) :
  (i < length a)%nat -> wr a i v = Ok (<[i := v]> a).
Proof. intros Hi. unfold wr. destruct (decide _); [reflexivity | lia]. Qed.

(** A loop whose body preserves [P] from one index to the next runs to
    completion and establishes [P] at the exit index. *)
Lemma for_loop_invariant {S} (P : nat -> S -> Prop) (body : nat -> S -> Res S) :
  forall (count start : nat) (s : S),
    P start s ->
    (forall i s0, (start <= i < start + count)%nat -> P i s0 ->
                  exists s1, body i s0 = Ok s1 /\ P (Datatypes.S i) s1) ->
    exists s', for_loop count start body s = Ok s' /\ P (start + count)%nat s'.
Proof.
  induction count as [|count IH]; intros start s HP Hstep.
  - exists s. rewrite Nat.add_0_r. split; [reflexivity | exact HP].
  - destruct (Hstep start s ltac:(lia) HP) as (s1 & Hb & HP1).
    destruct (IH (Datatypes.S start) s1 HP1) as (s' & Hl & HP').
    { intros i s0 Hi. apply Hstep. lia. }
    exists s'. simpl. rewrite Hb, bind_Ok, Hl.
    split; [reflexivity |]. replace (start + Datatypes.S count)%nat
      with (Datatypes.S start + count)%nat by lia. exact HP'.
Qed.

(** Loops with pointwise equal bodies are equal. *)
Lemma for_loop_ext {S} (body1 body2 : nat -> S -> Res S) :
  (forall i s, body1 i s = body2 i s) ->
  forall count start s, for_loop count start body1 s = for_loop count start body2 s.
Proof.
  intros Hb. induction count as [|count IH]; intros start s; simpl.
  - reflexivity.
  - rewrite Hb. destruct (body2 start s); simpl; [apply IH | reflexivity].
Qed.

(** ** Packet layout facts *)

Lemma SIZE_BLOCK_eq : SIZE_BLOCK = 100%nat.
Proof. reflexivity. Qed.
Lemma BLOCK_DATA_SIZE_eq : BLOCK_DATA_SIZE = 96%nat.
Proof. reflexivity. Qed.
Lemma SCANS_PER_PACKET_eq : SCANS_PER_PACKET = 384%nat.
Proof. reflexivity. Qed.
Lemma PACKET_SIZE_eq : PACKET_SIZE = 1206%nat.
Proof. reflexivity. Qed.

Lemma bytes_read_eq : bytes_read = 1202%nat.
Proof. reflexivity. Qed.

Ltac layout :=
  rewrite ?SIZE_BLOCK_eq, ?BLOCK_DATA_SIZE_eq, ?SCANS_PER_PACKET_eq,
    ?PACKET_SIZE_eq, ?bytes_read_eq in *;
  change SCANS_PER_BLOCK with 32%nat in *;
  change BLOCKS_PER_PACKET with 12%nat in *;
  change RAW_SCAN_SIZE with 3%nat in *.

Lemma byte_val_range (b : byte) : 0 <= byte_val b < 256.
Proof.
  unfold byte_val. pose proof (Byte.to_N_bounded b) as Hb.
  split; [lia |]. apply N2Z.inj_le in Hb. simpl in Hb. lia.
Qed.

Lemma two_bytes_uint_range (b0 b1 : byte) : 0 <= two_bytes_uint b0 b1 < 65536.
Proof.
  unfold two_bytes_uint.
  pose proof (byte_val_range b0). pose proof (byte_val_range b1). lia.
Qed.

Lemma rd_u16_in_bounds (raw : list byte) (off : nat) :
  (off + 1 < length raw)%nat ->
  exists b0 b1, raw !! off = Some b0 /\ raw !! (off + 1)%nat = Some b1 /\
                rd_u16 raw off = Ok (two_bytes_uint b0 b1).
Proof.
  intros Hoff.
  destruct (rd_in_bounds raw off ltac:(lia)) as (b0 & Hl0 & Hr0).
  destruct (rd_in_bounds raw (off + 1) ltac:(lia)) as (b1 & Hl1 & Hr1).
  exists b0, b1. unfold rd_u16. rewrite Hr0, bind_Ok, Hr1, bind_Ok. auto.
Qed.

Lemma block_data_in_bounds (raw : list byte) (i k : nat) :
  (bytes_read <= length raw)%nat -> (i < 12)%nat -> (k < 96)%nat ->
  exists b, raw !! (i * 100 + 4 + k)%nat = Some b /\ block_data raw i k = Ok b.
Proof.
  intros Hraw Hi Hk. unfold block_data. layout.
  destruct (decide (k < 96)%nat) as [_|]; [| lia].
  apply rd_in_bounds. lia.
Qed.

Section DecoderFacts.
Context {F : Type} {Farith : FloatArith F} {Flib : FloatLib F}
  {Fres : Resolutions F}.

(** The entry decoded from a slot, in terms of the calibration entry and
    the three bytes of the slot. *)
Lemma decode_slot_in_bounds (raw : list byte)
    (corrections : list (correction_angles F)) (bank_origin : nat)
    (rotation : F) (rev : Z) (i j : nat) :
  (bytes_read <= length raw)%nat -> length corrections = 32%nat ->
  (i < 12)%nat -> (j < 32)%nat ->
  exists c b0 b1 b2,
    corrections !! j = Some c /\
    raw !! (i * 100 + 4 + j * 3)%nat = Some b0 /\
    raw !! (i * 100 + 4 + j * 3 + 1)%nat = Some b1 /\
    raw !! (i * 100 + 4 + j * 3 + 2)%nat = Some b2 /\
    decode_slot raw corrections bank_origin rotation rev i j (j * RAW_SCAN_SIZE)
    = Ok {| laser_number := Z.of_nat (j + bank_origin);
            heading := normalize_angle (fneg (fsub rotation (rotational c)));
            pitch := vertical c;
            range := corrected_range c (two_bytes_uint b0 b1);
            intensity := byte_val b2;
            revolution := rev |}.
Proof.
  intros Hraw Hc Hi Hj.
  destruct (rd_in_bounds corrections j ltac:(lia)) as (c & Hlc & Hrc).
  destruct (block_data_in_bounds raw i (j * 3) Hraw Hi ltac:(lia)) as (b0 & Hl0 & Hr0).
  destruct (block_data_in_bounds raw i (j * 3 + 1) Hraw Hi ltac:(lia)) as (b1 & Hl1 & Hr1).
  destruct (block_data_in_bounds raw i (j * 3 + 2) Hraw Hi ltac:(lia)) as (b2 & Hl2 & Hr2).
  exists c, b0, b1, b2. unfold decode_slot. layout.
  rewrite Hrc, bind_Ok, Hr0, bind_Ok, Hr1, bind_Ok, Hr2, bind_Ok.
  replace (i * 100 + 4 + (j * 3 + 1))%nat with (i * 100 + 4 + j * 3 + 1)%nat in Hl1 by lia.
  replace (i * 100 + 4 + (j * 3 + 2))%nat with (i * 100 + 4 + j * 3 + 2)%nat in Hl2 by lia.
  auto 10.
Qed.

(** The inner loop writes the 32 entries of the block at
    [index0 .. index0 + 31] and nothing else. *)
Lemma slot_loop_spec (raw : list byte) (corrections : list (correction_angles F))
    (bank_origin : nat) (rotation : F) (rev : Z) (i index0 : nat)
    (scans : list (laserscan_t F)) :
  (bytes_read <= length raw)%nat -> length corrections = 32%nat ->
  (i < 12)%nat -> (index0 + 32 <= length scans)%nat ->
  exists k scans',
    for_loop SCANS_PER_BLOCK 0
      (slot_body raw corrections bank_origin rotation rev i)
      (0%nat, index0, scans) = Ok (k, (index0 + 32)%nat, scans') /\
    length scans' = length scans /\
    (forall j, (j < 32)%nat ->
       exists e, decode_slot raw corrections bank_origin rotation rev i j
                   (j * RAW_SCAN_SIZE) = Ok e /\
                 scans' !! (index0 + j)%nat = Some e) /\
    (forall p, (p < index0 \/ index0 + 32 <= p)%nat -> scans' !! p = scans !! p).
Proof.
  intros Hraw Hc Hi Hcap.
  pose (P := fun (j : nat) (st : nat * nat * list (laserscan_t F)) =>
    let '(k, index, sc) := st in
    k = (j * RAW_SCAN_SIZE)%nat /\ index = (index0 + j)%nat /\
    length sc = length scans /\
    (forall j', (j' < j)%nat ->
       exists e, decode_slot raw corrections bank_origin rotation rev i j'
                   (j' * RAW_SCAN_SIZE) = Ok e /\
                 sc !! (index0 + j')%nat = Some e) /\
    (forall p, (p < index0 \/ index0 + j <= p)%nat -> sc !! p = scans !! p)).
  destruct (for_loop_invariant P
              (slot_body raw corrections bank_origin rotation rev i)
              SCANS_PER_BLOCK 0 (0%nat, index0, scans)) as ([[k index] sc] & Hrun & HP).
  - unfold P. split; [reflexivity |]. split; [lia |]. split; [reflexivity |].
    split; [intros j' Hj'; lia | reflexivity].
  - intros j [[k index] sc] Hj (Hk & Hidx & Hlen & Hdone & Hrest).
    change SCANS_PER_BLOCK with 32%nat in Hj.
    destruct (decode_slot_in_bounds raw corrections bank_origin rotation rev i j
                Hraw Hc Hi ltac:(lia)) as (c & b0 & b1 & b2 & _ & _ & _ & _ & Hd).
    eexists. unfold slot_body. subst k. rewrite Hd, bind_Ok.
    rewrite wr_in_bounds by lia. rewrite bind_Ok. split; [reflexivity |].
    unfold P. rewrite length_insert.
    split; [change RAW_SCAN_SIZE with 3%nat; lia |].
    split; [lia |]. split; [exact Hlen |]. split.
    + intros j' Hj'. destruct (decide (j' = j)) as [->|Hne].
      * eexists. split; [exact Hd |]. subst index.
        apply list_lookup_insert_eq. lia.
      * destruct (Hdone j' ltac:(lia)) as (e & He & Hle).
        exists e. split; [exact He |].
        rewrite list_lookup_insert_ne by lia. exact Hle.
    + intros p Hp. rewrite list_lookup_insert_ne by lia. apply Hrest. lia.
  - destruct HP as (Hk & Hidx & Hlen & Hdone & Hrest).
    change SCANS_PER_BLOCK with 32%nat in *. simpl in Hidx. subst index.
    exists k, sc. split; [exact Hrun |]. split; [exact Hlen |].
    split; [exact Hdone |]. intros p Hp. apply Hrest. simpl. lia.
Qed.

End DecoderFacts.

Section DecoderFacts2.
Context {F : Type} {Farith : FloatArith F} {Flib : FloatLib F}
  {Fres : Resolutions F}.

Lemma select_bank_length (cal : calibration F) (header : Z) :
  calibration_wf cal -> length (select_bank cal header).2 = 32%nat.
Proof.
  intros [Hl Hu]. unfold select_bank.
  destruct (decide (header = LOWER_BANK)); simpl; assumption.
Qed.

(** The entry of slot [j] of block [i] in terms of the bytes of the packet
    and of the calibration entry of the selected bank. *)
Lemma block_entry_in_bounds (cal : calibration F) (raw : list byte) (rev : Z)
    (i j : nat) :
  (bytes_read <= length raw)%nat -> calibration_wf cal ->
  (i < 12)%nat -> (j < 32)%nat ->
  exists h0 h1 r0 r1 c b0 b1 b2,
    raw !! (i * 100)%nat = Some h0 /\
    raw !! (i * 100 + 1)%nat = Some h1 /\
    raw !! (i * 100 + 2)%nat = Some r0 /\
    raw !! (i * 100 + 2 + 1)%nat = Some r1 /\
    (select_bank cal (two_bytes_uint h0 h1)).2 !! j = Some c /\
    raw !! (i * 100 + 4 + j * 3)%nat = Some b0 /\
    raw !! (i * 100 + 4 + j * 3 + 1)%nat = Some b1 /\
    raw !! (i * 100 + 4 + j * 3 + 2)%nat = Some b2 /\
    block_entry cal raw rev i j
    = Ok {| laser_number :=
              Z.of_nat (j + (select_bank cal (two_bytes_uint h0 h1)).1);
            heading :=
              normalize_angle
                (fneg (fsub (rotation_of (two_bytes_uint r0 r1)) (rotational c)));
            pitch := vertical c;
            range := corrected_range c (two_bytes_uint b0 b1);
            intensity := byte_val b2;
            revolution := rev |}.
Proof.
  intros Hraw Hcal Hi Hj. layout.
  assert (Hraw' : (bytes_read <= length raw)%nat) by (rewrite bytes_read_eq; exact Hraw).
  destruct (rd_u16_in_bounds raw (i * 100) ltac:(lia)) as (h0 & h1 & Hh0 & Hh1 & Hh).
  destruct (rd_u16_in_bounds raw (i * 100 + 2) ltac:(lia)) as (r0 & r1 & Hr0 & Hr1 & Hr).
  pose proof (select_bank_length cal (two_bytes_uint h0 h1) Hcal) as Hlen.
  destruct (select_bank cal (two_bytes_uint h0 h1)) as [bo corr] eqn:Hsel.
  simpl in Hlen.
  destruct (decode_slot_in_bounds raw corr bo (rotation_of (two_bytes_uint r0 r1))
              rev i j Hraw' Hlen Hi Hj)
    as (c & b0 & b1 & b2 & Hc & Hb0 & Hb1 & Hb2 & Hd).
  exists h0, h1, r0, r1, c, b0, b1, b2. rewrite Hsel. cbn [fst snd].
  repeat (split; [assumption |]).
  unfold block_entry, block_header, block_rotation. layout.
  rewrite Hh, bind_Ok, Hsel, Hr, bind_Ok. exact Hd.
Qed.

(** The body of the outer loop writes the 32 entries of block [i] at
    [index .. index + 31] and nothing else. *)
Lemma block_body_spec (cal : calibration F) (raw : list byte) (rev : Z)
    (i index : nat) (scans : list (laserscan_t F)) :
  (bytes_read <= length raw)%nat -> calibration_wf cal ->
  (i < 12)%nat -> (index + 32 <= length scans)%nat ->
  exists scans',
    block_body cal raw rev i (index, scans) = Ok ((index + 32)%nat, scans') /\
    length scans' = length scans /\
    (forall j, (j < 32)%nat ->
       exists e, block_entry cal raw rev i j = Ok e /\
                 scans' !! (index + j)%nat = Some e) /\
    (forall p, (p < index \/ index + 32 <= p)%nat -> scans' !! p = scans !! p).
Proof.
  intros Hraw Hcal Hi Hcap. layout.
  assert (Hraw' : (bytes_read <= length raw)%nat) by (rewrite bytes_read_eq; exact Hraw).
  destruct (rd_u16_in_bounds raw (i * 100) ltac:(lia)) as (h0 & h1 & _ & _ & Hh).
  destruct (rd_u16_in_bounds raw (i * 100 + 2) ltac:(lia)) as (r0 & r1 & _ & _ & Hr).
  pose proof (select_bank_length cal (two_bytes_uint h0 h1) Hcal) as Hlen.
  destruct (select_bank cal (two_bytes_uint h0 h1)) as [bo corr] eqn:Hsel.
  simpl in Hlen.
  destruct (slot_loop_spec raw corr bo (rotation_of (two_bytes_uint r0 r1)) rev
              i index scans Hraw' Hlen Hi Hcap)
    as (k & scans' & Hrun & Hlen' & Hdone & Hrest).
  exists scans'. split; [| split; [exact Hlen' | split; [| exact Hrest]]].
  - unfold block_body, block_header, block_rotation. layout.
    rewrite Hh, bind_Ok, Hsel, Hr, bind_Ok.
    change SCANS_PER_BLOCK with 32%nat in Hrun. rewrite Hrun. reflexivity.
  - intros j Hj. destruct (Hdone j Hj) as (e & He & Hle).
    exists e. split; [| exact Hle].
    unfold block_entry, block_header, block_rotation. layout.
    rewrite Hh, bind_Ok, Hsel, Hr, bind_Ok. exact He.
Qed.

(** packet2scans on a buffer that holds the twelve blocks and the counter,
    into an array of at least 384 entries: it returns, entry
    [i * 32 + j] is the one decoded from slot [j] of block [i], and the
    entries from 384 on are untouched. *)
Lemma packet2scans_spec (cal : calibration F) (raw : list byte)
    (scans : list (laserscan_t F)) :
  (bytes_read <= length raw)%nat -> calibration_wf cal ->
  (SCANS_PER_PACKET <= length scans)%nat ->
  exists out,
    packet2scans cal raw scans = Ok out /\
    length out = length scans /\
    (forall i j, (i < BLOCKS_PER_PACKET)%nat -> (j < SCANS_PER_BLOCK)%nat ->
       exists e, packet_entry cal raw i j = Ok e /\
                 out !! (i * SCANS_PER_BLOCK + j)%nat = Some e) /\
    (forall p, (SCANS_PER_PACKET <= p)%nat -> out !! p = scans !! p).
Proof.
  intros Hraw Hcal Hcap. layout.
  assert (Hraw' : (bytes_read <= length raw)%nat) by (rewrite bytes_read_eq; exact Hraw).
  destruct (rd_u16_in_bounds raw (12 * 100) ltac:(lia)) as (v0 & v1 & _ & _ & Hrev).
  set (rev := two_bytes_uint v0 v1) in *.
  pose (P := fun (i : nat) (st : nat * list (laserscan_t F)) =>
    let '(index, sc) := st in
    index = (i * 32)%nat /\ length sc = length scans /\
    (forall i' j, (i' < i)%nat -> (j < 32)%nat ->
       exists e, block_entry cal raw rev i' j = Ok e /\
                 sc !! (i' * 32 + j)%nat = Some e) /\
    (forall p, (i * 32 <= p)%nat -> sc !! p = scans !! p)).
  destruct (for_loop_invariant P (block_body cal raw rev) 12 0 (0%nat, scans))
    as ([index out] & Hrun & HP).
  - unfold P. split; [reflexivity |]. split; [reflexivity |].
    split; [intros i' j Hi'; lia | reflexivity].
  - intros i [index sc] Hi (Hidx & Hlen & Hdone & Hrest). subst index.
    destruct (block_body_spec cal raw rev i (i * 32) sc Hraw' Hcal ltac:(lia)
                ltac:(lia)) as (sc' & Hb & Hlen' & Hnew & Hold).
    exists ((i * 32 + 32)%nat, sc'). split; [exact Hb |].
    unfold P. split; [lia |]. split; [congruence |]. split.
    + intros i' j Hi' Hj. destruct (decide (i' = i)) as [->|Hne].
      * apply Hnew. exact Hj.
      * destruct (Hdone i' j ltac:(lia) Hj) as (e & He & Hle).
        exists e. split; [exact He |]. rewrite Hold by lia. exact Hle.
    + intros p Hp. rewrite Hold by lia. apply Hrest. lia.
  - destruct HP as (Hidx & Hlen & Hdone & Hrest). simpl in Hidx. subst index.
    exists out. split; [| split; [exact Hlen | split]].
    + unfold packet2scans, packet_revolution. layout.
      rewrite Hrev, bind_Ok. fold rev. rewrite Hrun, bind_Ok.
      destruct (decide (384 = 384)%nat); [reflexivity | lia].
    + intros i j Hi Hj. destruct (Hdone i j ltac:(lia) Hj) as (e & He & Hle).
      exists e. split; [| exact Hle].
      unfold packet_entry, packet_revolution. layout.
      rewrite Hrev, bind_Ok. exact He.
    + intros p Hp. apply Hrest. simpl. lia.
Qed.

End DecoderFacts2.

Section EnabledFacts.
Context {F : Type} {Farith : FloatArith F} {Flib : FloatLib F}
  {Fres : Resolutions F}.

Lemma corrected_range_same (c d : correction_angles F) (units : Z) :
  same_but_enabled c d -> corrected_range c units = corrected_range d units.
Proof.
  intros (_ & _ & H1 & H2 & H3 & _). unfold corrected_range.
  rewrite H1, H2, H3. reflexivity.
Qed.

Lemma rd_same (corr1 corr2 : list (correction_angles F)) (j : nat) :
  Forall2 same_but_enabled corr1 corr2 ->
  (exists c d, rd corr1 j = Ok c /\ rd corr2 j = Ok d /\ same_but_enabled c d) \/
  (rd corr1 j = Fault OutOfBounds /\ rd corr2 j = Fault OutOfBounds).
Proof.
  intros Hsame. unfold rd. destruct (corr1 !! j) as [c|] eqn:Hc.
  - destruct (Forall2_lookup_l _ _ _ _ _ Hsame Hc) as (d & Hd & Hcd).
    rewrite Hd. left. eauto.
  - right. apply lookup_ge_None_1 in Hc.
    rewrite (Forall2_length _ _ _ Hsame) in Hc.
    apply lookup_ge_None_2 in Hc. rewrite Hc. auto.
Qed.

Lemma decode_slot_same (raw : list byte)
    (corr1 corr2 : list (correction_angles F)) (bank_origin : nat)
    (rotation : F) (rev : Z) (i j k : nat) :
  Forall2 same_but_enabled corr1 corr2 ->
  decode_slot raw corr1 bank_origin rotation rev i j k
  = decode_slot raw corr2 bank_origin rotation rev i j k.
Proof.
  intros Hsame. unfold decode_slot.
  destruct (rd_same corr1 corr2 j Hsame)
    as [(c & d & -> & -> & Hcd) | [-> ->]]; [| reflexivity].
  rewrite !bind_Ok.
  destruct (block_data raw i k) as [b0|]; [| reflexivity].
  destruct (block_data raw i (k + 1)) as [b1|]; [| reflexivity].
  destruct (block_data raw i (k + 2)) as [b2|]; [| reflexivity].
  rewrite !bind_Ok. rewrite (corrected_range_same c d _ Hcd).
  destruct Hcd as (-> & -> & _). reflexivity.
Qed.

Lemma block_body_same (cal1 cal2 : calibration F) (raw : list byte) (rev : Z)
    (i : nat) (st : nat * list (laserscan_t F)) :
  tables_same_but_enabled cal1 cal2 ->
  block_body cal1 raw rev i st = block_body cal2 raw rev i st.
Proof.
  intros [Hl Hu]. destruct st as [index scans]. unfold block_body.
  destruct (block_header raw i) as [header|]; [| reflexivity].
  rewrite !bind_Ok. unfold select_bank.
  destruct (decide (header = LOWER_BANK));
    (destruct (block_rotation raw i) as [units|]; [| reflexivity]);
    rewrite !bind_Ok;
    (erewrite for_loop_ext; [reflexivity |]);
    intros j [[k idx] sc]; unfold slot_body;
    (erewrite decode_slot_same; [reflexivity | eassumption]).
Qed.

End EnabledFacts.

(** ** The angles package over the reals *)

Section Angles.
Local Open Scope R_scope.
















End Angles.

(** ** getline *)

Lemma eqb_newline (c : ascii) : Ascii.eqb c "010" = bool_decide (c = newline).
Proof.
  unfold newline. destruct (Ascii.eqb_spec c "010") as [->|Hne].
  - now rewrite bool_decide_eq_true_2.
  - now rewrite bool_decide_eq_false_2.
Qed.

(** On a text of complete lines followed by anything, getline behaves as on
    the text alone, and leaves complete lines unread. *)
Lemma getline_chars_complete (tail : list ascii) :
  forall (pre : list ascii) (room : nat),
    pre <> [] -> last pre = Some newline ->
    exists buf rest failed,
      getline_chars room pre = (buf, rest, failed) /\
      getline_chars room (pre ++ tail) = (buf, rest ++ tail, failed) /\
      (failed = false -> complete_lines rest) /\
      (length rest < length pre \/ failed = true)%nat.
Proof.
  induction pre as [|c pre IH]; intros room Hne Hlast; [congruence |].
  simpl. rewrite eqb_newline. destruct (bool_decide_reflect (c = newline)) as [->|Hc].
  - exists [], pre, false. repeat split; [| simpl; lia].
    intros _. destruct pre as [|c' pre']; [now left | right].
    now rewrite last_cons_cons in Hlast.
  - destruct room as [|room].
    + exists [], (c :: pre), true. repeat split; [discriminate | now right].
    + assert (Hpre : pre <> []).
      { intros ->. simpl in Hlast. congruence. }
      assert (Hlast' : last pre = Some newline).
      { destruct pre as [|c' pre']; [congruence |].
        now rewrite last_cons_cons in Hlast. }
      destruct (IH room Hpre Hlast') as (buf & rest & failed & H1 & H2 & H3 & H4).
      exists (c :: buf), rest, failed. rewrite H1, H2.
      repeat split; [exact H3 |]. simpl. destruct H4; [left; lia | now right].
Qed.

(** A line longer than the buffer sets failbit. *)
Lemma getline_chars_overlong :
  forall (room : nat) (tail : list ascii),
    (room < length tail)%nat ->
    Forall (fun c => c <> newline) (take (Datatypes.S room) tail) ->
    exists buf rest, getline_chars room tail = (buf, rest, true).
Proof.
  induction room as [|room IH]; intros [|c tail] Hlen Hnl; simpl in Hlen; try lia.
  - simpl. rewrite eqb_newline. apply Forall_cons in Hnl as [Hc _].
    rewrite bool_decide_eq_false_2 by exact Hc. eauto.
  - rewrite firstn_cons in Hnl. apply Forall_cons in Hnl as [Hc Hnl].
    simpl. rewrite eqb_newline, bool_decide_eq_false_2 by exact Hc.
    destruct (IH tail ltac:(lia) Hnl) as (buf & rest & ->). eauto.
Qed.

Lemma getline_overlong (tail : list ascii) :
  (256 <= length tail)%nat ->
  Forall (fun c => c <> newline) (take 256 tail) ->
  getline 256 tail = None.
Proof.
  intros Hlen Hnl. unfold getline. destruct tail as [|c tail]; [reflexivity |].
  change (256 - 1)%nat with 255%nat.
  destruct (getline_chars_overlong 255 (c :: tail) ltac:(lia) Hnl) as (buf & rest & ->).
  reflexivity.
Qed.

Lemma getline_complete (pre tail : list ascii) :
  pre <> [] -> last pre = Some newline ->
  match getline 256 pre with
  | Some (buf, rest) =>
      getline 256 (pre ++ tail) = Some (buf, rest ++ tail) /\
      complete_lines rest /\ (length rest < length pre)%nat
  | None => getline 256 (pre ++ tail) = None
  end.
Proof.
  intros Hne Hlast. unfold getline.
  destruct (getline_chars_complete tail pre (256 - 1) Hne Hlast)
    as (buf & rest & failed & H1 & H2 & H3 & H4).
  destruct pre as [|c pre]; [congruence |].
  rewrite <- app_comm_cons, H1. rewrite app_comm_cons, H2.
  destruct failed; [reflexivity |].
  split; [reflexivity |]. split; [now apply H3 |]. destruct H4; [lia | congruence].
Qed.

Section SetupFacts.
Context {F : Type} {Farith : FloatArith F} {Flib : FloatLib F}
  {Fres : Resolutions F}.

(** Once a line of 256 or more characters starts, read_config returns
    what it has: the result is that of the text before the line. *)
Lemma read_config_stops (tail : list ascii) :
  (256 <= length tail)%nat ->
  Forall (fun c => c <> newline) (take 256 tail) ->
  forall (fuel2 fuel1 : nat) (pre : list ascii) (v : locals F) (cal : calibration F),
    (length pre < fuel2)%nat -> (length (pre ++ tail) < fuel1)%nat ->
    complete_lines pre ->
    read_config fuel1 (pre ++ tail) v cal = read_config fuel2 pre v cal.
Proof.
  intros Hlen Hnl.
  induction fuel2 as [|fuel2 IH]; intros fuel1 pre v cal Hf2 Hf1 Hpre; [lia |].
  destruct fuel1 as [|fuel1]; [lia |].
  destruct Hpre as [->|Hlast].
  - simpl. rewrite (getline_overlong tail Hlen Hnl). reflexivity.
  - assert (Hne : pre <> []) by (intros ->; discriminate).
    pose proof (getline_complete pre tail Hne Hlast) as Hg.
    simpl. destruct (getline 256 pre) as [[buf rest]|].
    + destruct Hg as (-> & Hrest & Hshort).
      destruct (config_line (c_str buf) v cal) as [[v' cal']|]; [| reflexivity].
      rewrite !bind_Ok. apply IH; [lia | | exact Hrest].
      rewrite length_app in *. lia.
    + rewrite Hg. reflexivity.
Qed.

(** Whenever setup returns on a file that could be opened, it returns 0 and
    has cleared [uninitialized_]. *)
Lemma setup_opened (this this' : RawData F) (content : list ascii) (rc : Z) :
  setup this (Some content) = Ok (rc, this') ->
  rc = 0 /\ uninitialized_ this' = false /\
  read_config (Datatypes.S (length content)) content locals_init (angles_ this)
  = Ok (angles_ this').
Proof.
  unfold setup. intros Hs. apply bind_Ok_inv in Hs as (cal & Hcal & Hret).
  injection Hret as <- <-. auto.
Qed.

End SetupFacts.

Section LineFacts.
Context {F : Type} {Farith : FloatArith F} {Flib : FloatLib F}
  {Fres : Resolutions F}.

(** A comment line or a bank marker is never taken for a data line. *)
Lemma comment_not_data (buffer : list ascii) (v : locals F) :
  head buffer = Some "#"%char -> data_line buffer v = (false, v).
Proof.
  destruct buffer as [|c s]; [discriminate |]. intros [= ->]. reflexivity.
Qed.

Lemma upper_not_data (v : locals F) : data_line upper_text v = (false, v).
Proof. reflexivity. Qed.

Lemma lower_not_data (v : locals F) : data_line lower_text v = (false, v).
Proof. reflexivity. Qed.

(** On a recognized data line the loop body is the store. *)
Lemma config_line_data (buffer : list ascii) (v v' : locals F)
    (cal : calibration F) :
  data_line buffer v = (true, v') ->
  config_line buffer v cal = (cal' ← store_angles v' cal; mret (v', cal')).
Proof.
  intros Hd. unfold config_line.
  destruct (decide (head buffer = Some "#"%char)) as [Hc|_].
  { rewrite (comment_not_data _ _ Hc) in Hd. discriminate. }
  destruct (decide (buffer = upper_text)) as [->|_].
  { rewrite upper_not_data in Hd. discriminate. }
  destruct (decide (buffer = lower_text)) as [->|_].
  { rewrite lower_not_data in Hd. discriminate. }
  rewrite Hd. reflexivity.
Qed.

(** A line that neither call recognizes leaves the tables as they are. *)
Lemma config_line_skip (buffer : list ascii) (v v' : locals F)
    (cal : calibration F) :
  data_line buffer v = (false, v') ->
  exists v'', config_line buffer v cal = Ok (v'', cal).
Proof.
  intros Hd. unfold config_line.
  repeat (destruct (decide _); [eexists; reflexivity |]).
  rewrite Hd. eexists. reflexivity.
Qed.

(** The second sscanf is attempted only when the first does not return 7. *)
Lemma data_line_seven_first (buffer : list ascii) (v v7 : locals F) :
  sscanf buffer format7 v = (7, v7) -> data_line buffer v = (true, v7).
Proof.
  intros H7. unfold data_line. rewrite H7.
  destruct (decide (7 = 7)); [reflexivity | lia].
Qed.

Lemma data_line_nine_second (buffer : list ascii) (v v7 : locals F) (n7 : Z) :
  sscanf buffer format7 v = (n7, v7) -> n7 <> 7 ->
  data_line buffer v =
    (bool_decide ((sscanf buffer format9 v7).1 = 9), (sscanf buffer format9 v7).2).
Proof.
  intros H7 Hn. unfold data_line. rewrite H7.
  destruct (decide (n7 = 7)); [contradiction |].
  destruct (sscanf buffer format9 v7). reflexivity.
Qed.

(** The store for an index inside the tables. *)
Lemma store_angles_in_range (v : locals F) (cal : calibration F) :
  calibration_wf cal -> 0 <= l_index v < 64 ->
  exists cal',
    store_angles v cal = Ok cal' /\ calibration_wf cal' /\
    (l_index v < 32 ->
       lower_ cal' = <[Z.to_nat (l_index v) := angles_entry v]> (lower_ cal) /\
       upper_ cal' = upper_ cal /\
       lower_ cal' !! Z.to_nat (l_index v) = Some (angles_entry v)) /\
    (32 <= l_index v ->
       upper_ cal' = <[Z.to_nat (l_index v - 32) := angles_entry v]> (upper_ cal) /\
       lower_ cal' = lower_ cal /\
       upper_ cal' !! Z.to_nat (l_index v - 32) = Some (angles_entry v)).
Proof.
  intros [Hl Hu] Hidx. unfold store_angles, wr_int.
  destruct (decide (l_index v < 32)) as [Hlow|Hup].
  - destruct (decide (0 <= l_index v)); [| lia].
    rewrite wr_in_bounds by lia. rewrite bind_Ok. eexists. split; [reflexivity |].
    split; [split; simpl; [rewrite length_insert |]; assumption |].
    split; [| intros; lia]. intros _. simpl.
    repeat split. apply list_lookup_insert_eq. lia.
  - destruct (decide (0 <= l_index v - 32)); [| lia].
    rewrite wr_in_bounds by lia. rewrite bind_Ok. eexists. split; [reflexivity |].
    split; [split; simpl; [| rewrite length_insert]; assumption |].
    split; [intros; lia |]. intros _. simpl.
    repeat split. apply list_lookup_insert_eq. lia.
Qed.

(** The store for an index outside the tables writes outside an array. *)
Lemma store_angles_out_of_range (v : locals F) (cal : calibration F) :
  calibration_wf cal -> l_index v < 0 \/ 64 <= l_index v ->
  store_angles v cal = Fault OutOfBounds.
Proof.
  intros [Hl Hu] Hidx. unfold store_angles, wr_int, wr.
  destruct (decide (l_index v < 32)).
  - destruct (decide (0 <= l_index v)); [lia | reflexivity].
  - destruct (decide (0 <= l_index v - 32)); [| lia].
    destruct (decide _); [lia | reflexivity].
Qed.

(** A recognized line whose index no bank holds makes the loop body write
    outside the arrays. *)
Lemma config_line_out_of_range (buffer : list ascii) (v v' : locals F)
    (cal : calibration F) :
  calibration_wf cal -> data_line buffer v = (true, v') ->
  l_index v' < 0 \/ 64 <= l_index v' ->
  config_line buffer v cal = Fault OutOfBounds.
Proof.
  intros Hcal Hd Hidx.
  rewrite (config_line_data buffer v v' cal Hd).
  rewrite (store_angles_out_of_range v' cal Hcal Hidx). reflexivity.
Qed.

End LineFacts.

Section GateFacts.
Context {F : Type} {Farith : FloatArith F} {Flib : FloatLib F}
  {Fres : Resolutions F}.
Variable ros_ok : nat -> bool.

Lemma processScan_gated (k : klass) (this : RawData F) (scanMsg : VelodyneScan) :
  uninitialized_ this = true ->
  processScan ros_ok k this scanMsg = Ok (gated this scanMsg).
Proof.
  intros Hu. unfold processScan, gated. cbv zeta. cbn [uninitialized_].
  rewrite Hu. reflexivity.
Qed.

Lemma call_ros_ok_flag (this : RawData F) :
  uninitialized_ (call_ros_ok ros_ok this).2 = uninitialized_ this.
Proof. reflexivity. Qed.

Lemma Scans_processPacket_flag (this this' : RawData F) (pkt : VelodynePacket)
    (frame : string) :
  Scans_processPacket ros_ok this pkt frame = Ok this' ->
  uninitialized_ this' = uninitialized_ this.
Proof.
  unfold Scans_processPacket. intros Hp.
  apply bind_Ok_inv in Hp as (scans & _ & Hp). simpl in Hp.
  destruct (ros_ok _); simpl in Hp; [destruct (scans_cb_ this) |];
    injection Hp as <-; reflexivity.
Qed.

Lemma XYZ_processPacket_flag (this this' : RawData F) (pkt : VelodynePacket)
    (frame : string) :
  XYZ_processPacket ros_ok this pkt frame = Ok this' ->
  uninitialized_ this' = uninitialized_ this.
Proof.
  unfold XYZ_processPacket. intros Hp.
  apply bind_Ok_inv in Hp as (this1 & H1 & Hp).
  apply Scans_processPacket_flag in H1.
  apply bind_Ok_inv in Hp as (points & _ & Hp). simpl in Hp.
  destruct (ros_ok _); simpl in Hp; [destruct (xyz_cb_ this1) |];
    injection Hp as <-; exact H1.
Qed.

Lemma process_packets_flag (k : klass) (frame : string) :
  forall (pkts : list VelodynePacket) (this this' : RawData F),
    process_packets ros_ok k pkts frame this = Ok this' ->
    uninitialized_ this' = uninitialized_ this.
Proof.
  induction pkts as [|pkt pkts IH]; intros this this' Hp; simpl in Hp.
  - injection Hp as <-. reflexivity.
  - destruct (ros_ok (ok_calls this)); simpl in Hp.
    + apply bind_Ok_inv in Hp as (this1 & H1 & Hp).
      apply IH in Hp. rewrite Hp.
      destruct k; simpl in H1;
        [apply Scans_processPacket_flag in H1 | apply XYZ_processPacket_flag in H1];
        exact H1.
    + injection Hp as <-. reflexivity.
Qed.

(** No call sets [uninitialized_] once it is cleared. *)
Lemma do_call_ready (k : klass) (this this' : RawData F) (c : call) :
  uninitialized_ this = false -> do_call ros_ok k this c = Ok this' ->
  uninitialized_ this' = false.
Proof.
  intros Hu Hc. destruct c as [[content|] | scanMsg]; simpl in Hc.
  - apply bind_Ok_inv in Hc as ([rc this1] & Hs & Hc). injection Hc as <-.
    now apply setup_opened in Hs.
  - injection Hc as <-. exact Hu.
  - unfold processScan in Hc. cbv zeta in Hc. cbn [uninitialized_] in Hc.
    rewrite Hu in Hc.
    apply process_packets_flag in Hc. rewrite Hc. reflexivity.
Qed.

Lemma do_calls_ready (k : klass) :
  forall (cs : list call) (this this' : RawData F),
    uninitialized_ this = false -> do_calls ros_ok k this cs = Ok this' ->
    uninitialized_ this' = false.
Proof.
  induction cs as [|c cs IH]; intros this this' Hu Hc; simpl in Hc.
  - injection Hc as <-. exact Hu.
  - apply bind_Ok_inv in Hc as (this1 & H1 & Hc).
    eapply IH; [| exact Hc]. eapply do_call_ready; eassumption.
Qed.

(** Calls that load nothing leave an uninitialized object as it is, but for
    the saved message pointer. *)
Lemma do_calls_gated (k : klass) :
  forall (cs : list call) (this : RawData F),
    uninitialized_ this = true -> forallb loads_nothing cs = true ->
    exists this',
      do_calls ros_ok k this cs = Ok this' /\
      uninitialized_ this' = true /\
      angles_ this' = angles_ this /\
      scans_ this' = scans_ this /\ xyzScans_ this' = xyzScans_ this /\
      scans_cb_ this' = scans_cb_ this /\ xyz_cb_ this' = xyz_cb_ this /\
      ok_calls this' = ok_calls this /\
      scans_sent this' = scans_sent this /\ xyz_sent this' = xyz_sent this.
Proof.
  induction cs as [|c cs IH]; intros this Hu Hcs.
  - exists this. simpl. auto 12.
  - simpl in Hcs. apply andb_true_iff in Hcs as [Hc Hcs].
    destruct c as [[content|] | scanMsg]; simpl in Hc; [discriminate | |].
    + simpl. apply IH; assumption.
    + simpl. rewrite (processScan_gated k this scanMsg Hu), bind_Ok.
      destruct (IH (gated this scanMsg) Hu Hcs) as (this' & Hrun & Hrest).
      exists this'. split; [exact Hrun | exact Hrest].
Qed.

(** The per-packet path: no check of the buffer length precedes the
    decoding. *)
Lemma Scans_processPacket_spec (this : RawData F) (pkt : VelodynePacket)
    (frame : string) :
  (bytes_read <= length (data pkt))%nat -> calibration_wf (angles_ this) ->
  exists out,
    packet2scans (angles_ this) (data pkt)
      (resize SCANS_PER_PACKET zero_scan (scans_ this)) = Ok out /\
    length out = SCANS_PER_PACKET /\
    (forall i j, (i < BLOCKS_PER_PACKET)%nat -> (j < SCANS_PER_BLOCK)%nat ->
       exists e, packet_entry (angles_ this) (data pkt) i j = Ok e /\
                 out !! (i * SCANS_PER_BLOCK + j)%nat = Some e) /\
    Scans_processPacket ros_ok this pkt frame =
      Ok (let this1 := (call_ros_ok ros_ok (with_scans this out)).2 in
          if ros_ok (ok_calls this) && scans_cb_ this
          then send_scans this1 (stamp pkt) frame else this1).
Proof.
  intros Hraw Hcal.
  destruct (packet2scans_spec (angles_ this) (data pkt)
              (resize SCANS_PER_PACKET zero_scan (scans_ this)) Hraw Hcal)
    as (out & Hrun & Hlen & Hentries & _).
  { rewrite length_resize. lia. }
  rewrite length_resize in Hlen.
  exists out. split; [exact Hrun |]. split; [exact Hlen |].
  split; [exact Hentries |].
  unfold Scans_processPacket. simpl. rewrite Hrun, bind_Ok. simpl.
  destruct (ros_ok (ok_calls this)); simpl; [| reflexivity].
  destruct (scans_cb_ this); reflexivity.
Qed.

End GateFacts.

Lemma spec_float_eqb_eq (a b : spec_float) : spec_float_eqb a b = true -> a = b.
Proof.
  destruct a as [s|s| |s m e], b as [t|t| |t m' e']; simpl; try discriminate.
  - intros Hs. apply Bool.eqb_prop in Hs. congruence.
  - intros Hs. apply Bool.eqb_prop in Hs. congruence.
  - reflexivity.
  - intros Hs. apply andb_true_iff in Hs as [Hs He].
    apply andb_true_iff in Hs as [Hs Hm].
    apply Bool.eqb_prop in Hs. apply Pos.eqb_eq in Hm. apply Z.eqb_eq in He.
    congruence.
Qed.

Lemma all_below_spec (P : Z -> bool) :
  forall (bits : nat) (prefix : Z),
    all_below bits prefix P = true ->
    forall n, prefix * 2 ^ Z.of_nat bits <= n < (prefix + 1) * 2 ^ Z.of_nat bits ->
              P n = true.
Proof.
  induction bits as [|bits IH]; intros prefix Hall n Hn.
  - simpl in Hn. replace n with prefix by lia. exact Hall.
  - simpl in Hall. apply andb_true_iff in Hall as [H0 H1].
    rewrite Nat2Z.inj_succ, Z.pow_succ_r in Hn by lia.
    destruct (Z_lt_le_dec n ((2 * prefix + 1) * 2 ^ Z.of_nat bits)).
    + apply (IH _ H0). lia.
    + apply (IH _ H1). lia.
Qed.

(** With the identity correction (0, 1, 0) the computed range is the
    uncorrected one, bit for bit, for each of the 65536 raw values. *)
Lemma identity_exact_all : all_below 16 0 identity_exact = true.
Proof. vm_compute. reflexivity. Qed.

Lemma binary32_identity_range (c : correction_angles spec_float) (units : Z) :
  0 <= units < 65536 ->
  offset1 c = S754_zero false -> offset2 c = binary32_one ->
  offset3 c = S754_zero false ->
  corrected_range c units = fmul (of_int units) DISTANCE_RESOLUTION.
Proof.
  intros Hu H1 H2 H3.
  pose proof (all_below_spec identity_exact 16 0 identity_exact_all units
                ltac:(simpl; lia)) as Hex.
  apply spec_float_eqb_eq in Hex. rewrite <- Hex.
  unfold corrected_range. rewrite H1, H2, H3. reflexivity.
Qed.

(** A successful getline consumes at least one character. *)
Lemma getline_chars_length :
  forall (s : list ascii) (room : nat) (buf rest : list ascii) (failed : bool),
    getline_chars room s = (buf, rest, failed) ->
    (length rest <= length s)%nat /\
    (failed = false -> s <> [] -> length rest < length s)%nat.
Proof.
  induction s as [|c s IH]; intros room buf rest failed Hg; simpl in Hg.
  - injection Hg as <- <- <-. split; [reflexivity | congruence].
  - destruct (Ascii.eqb c "010").
    + injection Hg as <- <- <-. simpl. split; [lia | intros; lia].
    + destruct room as [|room].
      * injection Hg as <- <- <-. split; [reflexivity | discriminate].
      * destruct (getline_chars room s) as [[buf' rest'] failed'] eqn:Hrec.
        injection Hg as <- <- <-.
        destruct (IH room buf' rest' failed' Hrec) as [Hle _].
        simpl. split; [lia | intros; lia].
Qed.

Lemma getline_shorter (n : nat) (s buf rest : list ascii) :
  getline n s = Some (buf, rest) -> (length rest < length s)%nat.
Proof.
  unfold getline. destruct s as [|c s]; [discriminate |].
  destruct (getline_chars (n - 1) (c :: s)) as [[buf' rest'] failed] eqn:Hg.
  destruct failed; [discriminate |]. intros [= <- <-].
  now apply (getline_chars_length _ _ _ _ _ Hg).
Qed.

Section FuelFacts.
Context {F : Type} {Farith : FloatArith F} {Flib : FloatLib F}
  {Fres : Resolutions F}.

(** Fuel above the length of the unread text is never exhausted: the result
    of read_config does not depend on it. *)
Lemma read_config_fuel :
  forall (fuel1 fuel2 : nat) (config : list ascii) (v : locals F)
         (cal : calibration F),
    (length config < fuel1)%nat -> (length config < fuel2)%nat ->
    read_config fuel1 config v cal = read_config fuel2 config v cal.
Proof.
  induction fuel1 as [|fuel1 IH]; intros fuel2 config v cal H1 H2; [lia |].
  destruct fuel2 as [|fuel2]; [lia |]. simpl.
  destruct (getline 256 config) as [[buf rest]|] eqn:Hg; [| reflexivity].
  apply getline_shorter in Hg.
  destruct (config_line (c_str buf) v cal) as [[v' cal']|]; [| reflexivity].
  rewrite !bind_Ok. apply IH; lia.
Qed.

(** A line that is not recognized does not end the loop: reading goes on
    with the next line and the tables as they were. *)
Lemma read_config_skips_line (fuel : nat) (config buf rest : list ascii)
    (v v' : locals F) (cal : calibration F) :
  getline 256 config = Some (buf, rest) ->
  data_line (c_str buf) v = (false, v') ->
  exists v'', read_config (Datatypes.S fuel) config v cal
              = read_config fuel rest v'' cal.
Proof.
  intros Hg Hd. simpl. rewrite Hg.
  destruct (config_line_skip (c_str buf) v v' cal Hd) as (v'' & ->).
  exists v''. reflexivity.
Qed.

End FuelFacts.

(** The line of the loader example: index 5, 10 and -2 degrees, distance
    coefficients (0.1, 0.2, 0.3), enabled. *)
Example config_line_example :
  exists v cal' e,
    config_line (list_ascii_of_string "5 10.0 -2.0 0.1 0.2 0.3 1")
      locals_init example_table = Ok (v, cal') /\
    lower_ cal' !! 5%nat = Some e /\
    rotational e = (100 / 10 * PI / 180)%R /\
    vertical e = (- (20 / 10) * PI / 180)%R /\
    offset1 e = (1 / 10)%R /\ offset2 e = (2 / 10)%R /\ offset3 e = (3 / 10)%R /\
    enabled e = 1.
Proof.
  eexists _, _, _. split; [vm_compute; reflexivity |].
  split; [reflexivity |]. repeat split; reflexivity.
Qed.

Section EntryFacts.
Context {F : Type} {Farith : FloatArith F} {Flib : FloatLib F}
  {Fres : Resolutions F}.

(** Entry [i * 32 + j] of the output in terms of the bytes of the packet and
    the calibration entry of the bank the block selects. *)
Lemma packet2scans_entry (cal : calibration F) (raw : list byte)
    (scans : list (laserscan_t F)) (i j : nat) :
  (bytes_read <= length raw)%nat -> calibration_wf cal ->
  (SCANS_PER_PACKET <= length scans)%nat ->
  (i < BLOCKS_PER_PACKET)%nat -> (j < SCANS_PER_BLOCK)%nat ->
  exists out h0 h1 r0 r1 c b0 b1 b2 v0 v1,
    packet2scans cal raw scans = Ok out /\
    raw !! (i * 100)%nat = Some h0 /\
    raw !! (i * 100 + 1)%nat = Some h1 /\
    raw !! (i * 100 + 2)%nat = Some r0 /\
    raw !! (i * 100 + 2 + 1)%nat = Some r1 /\
    (select_bank cal (two_bytes_uint h0 h1)).2 !! j = Some c /\
    raw !! (i * 100 + 4 + j * 3)%nat = Some b0 /\
    raw !! (i * 100 + 4 + j * 3 + 1)%nat = Some b1 /\
    raw !! (i * 100 + 4 + j * 3 + 2)%nat = Some b2 /\
    raw !! 1200%nat = Some v0 /\ raw !! 1201%nat = Some v1 /\
    out !! (i * 32 + j)%nat
    = Some {| laser_number :=
                Z.of_nat (j + (select_bank cal (two_bytes_uint h0 h1)).1);
              heading :=
                normalize_angle
                  (fneg (fsub (rotation_of (two_bytes_uint r0 r1)) (rotational c)));
              pitch := vertical c;
              range := corrected_range c (two_bytes_uint b0 b1);
              intensity := byte_val b2;
              revolution := two_bytes_uint v0 v1 |}.
Proof.
  intros Hraw Hcal Hcap Hi Hj.
  destruct (packet2scans_spec cal raw scans Hraw Hcal Hcap)
    as (out & Hrun & _ & Hentries & _).
  destruct (Hentries i j Hi Hj) as (e & He & Hout).
  assert (Hraw' : (1201 < length raw)%nat) by (rewrite bytes_read_eq in Hraw; lia).
  destruct (rd_u16_in_bounds raw 1200 Hraw') as (v0 & v1 & Hv0 & Hv1 & Hrev).
  unfold packet_entry, packet_revolution in He.
  change (BLOCKS_PER_PACKET * SIZE_BLOCK)%nat with 1200%nat in He.
  rewrite Hrev, bind_Ok in He.
  destruct (block_entry_in_bounds cal raw (two_bytes_uint v0 v1) i j Hraw Hcal Hi Hj)
    as (h0 & h1 & r0 & r1 & c & b0 & b1 & b2 & E1 & E2 & E3 & E4 & E5 & E6 & E7 & E8 & E9).
  rewrite E9 in He. injection He as <-.
  exists out, h0, h1, r0, r1, c, b0, b1, b2, v0, v1.
  change (i * SCANS_PER_BLOCK + j)%nat with (i * 32 + j)%nat in Hout.
  auto 20.
Qed.

End EntryFacts.

(** * Properties of the decoding pipeline *)

(** C1. On a packet buffer of the expected size packet2scans returns, for
    any calibration table, having written BLOCKS_PER_PACKET *
    SCANS_PER_BLOCK = SCANS_PER_PACKET entries in block-major, slot-minor
    order: entry [i * SCANS_PER_BLOCK + j] is the one decoded from slot [j]
    of block [i], that is from the header and rotation of block [i], the
    three bytes of its slot [j] and entry [j] of the bank it selects; every
    position below SCANS_PER_PACKET holds the entry of its block and slot,
    and nothing is written past them. *)
Theorem packet2scans_block_major {F : Type} {Farith : FloatArith F}
    {Flib : FloatLib F} {Fres : Resolutions F}
    (cal : calibration F) (raw : list byte) (scans : list (laserscan_t F)) :
  length raw = PACKET_SIZE -> calibration_wf cal ->
  (SCANS_PER_PACKET <= length scans)%nat ->
  (BLOCKS_PER_PACKET * SCANS_PER_BLOCK = SCANS_PER_PACKET)%nat /\
  exists out,
    packet2scans cal raw scans = Ok out /\
    length out = length scans /\
    (forall i j, (i < BLOCKS_PER_PACKET)%nat -> (j < SCANS_PER_BLOCK)%nat ->
       exists e, packet_entry cal raw i j = Ok e /\
                 out !! (i * SCANS_PER_BLOCK + j)%nat = Some e) /\
    (forall i j, (i < BLOCKS_PER_PACKET)%nat -> (j < SCANS_PER_BLOCK)%nat ->
       exists h0 h1 r0 r1 c b0 b1 b2 v0 v1,
         raw !! (i * SIZE_BLOCK)%nat = Some h0 /\
         raw !! (i * SIZE_BLOCK + 1)%nat = Some h1 /\
         raw !! (i * SIZE_BLOCK + 2)%nat = Some r0 /\
         raw !! (i * SIZE_BLOCK + 2 + 1)%nat = Some r1 /\
         (select_bank cal (two_bytes_uint h0 h1)).2 !! j = Some c /\
         raw !! (i * SIZE_BLOCK + 4 + j * RAW_SCAN_SIZE)%nat = Some b0 /\
         raw !! (i * SIZE_BLOCK + 4 + j * RAW_SCAN_SIZE + 1)%nat = Some b1 /\
         raw !! (i * SIZE_BLOCK + 4 + j * RAW_SCAN_SIZE + 2)%nat = Some b2 /\
         raw !! (BLOCKS_PER_PACKET * SIZE_BLOCK)%nat = Some v0 /\
         raw !! (BLOCKS_PER_PACKET * SIZE_BLOCK + 1)%nat = Some v1 /\
         out !! (i * SCANS_PER_BLOCK + j)%nat
         = Some {| laser_number :=
                     Z.of_nat (j + (select_bank cal (two_bytes_uint h0 h1)).1);
                   heading :=
                     normalize_angle
                       (fneg (fsub (rotation_of (two_bytes_uint r0 r1))
                                (rotational c)));
                   pitch := vertical c;
                   range := corrected_range c (two_bytes_uint b0 b1);
                   intensity := byte_val b2;
                   revolution := two_bytes_uint v0 v1 |}) /\
    (forall p, (p < SCANS_PER_PACKET)%nat ->
       exists e, packet_entry cal raw (p / SCANS_PER_BLOCK) (p mod SCANS_PER_BLOCK)
                 = Ok e /\ out !! p = Some e) /\
    (forall p, (SCANS_PER_PACKET <= p)%nat -> out !! p = scans !! p).
Proof.
  intros Hraw Hcal Hcap. split; [reflexivity |].
  assert (Hraw' : (bytes_read <= length raw)%nat)
    by (rewrite Hraw, bytes_read_eq, PACKET_SIZE_eq; lia).
  destruct (packet2scans_spec cal raw scans Hraw' Hcal Hcap)
    as (out & Hrun & Hlen & Hent & Hrest).
  exists out. repeat (split; [assumption |]).
  split; [| split; [| exact Hrest]].
  - intros i j Hi Hj.
    destruct (packet2scans_entry cal raw scans i j Hraw' Hcal Hcap Hi Hj)
      as (out' & h0 & h1 & r0 & r1 & c & b0 & b1 & b2 & v0 & v1 & Hrun' & Hrec).
    rewrite Hrun in Hrun'. injection Hrun' as <-.
    exists h0, h1, r0, r1, c, b0, b1, b2, v0, v1. exact Hrec.
  - intros p Hp. change SCANS_PER_PACKET with 384%nat in Hp.
    change SCANS_PER_BLOCK with 32%nat in *.
    change BLOCKS_PER_PACKET with 12%nat in *.
    pose proof (Nat.div_mod_eq p 32) as Hdm.
    pose proof (Nat.mod_upper_bound p 32 ltac:(lia)) as Hm.
    destruct (Hent (p / 32)%nat (p mod 32)%nat) as (e & He & Hout); [lia | lia |].
    exists e. split; [exact He |].
    assert (Hp' : (p / 32 * 32 + p mod 32 = p)%nat) by lia.
    rewrite Hp' in Hout. exact Hout.
Qed.

Lemma packet2scans_block_major_witness :
  length example_packet = PACKET_SIZE /\ calibration_wf example_table /\
  (SCANS_PER_PACKET <= length example_scans)%nat /\
  exists out,
    packet2scans example_table example_packet example_scans = Ok out /\
    length out = length example_scans.
Proof.
  assert (H1 : length example_packet = PACKET_SIZE) by reflexivity.
  assert (H2 : calibration_wf example_table) by (split; reflexivity).
  assert (H3 : (SCANS_PER_PACKET <= length example_scans)%nat) by (vm_compute; lia).
  split; [exact H1 |]. split; [exact H2 |]. split; [exact H3 |].
  destruct (packet2scans_block_major example_table example_packet example_scans
              H1 H2 H3) as (_ & out & Hrun & Hlen & _).
  exists out. split; [exact Hrun | exact Hlen].
Defined.

(** C9. packet2scans never reads [enabled]: for two calibration tables that
    differ at most in the [enabled] fields of their entries it gives the
    same result, entry for entry, on every packet. *)
Theorem packet2scans_ignores_enabled {F : Type} {Farith : FloatArith F}
    {Flib : FloatLib F} {Fres : Resolutions F}
    (cal1 cal2 : calibration F) (raw : list byte) (scans : list (laserscan_t F)) :
  tables_same_but_enabled cal1 cal2 ->
  packet2scans cal1 raw scans = packet2scans cal2 raw scans.
Proof.
  intros Hsame. unfold packet2scans.
  destruct (packet_revolution raw) as [rev|]; [| reflexivity].
  rewrite !bind_Ok.
  rewrite (for_loop_ext (block_body cal1 raw rev) (block_body cal2 raw rev)).
  - reflexivity.
  - intros i st. apply block_body_same. exact Hsame.
Qed.

Lemma packet2scans_ignores_enabled_witness :
  tables_same_but_enabled example_table enabled_table /\
  packet2scans example_table example_packet example_scans
  = packet2scans enabled_table example_packet example_scans.
Proof.
  assert (Hs : tables_same_but_enabled example_table enabled_table).
  { split; apply Forall2_replicate; repeat split. }
  split; [exact Hs |].
  exact (packet2scans_ignores_enabled example_table enabled_table
           example_packet example_scans Hs).
Defined.

(** ** The heading in binary32 arithmetic *)


Section Binary32Heading.
Variables cosf32 sinf32 : spec_float -> spec_float.
Variable strtof32 : bool -> Z -> Z -> spec_float.




End Binary32Heading.




(** C3. The range of the entry decoded from slot [j] of block [i] is
    computed from the little-endian 16-bit value [units] of the first two
    bytes of the slot: r = units * 0.002, then offset1 * r * r + offset2 * r
    + offset3 with the coefficients of the laser.  In exact arithmetic this
    is the quadratic c0 r^2 + c1 r + c2, and units * 0.002 for the
    coefficients (0, 1, 0); in binary32 arithmetic, whatever the library
    functions do, the range for the coefficients (0, 1, 0) is bit for bit
    the product units * 0.002f. *)
Theorem range_quadratic_correction (raw : list byte) (i j : nat) :
  length raw = PACKET_SIZE ->
  (i < BLOCKS_PER_PACKET)%nat -> (j < SCANS_PER_BLOCK)%nat ->
  (forall (cal : calibration R) (scans : list (laserscan_t R)),
     calibration_wf cal -> (SCANS_PER_PACKET <= length scans)%nat ->
     exists out e h0 h1 c b0 b1,
       packet2scans cal raw scans = Ok out /\
       out !! (i * SCANS_PER_BLOCK + j)%nat = Some e /\
       raw !! (i * SIZE_BLOCK)%nat = Some h0 /\
       raw !! (i * SIZE_BLOCK + 1)%nat = Some h1 /\
       (select_bank cal (two_bytes_uint h0 h1)).2 !! j = Some c /\
       raw !! (i * SIZE_BLOCK + 4 + j * RAW_SCAN_SIZE)%nat = Some b0 /\
       raw !! (i * SIZE_BLOCK + 4 + j * RAW_SCAN_SIZE + 1)%nat = Some b1 /\
       let units := byte_val b0 + 256 * byte_val b1 in
       let r := (IZR units * (2 / 1000))%R in
       range e = (offset1 c * r ^ 2 + offset2 c * r + offset3 c)%R /\
       (offset1 c = 0%R -> offset2 c = 1%R -> offset3 c = 0%R ->
        range e = (IZR units * (2 / 1000))%R)) /\
  (forall (lib : FloatLib spec_float) (cal : calibration spec_float)
          (scans : list (laserscan_t spec_float)),
     calibration_wf cal -> (SCANS_PER_PACKET <= length scans)%nat ->
     exists out e h0 h1 c b0 b1,
       packet2scans cal raw scans = Ok out /\
       out !! (i * SCANS_PER_BLOCK + j)%nat = Some e /\
       raw !! (i * SIZE_BLOCK)%nat = Some h0 /\
       raw !! (i * SIZE_BLOCK + 1)%nat = Some h1 /\
       (select_bank cal (two_bytes_uint h0 h1)).2 !! j = Some c /\
       raw !! (i * SIZE_BLOCK + 4 + j * RAW_SCAN_SIZE)%nat = Some b0 /\
       raw !! (i * SIZE_BLOCK + 4 + j * RAW_SCAN_SIZE + 1)%nat = Some b1 /\
       let units := byte_val b0 + 256 * byte_val b1 in
       let r := fmul (of_int units) DISTANCE_RESOLUTION in
       range e = fadd (fadd (fmul (fmul (offset1 c) r) r) (fmul (offset2 c) r))
                   (offset3 c) /\
       (offset1 c = S754_zero false -> offset2 c = binary32_one ->
        offset3 c = S754_zero false ->
        range e = fmul (of_int units) DISTANCE_RESOLUTION)).
Proof.
  intros Hraw Hi Hj.
  assert (Hraw' : (bytes_read <= length raw)%nat)
    by (rewrite Hraw, bytes_read_eq, PACKET_SIZE_eq; lia).
  rewrite SIZE_BLOCK_eq. change RAW_SCAN_SIZE with 3%nat.
  split.
  - intros cal scans Hcal Hcap.
    destruct (packet2scans_entry cal raw scans i j Hraw' Hcal Hcap Hi Hj)
      as (out & h0 & h1 & r0 & r1 & c & b0 & b1 & b2 & v0 & v1 & Hrun & E1 & E2
          & _ & _ & E5 & E6 & E7 & _ & _ & _ & Hout).
    eexists out, _, h0, h1, c, b0, b1.
    split; [exact Hrun |]. split; [exact Hout |].
    repeat (split; [assumption |]). cbv zeta. cbn [range].
    unfold corrected_range, two_bytes_uint. simpl.
    split; [ring |]. intros -> -> ->. ring.
  - intros lib cal scans Hcal Hcap.
    destruct (packet2scans_entry cal raw scans i j Hraw' Hcal Hcap Hi Hj)
      as (out & h0 & h1 & r0 & r1 & c & b0 & b1 & b2 & v0 & v1 & Hrun & E1 & E2
          & _ & _ & E5 & E6 & E7 & _ & _ & _ & Hout).
    eexists out, _, h0, h1, c, b0, b1.
    split; [exact Hrun |]. split; [exact Hout |].
    repeat (split; [assumption |]). cbv zeta. cbn [range].
    split; [reflexivity |]. intros H1 H2 H3.
    apply binary32_identity_range; try assumption.
    apply two_bytes_uint_range.
Qed.

Lemma range_quadratic_correction_witness :
  length example_packet = PACKET_SIZE /\
  (11 < BLOCKS_PER_PACKET)%nat /\ (31 < SCANS_PER_BLOCK)%nat /\
  (exists out e,
     packet2scans example_table example_packet example_scans = Ok out /\
     out !! 383%nat = Some e /\ range e = 0%R) /\
  (forall lib : FloatLib spec_float,
   exists out e,
     packet2scans example_table32 example_packet example_scans32 = Ok out /\
     out !! 383%nat = Some e /\ range e = S754_zero false).
Proof.
  assert (H1 : length example_packet = PACKET_SIZE) by reflexivity.
  assert (H4 : (11 < BLOCKS_PER_PACKET)%nat) by (vm_compute; lia).
  assert (H5 : (31 < SCANS_PER_BLOCK)%nat) by (vm_compute; lia).
  repeat (split; [assumption |]).
  destruct (range_quadratic_correction example_packet 11 31 H1 H4 H5) as [Hr Hb].
  split.
  - destruct (Hr example_table example_scans)
      as (out & e & h0 & h1 & c & b0 & b1 & Hrun & Hout & _ & _ & Hc & Hb0 & Hb1 & Hq & _).
    { split; reflexivity. }
    { vm_compute. lia. }
    exists out, e. split; [exact Hrun |]. split; [exact Hout |].
    injection Hb0 as <-. injection Hb1 as <-.
    assert (c = zero_angles) as ->
      by (unfold select_bank in Hc; destruct (decide _); simpl in Hc; congruence).
    rewrite Hq. simpl. ring.
  - intros lib. destruct (Hb lib example_table32 example_scans32)
      as (out & e & h0 & h1 & c & b0 & b1 & Hrun & Hout & _ & _ & Hc & Hb0 & Hb1 & _ & Hid).
    { split; reflexivity. }
    { vm_compute. lia. }
    exists out, e. split; [exact Hrun |]. split; [exact Hout |].
    injection Hb0 as <-. injection Hb1 as <-.
    assert (c = identity_angles) as ->
      by (unfold select_bank in Hc; destruct (decide _); simpl in Hc; congruence).
    rewrite Hid; reflexivity.
Defined.





(** C4 (amended). For a recognized data line whose index lies in [0, 64) the
    loop body returns, having stored the entry built from the line, with
    rotational and vertical passed through from_degrees, in the lower bank
    at [index] when index < 32 and in the upper bank at [index - 32]
    otherwise; the other bank is untouched. *)
Theorem config_line_routes_by_index {F : Type} {Flib : FloatLib F}
    (buffer : list ascii) (v v' : locals F) (cal : calibration F) :
  calibration_wf cal -> data_line buffer v = (true, v') ->
  0 <= l_index v' < 64 ->
  exists cal',
    config_line buffer v cal = Ok (v', cal') /\
    calibration_wf cal' /\
    rotational (angles_entry v') = from_degrees (l_rotational v') /\
    vertical (angles_entry v') = from_degrees (l_vertical v') /\
    (l_index v' < 32 ->
       lower_ cal' = <[Z.to_nat (l_index v') := angles_entry v']> (lower_ cal) /\
       upper_ cal' = upper_ cal /\
       lower_ cal' !! Z.to_nat (l_index v') = Some (angles_entry v')) /\
    (32 <= l_index v' ->
       upper_ cal' = <[Z.to_nat (l_index v' - 32) := angles_entry v']> (upper_ cal) /\
       lower_ cal' = lower_ cal /\
       upper_ cal' !! Z.to_nat (l_index v' - 32) = Some (angles_entry v')).
Proof.
  intros Hcal Hd Hidx.
  destruct (store_angles_in_range v' cal Hcal Hidx) as (cal' & Hs & Hwf & Hlo & Hup).
  exists cal'. rewrite (config_line_data buffer v v' cal Hd), Hs, bind_Ok.
  auto 10.
Qed.

Lemma config_line_routes_by_index_witness :
  calibration_wf example_table /\
  exists v' cal',
    data_line line_index_40 locals_init = (true, v') /\
    0 <= l_index v' < 64 /\ l_index v' = 40 /\
    config_line line_index_40 locals_init example_table = Ok (v', cal') /\
    lower_ cal' = lower_ example_table /\
    upper_ cal' !! 8%nat = Some (angles_entry v') /\
    rotational (angles_entry v') = (15 / 10 * PI / 180)%R.
Proof.
  assert (Hcal : calibration_wf example_table) by (split; reflexivity).
  split; [exact Hcal |].
  destruct (data_line line_index_40 (locals_init (F := R))) as [matched v'] eqn:Hd.
  assert (Hm : matched = true) by (vm_compute in Hd; congruence). subst matched.
  assert (Hi : l_index v' = 40) by (vm_compute in Hd; injection Hd as <-; reflexivity).
  assert (Hr : l_rotational v' = (15 / 10)%R).
  { vm_compute in Hd. injection Hd as <-. cbn [l_rotational]. reflexivity. }
  assert (Hrange : 0 <= l_index v' < 64) by lia.
  destruct (config_line_routes_by_index line_index_40 locals_init v' example_table
              Hcal Hd Hrange) as (cal' & Hrun & _ & Hrot & _ & _ & Hup).
  destruct (Hup ltac:(lia)) as (_ & Hlow & Hlook).
  exists v', cal'. split; [reflexivity |]. split; [exact Hrange |].
  split; [exact Hi |]. split; [exact Hrun |]. split; [exact Hlow |].
  split; [rewrite Hi in Hlook; exact Hlook |].
  rewrite Hrot, Hr. reflexivity.
Defined.

(** C4, as stated, fails on the line "64 0 0 0 0 0 1": it is recognized, its
    index is 64, and the store addresses entry 32 of the 32-entry upper
    bank. *)
Lemma index_64_written_out_of_bounds :
  calibration_wf example_table /\
  (exists v', data_line line_index_64 (locals_init (F := R)) = (true, v') /\
              l_index v' = 64) /\
  config_line line_index_64 locals_init example_table = Fault OutOfBounds.
Proof.
  split; [split; reflexivity |]. split.
  - eexists. split; [vm_compute; reflexivity | reflexivity].
  - vm_compute. reflexivity.
Qed.

(** C6. The line "5 10.0 -2.0 0.1 0.2 0.3 0.5 0.6 1" is a well-formed
    9-field line: scanned with the 9-field format alone it gives vertCorr =
    0.5, horzCorr = 0.6 and enabled = 1.  The first sscanf nevertheless
    returns 7 on it, its last [%d] reading the [0] of [0.5], so the loop body
    stores the entry of the 7-field reading: enabled = 0, and vertCorr and
    horzCorr as they were before the line. *)
Theorem nine_field_line_read_as_seven_fields :
  (exists v9,
     sscanf line_nine_fields format9 (locals_init (F := R)) = (9, v9) /\
     l_vertCorr v9 = (5 / 10)%R /\ l_horzCorr v9 = (6 / 10)%R /\
     l_enabled v9 = 1) /\
  (exists v7,
     sscanf line_nine_fields format7 (locals_init (F := R)) = (7, v7) /\
     l_enabled v7 = 0) /\
  exists v cal' e,
    config_line line_nine_fields locals_init example_table = Ok (v, cal') /\
    lower_ cal' !! 5%nat = Some e /\
    enabled e = 0 /\ vertCorr e = 0%R /\ horzCorr e = 0%R.
Proof.
  split; [| split].
  - eexists. split; [vm_compute; reflexivity |]. repeat split; reflexivity.
  - eexists. split; [vm_compute; reflexivity |]. reflexivity.
  - eexists _, _, _. split; [vm_compute; reflexivity |].
    split; [reflexivity |]. repeat split; reflexivity.
Qed.

(** X20. While [uninitialized_] is set, processScan returns at once: it saves
    the message pointer and nothing else, decodes no packet, does not call
    ros::ok(), invokes no callback and does not fault; so does any sequence
    of processScan calls and of setup calls whose file cannot be opened.  A
    setup whose file could be opened returns 0 with [uninitialized_]
    cleared, and once it is cleared no sequence of calls sets it again. *)
Theorem uninitialized_gate {F : Type} {Farith : FloatArith F}
    {Flib : FloatLib F} {Fres : Resolutions F}
    (ros_ok : nat -> bool) (k : klass) (this : RawData F) :
  (uninitialized_ this = true ->
   forall scanMsg, processScan ros_ok k this scanMsg = Ok (gated this scanMsg)) /\
  (uninitialized_ this = true ->
   forall cs, forallb loads_nothing cs = true ->
     exists this',
       do_calls ros_ok k this cs = Ok this' /\
       uninitialized_ this' = true /\
       angles_ this' = angles_ this /\
       scans_ this' = scans_ this /\ xyzScans_ this' = xyzScans_ this /\
       ok_calls this' = ok_calls this /\
       scans_sent this' = scans_sent this /\ xyz_sent this' = xyz_sent this) /\
  (forall content rc this',
     setup this (Some content) = Ok (rc, this') ->
     rc = 0 /\ uninitialized_ this' = false) /\
  (uninitialized_ this = false ->
   forall cs this', do_calls ros_ok k this cs = Ok this' ->
                    uninitialized_ this' = false).
Proof.
  split; [| split; [| split]].
  - intros Hu scanMsg. now apply processScan_gated.
  - intros Hu cs Hcs.
    destruct (do_calls_gated ros_ok k cs this Hu Hcs)
      as (this' & Hrun & H1 & H2 & H3 & H4 & _ & _ & H5 & H6 & H7).
    exists this'. auto 10.
  - intros content rc this' Hs. apply setup_opened in Hs. tauto.
  - intros Hu cs this' Hrun. eapply do_calls_ready; eassumption.
Qed.

Lemma uninitialized_gate_witness :
  uninitialized_ example_object = true /\
  forallb loads_nothing
    [call_processScan example_msg; call_setup None; call_processScan example_msg]
  = true /\
  exists this',
    do_calls always_ok RawDataXYZ example_object
      [call_processScan example_msg; call_setup None; call_processScan example_msg]
    = Ok this' /\
    scans_ this' = [] /\ xyzScans_ this' = [] /\ ok_calls this' = 0%nat /\
    scans_sent this' = [] /\ xyz_sent this' = [].
Proof.
  assert (Hu : uninitialized_ example_object = true) by reflexivity.
  split; [exact Hu |]. split; [reflexivity |].
  destruct (uninitialized_gate always_ok RawDataXYZ example_object) as (_ & Hg & _).
  destruct (Hg Hu [call_processScan example_msg; call_setup None;
                   call_processScan example_msg] eq_refl)
    as (this' & Hrun & _ & _ & H3 & H4 & H5 & H6 & H7).
  exists this'. split; [exact Hrun |]. auto.
Defined.

(** X19. RawDataScans::processPacket has no error outcome of its own: every
    packet that holds the 1202 bytes packet2scans reads is decoded into the
    SCANS_PER_PACKET entries of [scans_], entry [i * 32 + j] from slot [j]
    of block [i], and they are handed to the callback when one is set and
    ros::ok() holds. *)
Theorem Scans_processPacket_decodes {F : Type} {Farith : FloatArith F}
    {Flib : FloatLib F} {Fres : Resolutions F}
    (ros_ok : nat -> bool) (this : RawData F) (pkt : VelodynePacket)
    (frame : string) :
  (bytes_read <= length (data pkt))%nat -> calibration_wf (angles_ this) ->
  exists this',
    Scans_processPacket ros_ok this pkt frame = Ok this' /\
    length (scans_ this') = SCANS_PER_PACKET /\
    (forall i j, (i < BLOCKS_PER_PACKET)%nat -> (j < SCANS_PER_BLOCK)%nat ->
       exists e, packet_entry (angles_ this) (data pkt) i j = Ok e /\
                 scans_ this' !! (i * SCANS_PER_BLOCK + j)%nat = Some e) /\
    (ros_ok (ok_calls this) = true -> scans_cb_ this = true ->
     scans_sent this' = scans_sent this ++ [(scans_ this', stamp pkt, frame)]).
Proof.
  intros Hraw Hcal.
  destruct (Scans_processPacket_spec ros_ok this pkt frame Hraw Hcal)
    as (out & _ & Hlen & Hent & Hrun).
  eexists. split; [exact Hrun |].
  destruct (ros_ok (ok_calls this)), (scans_cb_ this); simpl;
    (split; [exact Hlen |]); (split; [exact Hent |]);
    intros; try discriminate; reflexivity.
Qed.

Lemma Scans_processPacket_decodes_witness :
  (bytes_read <= length (data (mk_packet 0 example_packet)))%nat /\
  calibration_wf (angles_ example_object) /\
  exists this',
    Scans_processPacket always_ok example_object (mk_packet 0 example_packet)
      "velodyne"
    = Ok this' /\
    length (scans_ this') = SCANS_PER_PACKET /\
    scans_sent this' = [(scans_ this', 0, "velodyne")].
Proof.
  assert (H1 : (bytes_read <= length (data (mk_packet 0 example_packet)))%nat)
    by (vm_compute; lia).
  assert (H2 : calibration_wf (angles_ example_object)) by (split; reflexivity).
  split; [exact H1 |]. split; [exact H2 |].
  destruct (Scans_processPacket_decodes always_ok example_object
              (mk_packet 0 example_packet) "velodyne" H1 H2)
    as (this' & Hrun & Hlen & _ & Hsent).
  exists this'. split; [exact Hrun |]. split; [exact Hlen |].
  exact (Hsent eq_refl eq_refl).
Defined.

(** C10. When a line of 256 or more characters follows complete lines, setup
    gives exactly the result it gives on the text before that line: the line
    and everything after it are not read; and whenever setup returns on a
    file that could be opened it returns 0 with [uninitialized_] cleared. *)
Theorem overlong_line_ends_loading {F : Type} {Farith : FloatArith F}
    {Flib : FloatLib F}
    (this : RawData F) (pre tail : list ascii) :
  complete_lines pre -> (256 <= length tail)%nat ->
  Forall (fun c => c <> newline) (take 256 tail) ->
  setup this (Some (pre ++ tail)) = setup this (Some pre) /\
  (forall rc this', setup this (Some (pre ++ tail)) = Ok (rc, this') ->
                    rc = 0 /\ uninitialized_ this' = false).
Proof.
  intros Hpre Hlen Hnl. split.
  - unfold setup.
    rewrite (read_config_stops tail Hlen Hnl (Datatypes.S (length pre))
               (Datatypes.S (length (pre ++ tail))) pre locals_init (angles_ this));
      [reflexivity | lia | lia | exact Hpre].
  - intros rc this' Hs. apply setup_opened in Hs. tauto.
Qed.

Lemma overlong_line_ends_loading_witness :
  complete_lines file_head /\ (256 <= length file_tail)%nat /\
  Forall (fun c => c <> newline) (take 256 file_tail) /\
  setup example_object (Some (file_head ++ file_tail))
  = setup example_object (Some file_head) /\
  exists this',
    setup example_object (Some (file_head ++ file_tail)) = Ok (0, this') /\
    uninitialized_ this' = false /\
    lower_ (angles_ this') !! 6%nat = Some zero_angles.
Proof.
  assert (H1 : complete_lines file_head) by (right; reflexivity).
  assert (H2 : (256 <= length file_tail)%nat) by (vm_compute; lia).
  assert (H3 : Forall (fun c => c <> newline) (take 256 file_tail)).
  { apply Forall_forall. intros c Hc. apply list_elem_of_In in Hc.
    change (take 256 file_tail) with (repeat "x"%char 256) in Hc.
    apply repeat_spec in Hc. subst c. discriminate. }
  repeat (split; [assumption |]).
  destruct (overlong_line_ends_loading example_object file_head file_tail H1 H2 H3)
    as [Heq Hok].
  split; [exact Heq |]. rewrite Heq.
  eexists. split; [vm_compute; reflexivity |]. split; reflexivity.
Defined.

(** * Further properties of the code *)

(** ** Faults of the decoder *)

Lemma oob_Ok {A} (a : A) : faults_out_of_bounds (Ok a).
Proof. intros f Hf. discriminate. Qed.

Lemma oob_Fault {A} : faults_out_of_bounds (Fault (A := A) OutOfBounds).
Proof. intros f Hf. congruence. Qed.

Lemma oob_bind {A B} (m : Res A) (k : A -> Res B) :
  faults_out_of_bounds m -> (forall a, faults_out_of_bounds (k a)) ->
  faults_out_of_bounds (m ≫= k).
Proof.
  intros Hm Hk. destruct m as [a|f]; simpl; [apply Hk |].
  intros f' Hf'. injection Hf' as <-. now apply Hm.
Qed.

Lemma oob_rd {A} (a : list A) (i : nat) : faults_out_of_bounds (rd a i).
Proof. unfold rd. destruct (a !! i); [apply oob_Ok | apply oob_Fault]. Qed.

Lemma oob_wr {A} (a : list A) (i : nat) (v : A) : faults_out_of_bounds (wr a i v).
Proof. unfold wr. destruct (decide _); [apply oob_Ok | apply oob_Fault]. Qed.

Lemma oob_rd_u16 (raw : list byte) (off : nat) :
  faults_out_of_bounds (rd_u16 raw off).
Proof.
  unfold rd_u16. apply oob_bind; [apply oob_rd |]. intros b0.
  apply oob_bind; [apply oob_rd |]. intros b1. apply oob_Ok.
Qed.

Lemma oob_block_data (raw : list byte) (i k : nat) :
  faults_out_of_bounds (block_data raw i k).
Proof.
  unfold block_data. destruct (decide _); [apply oob_rd | apply oob_Fault].
Qed.

Lemma oob_for_loop {S} (body : nat -> S -> Res S) :
  (forall i s, faults_out_of_bounds (body i s)) ->
  forall count start s, faults_out_of_bounds (for_loop count start body s).
Proof.
  intros Hb. induction count as [|count IH]; intros start s; simpl.
  - apply oob_Ok.
  - apply oob_bind; [apply Hb |]. intros s'. apply IH.
Qed.

(** What a loop that returns has established, when each iteration that
    returns preserves [P]. *)
Lemma for_loop_returned {S} (P : nat -> S -> Prop) (body : nat -> S -> Res S) :
  forall (count start : nat) (s s' : S),
    P start s ->
    (forall i s0 s1, (start <= i < start + count)%nat -> P i s0 ->
                     body i s0 = Ok s1 -> P (Datatypes.S i) s1) ->
    for_loop count start body s = Ok s' -> P (start + count)%nat s'.
Proof.
  induction count as [|count IH]; intros start s s' HP Hstep Hrun; simpl in Hrun.
  - injection Hrun as <-. rewrite Nat.add_0_r. exact HP.
  - apply bind_Ok_inv in Hrun as (s1 & Hb & Hrun).
    replace (start + Datatypes.S count)%nat
      with (Datatypes.S start + count)%nat by lia.
    apply (IH (Datatypes.S start) s1 s'); [| | exact Hrun].
    + apply (Hstep start s s1); [lia | exact HP | exact Hb].
    + intros i s0 s2 Hi. apply Hstep. lia.
Qed.

(** Loops whose bodies agree on the indices visited are equal. *)
Lemma for_loop_ext_range {S} (body1 body2 : nat -> S -> Res S) :
  forall count start s,
    (forall i s0, (start <= i < start + count)%nat -> body1 i s0 = body2 i s0) ->
    for_loop count start body1 s = for_loop count start body2 s.
Proof.
  induction count as [|count IH]; intros start s Hb; simpl.
  - reflexivity.
  - rewrite Hb by lia. destruct (body2 start s) as [s'|]; simpl; [| reflexivity].
    apply IH. intros i s0 Hi. apply Hb. lia.
Qed.

Section DecoderFaults.
Context {F : Type} {Farith : FloatArith F} {Flib : FloatLib F}
  {Fres : Resolutions F}.

Lemma oob_decode_slot (raw : list byte) (corrections : list (correction_angles F))
    (bank_origin : nat) (rotation : F) (rev : Z) (i j k : nat) :
  faults_out_of_bounds (decode_slot raw corrections bank_origin rotation rev i j k).
Proof.
  unfold decode_slot.
  apply oob_bind; [apply oob_rd |]. intros c.
  apply oob_bind; [apply oob_block_data |]. intros b0.
  apply oob_bind; [apply oob_block_data |]. intros b1.
  apply oob_bind; [apply oob_block_data |]. intros b2. apply oob_Ok.
Qed.

Lemma oob_slot_body (raw : list byte) (corrections : list (correction_angles F))
    (bank_origin : nat) (rotation : F) (rev : Z) (i j : nat)
    (st : nat * nat * list (laserscan_t F)) :
  faults_out_of_bounds (slot_body raw corrections bank_origin rotation rev i j st).
Proof.
  destruct st as [[k index] sc]. unfold slot_body.
  apply oob_bind; [apply oob_decode_slot |]. intros e.
  apply oob_bind; [apply oob_wr |]. intros sc'. apply oob_Ok.
Qed.

Lemma oob_block_body (cal : calibration F) (raw : list byte) (rev : Z) (i : nat)
    (st : nat * list (laserscan_t F)) :
  faults_out_of_bounds (block_body cal raw rev i st).
Proof.
  destruct st as [index sc]. unfold block_body, block_header, block_rotation.
  apply oob_bind; [apply oob_rd_u16 |]. intros header.
  destruct (select_bank cal header) as [bo corr].
  apply oob_bind; [apply oob_rd_u16 |]. intros units.
  apply oob_bind; [apply oob_for_loop; intros; apply oob_slot_body |].
  intros [[k index'] sc']. apply oob_Ok.
Qed.

(** The inner loop advances [index] by one per slot and keeps the length of
    the array; a loop that returned has written below its final index. *)
Lemma slot_loop_returned (raw : list byte) (corrections : list (correction_angles F))
    (bank_origin : nat) (rotation : F) (rev : Z) (i index0 : nat)
    (scans : list (laserscan_t F)) (k index : nat) (scans' : list (laserscan_t F)) :
  for_loop SCANS_PER_BLOCK 0
    (slot_body raw corrections bank_origin rotation rev i)
    (0%nat, index0, scans) = Ok (k, index, scans') ->
  index = (index0 + 32)%nat /\ length scans' = length scans /\
  (index <= length scans)%nat.
Proof.
  intros Hrun.
  pose (P := fun (j : nat) (st : nat * nat * list (laserscan_t F)) =>
    let '(_, idx, sc) := st in
    idx = (index0 + j)%nat /\ length sc = length scans /\
    (0 < j -> idx <= length scans)%nat).
  assert (Hinv : P (0 + SCANS_PER_BLOCK)%nat (k, index, scans')).
  { apply (for_loop_returned P
             (slot_body raw corrections bank_origin rotation rev i)
             SCANS_PER_BLOCK 0 (0%nat, index0, scans)); [| | exact Hrun].
    - unfold P. split; [lia |]. split; [reflexivity | lia].
    - intros j [[k0 idx0] sc0] [[k1 idx1] sc1] Hj (Hi & Hl & _) Hb.
      unfold slot_body in Hb.
      apply bind_Ok_inv in Hb as (e & _ & Hb).
      apply bind_Ok_inv in Hb as (sc & Hw & Hb). injection Hb as <- <- <-.
      unfold wr in Hw. destruct (decide _) as [Hlt|]; [| discriminate].
      injection Hw as <-. unfold P. rewrite length_insert.
      split; [lia |]. split; [exact Hl |]. intros _. lia. }
  destruct Hinv as (H1 & H2 & H3). change SCANS_PER_BLOCK with 32%nat in *.
  split; [lia |]. split; [exact H2 |]. apply H3. lia.
Qed.

End DecoderFaults.

Section DecoderReturns.
Context {F : Type} {Farith : FloatArith F} {Flib : FloatLib F}
  {Fres : Resolutions F}.

Lemma block_body_returned (cal : calibration F) (raw : list byte) (rev : Z)
    (i index0 index1 : nat) (sc0 sc1 : list (laserscan_t F)) :
  block_body cal raw rev i (index0, sc0) = Ok (index1, sc1) ->
  index1 = (index0 + 32)%nat /\ length sc1 = length sc0 /\
  (index1 <= length sc0)%nat.
Proof.
  unfold block_body. intros Hb.
  apply bind_Ok_inv in Hb as (header & _ & Hb).
  destruct (select_bank cal header) as [bo corr].
  apply bind_Ok_inv in Hb as (units & _ & Hb).
  apply bind_Ok_inv in Hb as ([[k idx] sc] & Hloop & Hb).
  injection Hb as <- <-. now apply slot_loop_returned in Hloop.
Qed.

Lemma block_loop_returned (cal : calibration F) (raw : list byte) (rev : Z)
    (scans out : list (laserscan_t F)) (index : nat) :
  for_loop BLOCKS_PER_PACKET 0 (block_body cal raw rev) (0%nat, scans)
  = Ok (index, out) ->
  index = SCANS_PER_PACKET /\ length out = length scans /\
  (SCANS_PER_PACKET <= length scans)%nat.
Proof.
  intros Hrun.
  pose (P := fun (i : nat) (st : nat * list (laserscan_t F)) =>
    let '(idx, sc) := st in
    idx = (i * 32)%nat /\ length sc = length scans /\
    (0 < i -> idx <= length scans)%nat).
  assert (Hinv : P (0 + BLOCKS_PER_PACKET)%nat (index, out)).
  { apply (for_loop_returned P (block_body cal raw rev) BLOCKS_PER_PACKET 0
             (0%nat, scans)); [| | exact Hrun].
    - unfold P. split; [lia |]. split; [reflexivity | lia].
    - intros i [idx0 sc0] [idx1 sc1] Hi (Hidx & Hl & _) Hb.
      apply block_body_returned in Hb as (H1 & H2 & H3).
      unfold P. split; [lia |]. split; [congruence |]. intros _. lia. }
  destruct Hinv as (H1 & H2 & H3).
  change BLOCKS_PER_PACKET with 12%nat in *.
  change SCANS_PER_PACKET with 384%nat.
  split; [lia |]. split; [exact H2 |]. specialize (H3 ltac:(lia)). lia.
Qed.

(** packet2scans returns only when the buffer holds every byte it reads and
    the output array every entry it writes. *)
Lemma packet2scans_returned (cal : calibration F) (raw : list byte)
    (scans out : list (laserscan_t F)) :
  packet2scans cal raw scans = Ok out ->
  (bytes_read <= length raw)%nat /\ (SCANS_PER_PACKET <= length scans)%nat /\
  length out = length scans.
Proof.
  unfold packet2scans. intros Hrun.
  apply bind_Ok_inv in Hrun as (rev & Hrev & Hrun).
  apply bind_Ok_inv in Hrun as ([index out'] & Hloop & Hrun).
  apply block_loop_returned in Hloop as (Hidx & Hlen & Hcap).
  destruct (decide (index = SCANS_PER_PACKET)); [| discriminate].
  injection Hrun as <-. split; [| split; assumption].
  unfold packet_revolution, rd_u16 in Hrev.
  apply bind_Ok_inv in Hrev as (b0 & _ & Hrev).
  apply bind_Ok_inv in Hrev as (b1 & Hb1 & _).
  unfold rd in Hb1.
  destruct (raw !! (BLOCKS_PER_PACKET * SIZE_BLOCK + 1)%nat) eqn:Hl; [| discriminate].
  apply lookup_lt_Some in Hl. rewrite bytes_read_eq.
  change (BLOCKS_PER_PACKET * SIZE_BLOCK + 1)%nat with 1201%nat in Hl. lia.
Qed.

Lemma oob_packet2scans_loop (cal : calibration F) (raw : list byte) (rev : Z)
    (scans : list (laserscan_t F)) :
  faults_out_of_bounds
    (for_loop BLOCKS_PER_PACKET 0 (block_body cal raw rev) (0%nat, scans)).
Proof. apply oob_for_loop. intros i st. apply oob_block_body. Qed.

End DecoderReturns.

Section DecoderFaultKind.
Context {F : Type} {Farith : FloatArith F} {Flib : FloatLib F}
  {Fres : Resolutions F}.

(** The only fault of packet2scans is an access outside an array. *)
Lemma oob_packet2scans (cal : calibration F) (raw : list byte)
    (scans : list (laserscan_t F)) :
  faults_out_of_bounds (packet2scans cal raw scans).
Proof.
  unfold packet2scans.
  apply oob_bind; [apply oob_rd_u16 |]. intros rev.
  destruct (for_loop BLOCKS_PER_PACKET 0 (block_body cal raw rev) (0%nat, scans))
    as [[index out]|f] eqn:Hloop.
  - rewrite bind_Ok.
    apply block_loop_returned in Hloop as (Hidx & _).
    destruct (decide (index = SCANS_PER_PACKET)); [apply oob_Ok | contradiction].
  - intros f' Hf'. simpl in Hf'. injection Hf' as <-.
    exact (oob_packet2scans_loop cal raw rev scans _ Hloop).
Qed.

End DecoderFaultKind.

(** X1. The assertion at the end of packet2scans never fails: whatever the
    table, the buffer and the output array, when the two loops run to
    completion [index] is SCANS_PER_PACKET. *)
Theorem packet2scans_assertion_holds {F : Type} {Farith : FloatArith F}
    {Flib : FloatLib F} {Fres : Resolutions F}
    (cal : calibration F) (raw : list byte) (scans : list (laserscan_t F)) :
  packet2scans cal raw scans <> Fault AssertFailed.
Proof.
  intros Hf. pose proof (oob_packet2scans cal raw scans _ Hf). discriminate.
Qed.

(** X2. On a buffer that stops before the revolution counter, or into an
    output array of fewer than SCANS_PER_PACKET entries, packet2scans reads
    or writes outside an array. *)
Theorem packet2scans_out_of_bounds {F : Type} {Farith : FloatArith F}
    {Flib : FloatLib F} {Fres : Resolutions F}
    (cal : calibration F) (raw : list byte) (scans : list (laserscan_t F)) :
  (length raw < bytes_read)%nat \/ (length scans < SCANS_PER_PACKET)%nat ->
  packet2scans cal raw scans = Fault OutOfBounds.
Proof.
  intros Hshort.
  destruct (packet2scans cal raw scans) as [out|f] eqn:Hrun.
  - apply packet2scans_returned in Hrun as (H1 & H2 & _). lia.
  - now rewrite (oob_packet2scans cal raw scans f Hrun).
Qed.

Lemma packet2scans_out_of_bounds_witness :
  ((length example_packet < bytes_read)%nat \/
   (length short_scans < SCANS_PER_PACKET)%nat) /\
  packet2scans example_table example_packet short_scans = Fault OutOfBounds.
Proof.
  assert (H : (length example_packet < bytes_read)%nat \/
              (length short_scans < SCANS_PER_PACKET)%nat)
    by (right; vm_compute; lia).
  split; [exact H |].
  exact (packet2scans_out_of_bounds example_table example_packet short_scans H).
Defined.

Lemma rd_prefix {A} (n i : nat) (a1 a2 : list A) :
  take n a1 = take n a2 -> (i < n)%nat -> rd a1 i = rd a2 i.
Proof.
  intros Ht Hi. unfold rd.
  rewrite <- (lookup_take_lt a1 n i Hi), <- (lookup_take_lt a2 n i Hi), Ht.
  reflexivity.
Qed.

Lemma rd_u16_prefix (n off : nat) (raw1 raw2 : list byte) :
  take n raw1 = take n raw2 -> (off + 1 < n)%nat ->
  rd_u16 raw1 off = rd_u16 raw2 off.
Proof.
  intros Ht Hoff. unfold rd_u16.
  rewrite (rd_prefix n off raw1 raw2 Ht) by lia.
  rewrite (rd_prefix n (off + 1) raw1 raw2 Ht) by lia. reflexivity.
Qed.

Lemma block_data_prefix (raw1 raw2 : list byte) (i k : nat) :
  take bytes_read raw1 = take bytes_read raw2 -> (i < 12)%nat ->
  block_data raw1 i k = block_data raw2 i k.
Proof.
  intros Ht Hi. unfold block_data.
  destruct (decide (k < BLOCK_DATA_SIZE)%nat) as [Hk|]; [| reflexivity].
  apply (rd_prefix bytes_read); [exact Ht |].
  rewrite bytes_read_eq, SIZE_BLOCK_eq. rewrite BLOCK_DATA_SIZE_eq in Hk. lia.
Qed.

Section PrefixFacts.
Context {F : Type} {Farith : FloatArith F} {Flib : FloatLib F}
  {Fres : Resolutions F}.

Lemma block_body_prefix (cal : calibration F) (raw1 raw2 : list byte) (rev : Z)
    (i : nat) (st : nat * list (laserscan_t F)) :
  take bytes_read raw1 = take bytes_read raw2 -> (i < 12)%nat ->
  block_body cal raw1 rev i st = block_body cal raw2 rev i st.
Proof.
  intros Ht Hi. destruct st as [index sc]. unfold block_body.
  unfold block_header, block_rotation.
  rewrite (rd_u16_prefix bytes_read (i * SIZE_BLOCK) raw1 raw2 Ht)
    by (rewrite bytes_read_eq, SIZE_BLOCK_eq; lia).
  destruct (rd_u16 raw2 (i * SIZE_BLOCK)) as [header|]; [| reflexivity].
  rewrite !bind_Ok. destruct (select_bank cal header) as [bo corr].
  rewrite (rd_u16_prefix bytes_read (i * SIZE_BLOCK + 2) raw1 raw2 Ht)
    by (rewrite bytes_read_eq, SIZE_BLOCK_eq; lia).
  destruct (rd_u16 raw2 (i * SIZE_BLOCK + 2)) as [units|]; [| reflexivity].
  rewrite !bind_Ok.
  rewrite (for_loop_ext
             (slot_body raw1 corr bo (rotation_of units) rev i)
             (slot_body raw2 corr bo (rotation_of units) rev i)); [reflexivity |].
  intros j [[k idx] sc']. unfold slot_body, decode_slot.
  rewrite !(block_data_prefix raw1 raw2 i _ Ht Hi). reflexivity.
Qed.

End PrefixFacts.

(** X3. packet2scans reads nothing past the revolution counter: two buffers
    that agree on their first 1202 bytes, whatever their status bytes and
    their lengths, give the same result. *)
Theorem packet2scans_ignores_status {F : Type} {Farith : FloatArith F}
    {Flib : FloatLib F} {Fres : Resolutions F}
    (cal : calibration F) (raw1 raw2 : list byte) (scans : list (laserscan_t F)) :
  take bytes_read raw1 = take bytes_read raw2 ->
  packet2scans cal raw1 scans = packet2scans cal raw2 scans.
Proof.
  intros Ht. unfold packet2scans, packet_revolution.
  rewrite (rd_u16_prefix bytes_read (BLOCKS_PER_PACKET * SIZE_BLOCK) raw1 raw2 Ht)
    by (rewrite bytes_read_eq, SIZE_BLOCK_eq; change BLOCKS_PER_PACKET with 12%nat; lia).
  destruct (rd_u16 raw2 (BLOCKS_PER_PACKET * SIZE_BLOCK)) as [rev|]; [| reflexivity].
  rewrite !bind_Ok.
  rewrite (for_loop_ext_range (block_body cal raw1 rev) (block_body cal raw2 rev));
    [reflexivity |].
  intros i st Hi. apply block_body_prefix; [exact Ht |].
  change BLOCKS_PER_PACKET with 12%nat in Hi. lia.
Qed.

Lemma packet2scans_ignores_status_witness :
  take bytes_read example_packet = take bytes_read example_packet_status /\
  example_packet <> example_packet_status /\
  packet2scans example_table example_packet example_scans
  = packet2scans example_table example_packet_status example_scans.
Proof.
  assert (H : take bytes_read example_packet = take bytes_read example_packet_status)
    by reflexivity.
  split; [exact H |]. split.
  - intros Heq. apply (f_equal (fun l => l !! 1203%nat)) in Heq. discriminate.
  - exact (packet2scans_ignores_status example_table example_packet
             example_packet_status example_scans H).
Defined.

Section OverwriteFacts.
Context {F : Type} {Farith : FloatArith F} {Flib : FloatLib F}
  {Fres : Resolutions F}.

(** The result of packet2scans into an array of SCANS_PER_PACKET entries
    does not depend on what the array holds. *)
Lemma packet2scans_any_array (cal : calibration F) (raw : list byte)
    (scans1 scans2 : list (laserscan_t F)) :
  calibration_wf cal ->
  length scans1 = SCANS_PER_PACKET -> length scans2 = SCANS_PER_PACKET ->
  packet2scans cal raw scans1 = packet2scans cal raw scans2.
Proof.
  intros Hcal H1 H2.
  destruct (decide (bytes_read <= length raw)%nat) as [Hraw|Hraw].
  - destruct (packet2scans_spec cal raw scans1 Hraw Hcal ltac:(lia))
      as (out1 & -> & Hl1 & He1 & _).
    destruct (packet2scans_spec cal raw scans2 Hraw Hcal ltac:(lia))
      as (out2 & -> & Hl2 & He2 & _).
    f_equal. apply list_eq. intros p.
    destruct (decide (p < 384)%nat) as [Hp|Hp].
    + change SCANS_PER_BLOCK with 32%nat in *.
      change BLOCKS_PER_PACKET with 12%nat in *.
      pose proof (Nat.div_mod_eq p 32) as Hdm.
      pose proof (Nat.mod_upper_bound p 32 ltac:(lia)) as Hm.
      destruct (He1 (p / 32)%nat (p mod 32)%nat) as (e1 & Hp1 & Ho1); [lia | lia |].
      destruct (He2 (p / 32)%nat (p mod 32)%nat) as (e2 & Hp2 & Ho2); [lia | lia |].
      assert (Hp' : (p / 32 * 32 + p mod 32 = p)%nat) by lia.
      rewrite Hp' in Ho1, Ho2. congruence.
    + rewrite SCANS_PER_PACKET_eq in *.
      rewrite !lookup_ge_None_2 by lia. reflexivity.
  - assert (Hf : forall scans : list (laserscan_t F),
              packet2scans cal raw scans = Fault OutOfBounds).
    { intros scans. destruct (packet2scans cal raw scans) as [out|f] eqn:Hrun.
      - apply packet2scans_returned in Hrun as (Hr & _). contradiction.
      - now rewrite (oob_packet2scans cal raw scans f Hrun). }
    rewrite !Hf. reflexivity.
Qed.

End OverwriteFacts.

(** X4. packet2scans overwrites the whole output array: into two arrays of
    SCANS_PER_PACKET entries it gives the same result whatever the arrays
    held before, so nothing of an earlier packet survives in [scans_]. *)
Theorem packet2scans_overwrites {F : Type} {Farith : FloatArith F}
    {Flib : FloatLib F} {Fres : Resolutions F}
    (cal : calibration F) (raw : list byte) (scans1 scans2 : list (laserscan_t F)) :
  calibration_wf cal ->
  length scans1 = SCANS_PER_PACKET -> length scans2 = SCANS_PER_PACKET ->
  packet2scans cal raw scans1 = packet2scans cal raw scans2.
Proof. apply packet2scans_any_array. Qed.

Lemma packet2scans_overwrites_witness :
  calibration_wf example_table /\
  length example_scans = SCANS_PER_PACKET /\
  length stale_scans = SCANS_PER_PACKET /\
  packet2scans example_table example_packet example_scans
  = packet2scans example_table example_packet stale_scans.
Proof.
  assert (H0 : calibration_wf example_table) by (split; reflexivity).
  assert (H1 : length example_scans = SCANS_PER_PACKET) by reflexivity.
  assert (H2 : length stale_scans = SCANS_PER_PACKET) by reflexivity.
  split; [exact H0 |]. split; [exact H1 |]. split; [exact H2 |].
  exact (packet2scans_overwrites example_table example_packet example_scans
           stale_scans H0 H1 H2).
Defined.

Section FieldFacts.
Context {F : Type} {Farith : FloatArith F} {Flib : FloatLib F}
  {Fres : Resolutions F}.

Lemma select_bank_cases (cal : calibration F) (header : Z) :
  select_bank cal header
  = if decide (header = LOWER_BANK) then (0%nat, lower_ cal) else (32%nat, upper_ cal).
Proof. reflexivity. Qed.

(** The entry of a bank seen in the 64-entry table, lower bank first. *)
Lemma select_bank_table (cal : calibration F) (header : Z) (j : nat)
    (c : correction_angles F) :
  calibration_wf cal -> (select_bank cal header).2 !! j = Some c ->
  (lower_ cal ++ upper_ cal) !! (j + (select_bank cal header).1)%nat = Some c.
Proof.
  intros [Hl Hu] Hc. unfold select_bank in *.
  destruct (decide (header = LOWER_BANK)); simpl in *.
  - rewrite Nat.add_0_r. now apply lookup_app_l_Some.
  - rewrite lookup_app_r by lia. rewrite Hl.
    replace (j + 32 - 32)%nat with j by lia. exact Hc.
Qed.

End FieldFacts.

(** X5. Every entry packet2scans writes carries the revolution counter of
    the packet, the same 16-bit value for all 384 entries, an intensity in
    [0, 255] and a laser number in [0, 63] whose residue modulo 32 is the
    slot of the entry. *)
Theorem decoded_counters_in_range {F : Type} {Farith : FloatArith F}
    {Flib : FloatLib F} {Fres : Resolutions F}
    (cal : calibration F) (raw : list byte) (scans : list (laserscan_t F)) :
  (bytes_read <= length raw)%nat -> calibration_wf cal ->
  (SCANS_PER_PACKET <= length scans)%nat ->
  exists out rev,
    packet2scans cal raw scans = Ok out /\
    packet_revolution raw = Ok rev /\ 0 <= rev < 65536 /\
    forall p e, (p < SCANS_PER_PACKET)%nat -> out !! p = Some e ->
      revolution e = rev /\
      0 <= intensity e < 256 /\
      0 <= laser_number e < 64 /\
      laser_number e mod 32 = Z.of_nat (p mod SCANS_PER_BLOCK).
Proof.
  intros Hraw Hcal Hcap.
  destruct (packet2scans_spec cal raw scans Hraw Hcal Hcap) as (out & Hrun & _).
  assert (Hraw' : (1201 < length raw)%nat) by (rewrite bytes_read_eq in Hraw; lia).
  destruct (rd_u16_in_bounds raw 1200 Hraw') as (v0 & v1 & Hv0 & Hv1 & Hrev).
  exists out, (two_bytes_uint v0 v1).
  split; [exact Hrun |]. split; [exact Hrev |].
  split; [apply two_bytes_uint_range |].
  intros p e Hp He. rewrite SCANS_PER_PACKET_eq in Hp.
  change SCANS_PER_BLOCK with 32%nat.
  pose proof (Nat.div_mod_eq p 32) as Hdm.
  pose proof (Nat.mod_upper_bound p 32 ltac:(lia)) as Hm.
  remember (p mod 32)%nat as m eqn:Em. remember (p / 32)%nat as q eqn:Eq.
  destruct (packet2scans_entry cal raw scans q m Hraw Hcal Hcap)
    as (out' & h0 & h1 & r0 & r1 & c & b0 & b1 & b2 & w0 & w1 & Hrun' & _ & _ & _
        & _ & _ & _ & _ & _ & Hw0 & Hw1 & Hout).
  { change BLOCKS_PER_PACKET with 12%nat. lia. }
  { exact Hm. }
  rewrite Hrun in Hrun'. injection Hrun' as <-.
  assert (Hp' : (q * 32 + m = p)%nat) by lia.
  rewrite Hp', He in Hout. injection Hout as ->.
  cbn [revolution intensity laser_number].
  change (1200 + 1)%nat with 1201%nat in Hv1.
  split; [congruence |]. split; [apply byte_val_range |].
  unfold select_bank. destruct (decide _); cbn [fst].
  - rewrite Nat.add_0_r. split; [lia |]. rewrite Z.mod_small; lia.
  - split; [lia |]. rewrite Nat2Z.inj_add.
    change (Z.of_nat 32) with (1 * 32). rewrite Z.mod_add by lia.
    rewrite Z.mod_small; lia.
Qed.

Lemma decoded_counters_in_range_witness :
  (bytes_read <= length example_packet)%nat /\ calibration_wf example_table /\
  (SCANS_PER_PACKET <= length example_scans)%nat /\
  exists out,
    packet2scans example_table example_packet example_scans = Ok out /\
    forall p e, (p < SCANS_PER_PACKET)%nat -> out !! p = Some e ->
                revolution e = 0.
Proof.
  assert (H1 : (bytes_read <= length example_packet)%nat) by (vm_compute; lia).
  assert (H2 : calibration_wf example_table) by (split; reflexivity).
  assert (H3 : (SCANS_PER_PACKET <= length example_scans)%nat) by (vm_compute; lia).
  repeat (split; [assumption |]).
  destruct (decoded_counters_in_range example_table example_packet example_scans
              H1 H2 H3) as (out & rev & Hrun & Hrev & _ & Hall).
  exists out. split; [exact Hrun |]. intros p e Hp He.
  destruct (Hall p e Hp He) as (-> & _).
  vm_compute in Hrev. congruence.
Defined.

(** X6. The bank tag of a block decides the laser numbers and the calibration
    entries of its 32 slots: a block tagged LOWER_BANK gives the lasers
    [0 .. 31], a block with any other tag, valid or not, the lasers
    [32 .. 63]; and the pitch of an entry is the vertical angle stored for
    its laser number in the table, lower bank first, whatever the rotation
    of the block. *)
Theorem laser_number_selects_calibration {F : Type} {Farith : FloatArith F}
    {Flib : FloatLib F} {Fres : Resolutions F}
    (cal : calibration F) (raw : list byte) (scans : list (laserscan_t F))
    (i j : nat) :
  (bytes_read <= length raw)%nat -> calibration_wf cal ->
  (SCANS_PER_PACKET <= length scans)%nat ->
  (i < BLOCKS_PER_PACKET)%nat -> (j < SCANS_PER_BLOCK)%nat ->
  exists out e header c,
    packet2scans cal raw scans = Ok out /\
    out !! (i * SCANS_PER_BLOCK + j)%nat = Some e /\
    block_header raw i = Ok header /\
    laser_number e
    = (if decide (header = LOWER_BANK) then Z.of_nat j else Z.of_nat j + 32) /\
    (lower_ cal ++ upper_ cal) !! Z.to_nat (laser_number e) = Some c /\
    pitch e = vertical c.
Proof.
  intros Hraw Hcal Hcap Hi Hj.
  destruct (packet2scans_entry cal raw scans i j Hraw Hcal Hcap Hi Hj)
    as (out & h0 & h1 & r0 & r1 & c & b0 & b1 & b2 & w0 & w1 & Hrun & Hh0 & Hh1
        & _ & _ & Hc & _ & _ & _ & _ & _ & Hout).
  eexists out, _, (two_bytes_uint h0 h1), c.
  split; [exact Hrun |]. split; [exact Hout |].
  cbn [laser_number pitch]. split.
  { unfold block_header, rd_u16. rewrite SIZE_BLOCK_eq.
    rewrite (rd_lookup _ _ _ Hh0), bind_Ok, (rd_lookup _ _ _ Hh1). reflexivity. }
  split.
  { unfold select_bank. destruct (decide _); cbn [fst]; lia. }
  split; [| reflexivity].
  rewrite Nat2Z.id. now apply select_bank_table.
Qed.

Lemma laser_number_selects_calibration_witness :
  (bytes_read <= length example_packet)%nat /\ calibration_wf example_table /\
  (SCANS_PER_PACKET <= length example_scans)%nat /\
  (0 < BLOCKS_PER_PACKET)%nat /\ (5 < SCANS_PER_BLOCK)%nat /\
  exists out e,
    packet2scans example_table example_packet example_scans = Ok out /\
    out !! 5%nat = Some e /\ laser_number e = 37.
Proof.
  assert (H1 : (bytes_read <= length example_packet)%nat) by (vm_compute; lia).
  assert (H2 : calibration_wf example_table) by (split; reflexivity).
  assert (H3 : (SCANS_PER_PACKET <= length example_scans)%nat) by (vm_compute; lia).
  assert (H4 : (0 < BLOCKS_PER_PACKET)%nat) by (vm_compute; lia).
  assert (H5 : (5 < SCANS_PER_BLOCK)%nat) by (vm_compute; lia).
  repeat (split; [assumption |]).
  destruct (laser_number_selects_calibration example_table example_packet
              example_scans 0 5 H1 H2 H3 H4 H5)
    as (out & e & header & c & Hrun & Hout & Hh & Hn & _).
  exists out, e. split; [exact Hrun |]. split; [exact Hout |].
  vm_compute in Hh. injection Hh as <-. rewrite Hn. reflexivity.
Defined.

Section ProcessingFacts.
Context {F : Type} {Farith : FloatArith F} {Flib : FloatLib F}
  {Fres : Resolutions F}.
Variable ros_ok : nat -> bool.

Lemma same_setup_refl (this : RawData F) : same_setup this this.
Proof. repeat split. Qed.

Lemma same_setup_trans (a b c : RawData F) :
  same_setup a b -> same_setup b c -> same_setup a c.
Proof.
  intros (H1 & H2 & H3 & H4) (G1 & G2 & G3 & G4).
  repeat split; congruence.
Qed.

(** The loop of RawDataXYZ::processPacket projects every entry. *)
Lemma xyz_loop_spec (scans : list (laserscan_t F)) (points : list (laserscan_xyz_t F)) :
  length points = length scans ->
  for_loop (length points) 0
    (fun i points => scan ← rd scans i; wr points i (scan2xyz scan)) points
  = Ok (scan2xyz <$> scans).
Proof.
  intros Hlen.
  pose (P := fun (i : nat) (pts : list (laserscan_xyz_t F)) =>
    length pts = length scans /\
    forall i', (i' < i)%nat -> pts !! i' = scan2xyz <$> (scans !! i')).
  destruct (for_loop_invariant P
              (fun i points => scan ← rd scans i; wr points i (scan2xyz scan))
              (length points) 0 points) as (pts & Hrun & Hlen' & Hall).
  - split; [exact Hlen | intros i' Hi'; lia].
  - intros i pts Hi (Hl & Hdone).
    destruct (rd_in_bounds scans i ltac:(lia)) as (scan & Hs & Hrd).
    exists (<[i := scan2xyz scan]> pts). rewrite Hrd, bind_Ok.
    split; [apply wr_in_bounds; lia |]. split; [now rewrite length_insert |].
    intros i' Hi'. destruct (decide (i' = i)) as [->|Hne].
    + rewrite list_lookup_insert_eq by lia. now rewrite Hs.
    + rewrite list_lookup_insert_ne by lia. apply Hdone. lia.
  - rewrite Hrun. f_equal. apply list_eq. intros i.
    rewrite list_lookup_fmap.
    destruct (decide (i < length points)%nat) as [Hi|Hi].
    + apply Hall. simpl. exact Hi.
    + rewrite !lookup_ge_None_2 by lia. reflexivity.
Qed.

(** The entries in [scans_] after a packet are those of the packet, whatever
    [scans_] held before. *)
Lemma resize_decode (this : RawData F) (pkt : VelodynePacket)
    (out : list (laserscan_t F)) :
  calibration_wf (angles_ this) ->
  packet2scans (angles_ this) (data pkt)
    (resize SCANS_PER_PACKET zero_scan (scans_ this)) = Ok out ->
  out = decode_packet (angles_ this) pkt.
Proof.
  intros Hcal Hrun. unfold decode_packet.
  rewrite (packet2scans_any_array (angles_ this) (data pkt)
             (replicate SCANS_PER_PACKET zero_scan)
             (resize SCANS_PER_PACKET zero_scan (scans_ this)) Hcal);
    [now rewrite Hrun | apply length_replicate | apply length_resize].
Qed.

(** RawDataScans::processPacket on a buffer that holds the bytes read. *)
Lemma Scans_processPacket_result (this : RawData F) (pkt : VelodynePacket)
    (frame : string) :
  (bytes_read <= length (data pkt))%nat -> calibration_wf (angles_ this) ->
  exists this',
    Scans_processPacket ros_ok this pkt frame = Ok this' /\
    same_setup this this' /\ rawScan_ this' = rawScan_ this /\
    scans_ this' = decode_packet (angles_ this) pkt /\
    length (scans_ this') = SCANS_PER_PACKET /\
    xyzScans_ this' = xyzScans_ this /\
    ok_calls this' = Datatypes.S (ok_calls this) /\
    xyz_sent this' = xyz_sent this /\
    scans_sent this' =
      scans_sent this ++
      (if ros_ok (ok_calls this) && scans_cb_ this
       then [(decode_packet (angles_ this) pkt, stamp pkt, frame)] else []).
Proof.
  intros Hraw Hcal.
  destruct (Scans_processPacket_spec ros_ok this pkt frame Hraw Hcal)
    as (out & Hrun & Hlen & _ & Hres).
  apply (resize_decode this pkt out Hcal) in Hrun. subst out.
  eexists. split; [exact Hres |].
  destruct (ros_ok (ok_calls this) && scans_cb_ this); simpl;
    rewrite ?app_nil_r; repeat split; assumption.
Qed.

(** RawDataXYZ::processPacket on a buffer that holds the bytes read. *)
Lemma XYZ_processPacket_result (this : RawData F) (pkt : VelodynePacket)
    (frame : string) :
  (bytes_read <= length (data pkt))%nat -> calibration_wf (angles_ this) ->
  exists this',
    XYZ_processPacket ros_ok this pkt frame = Ok this' /\
    same_setup this this' /\ rawScan_ this' = rawScan_ this /\
    scans_ this' = decode_packet (angles_ this) pkt /\
    xyzScans_ this' = scan2xyz <$> decode_packet (angles_ this) pkt /\
    ok_calls this' = Datatypes.S (Datatypes.S (ok_calls this)) /\
    scans_sent this' =
      scans_sent this ++
      (if ros_ok (ok_calls this) && scans_cb_ this
       then [(decode_packet (angles_ this) pkt, stamp pkt, frame)] else []) /\
    xyz_sent this' =
      xyz_sent this ++
      (if ros_ok (Datatypes.S (ok_calls this)) && xyz_cb_ this
       then [(scan2xyz <$> decode_packet (angles_ this) pkt, stamp pkt, frame)]
       else []).
Proof.
  intros Hraw Hcal.
  destruct (Scans_processPacket_result this pkt frame Hraw Hcal)
    as (this1 & Hrun & (Ha & Hu & Hc1 & Hc2) & Hraws & Hscans & Hlen & Hxyz & Hok
        & Hxs & Hss).
  unfold XYZ_processPacket. rewrite Hrun, bind_Ok.
  set (points := resize (length (scans_ this1)) zero_xyz (xyzScans_ this1)).
  assert (Hpl : length points = length (scans_ this1))
    by (unfold points; apply length_resize).
  rewrite (xyz_loop_spec (scans_ this1) points Hpl), bind_Ok.
  unfold call_ros_ok. cbn [ok_calls with_xyzScans]. rewrite Hok.
  rewrite <- Hc2.
  destruct (ros_ok (Datatypes.S (ok_calls this))); simpl;
    [destruct (xyz_cb_ this1) |];
    (eexists; split; [reflexivity |]); simpl;
    rewrite ?app_nil_r, ?Hxs, ?Hscans;
    (split; [repeat split; assumption |]);
    repeat (split; [first [assumption | reflexivity] |]);
    first [assumption | reflexivity].
Qed.

End ProcessingFacts.

Section ScanFacts.
Context {F : Type} {Farith : FloatArith F} {Flib : FloatLib F}
  {Fres : Resolutions F}.
Variable ros_ok : nat -> bool.

Lemma processPacket_running (k : klass) (this : RawData F) (pkt : VelodynePacket)
    (frame : string) :
  (forall n, ros_ok n = true) ->
  (bytes_read <= length (data pkt))%nat -> calibration_wf (angles_ this) ->
  exists this',
    processPacket ros_ok k this pkt frame = Ok this' /\
    same_setup this this' /\ rawScan_ this' = rawScan_ this /\
    scans_ this' = decode_packet (angles_ this) pkt /\
    scans_sent this' =
      scans_sent this ++
      (if scans_cb_ this
       then [(decode_packet (angles_ this) pkt, stamp pkt, frame)] else []) /\
    xyz_sent this' =
      xyz_sent this ++
      match k with
      | RawDataScans => []
      | RawDataXYZ =>
          if xyz_cb_ this
          then [(scan2xyz <$> decode_packet (angles_ this) pkt, stamp pkt, frame)]
          else []
      end.
Proof.
  intros Hok Hraw Hcal. destruct k; simpl.
  - destruct (Scans_processPacket_result ros_ok this pkt frame Hraw Hcal)
      as (this' & Hrun & Hsame & Hraws & Hscans & _ & _ & _ & Hxs & Hss).
    rewrite Hok in Hss. exists this'. rewrite app_nil_r. auto 10.
  - destruct (XYZ_processPacket_result ros_ok this pkt frame Hraw Hcal)
      as (this' & Hrun & Hsame & Hraws & Hscans & _ & _ & Hss & Hxs).
    rewrite Hok in Hss, Hxs. exists this'. auto 10.
Qed.

Lemma process_packets_running (k : klass) (frame : string) :
  (forall n, ros_ok n = true) ->
  forall (pkts : list VelodynePacket) (this : RawData F),
    calibration_wf (angles_ this) ->
    Forall (fun pkt => (bytes_read <= length (data pkt))%nat) pkts ->
    exists this',
      process_packets ros_ok k pkts frame this = Ok this' /\
      same_setup this this' /\ rawScan_ this' = rawScan_ this /\
      scans_sent this' =
        scans_sent this ++
        (if scans_cb_ this then scans_batches (angles_ this) frame pkts else []) /\
      xyz_sent this' =
        xyz_sent this ++
        match k with
        | RawDataScans => []
        | RawDataXYZ =>
            if xyz_cb_ this then xyz_batches (angles_ this) frame pkts else []
        end.
Proof.
  intros Hok. induction pkts as [|pkt pkts IH]; intros this Hcal Hall.
  - exists this. simpl. split; [reflexivity |]. split; [apply same_setup_refl |].
    split; [reflexivity |]. destruct k, (scans_cb_ this), (xyz_cb_ this);
      rewrite ?app_nil_r; auto.
  - apply Forall_cons in Hall as [Hraw Hall]. simpl. rewrite Hok. simpl.
    destruct (processPacket_running k
                (call_ros_ok ros_ok this).2 pkt frame Hok Hraw Hcal)
      as (this1 & Hrun & Hsame1 & Hraws1 & _ & Hss1 & Hxs1).
    simpl in Hrun, Hraws1, Hss1, Hxs1. rewrite Hrun, bind_Ok.
    pose proof Hsame1 as (Ha & Hu & Hc1 & Hc2). simpl in Ha, Hu, Hc1, Hc2.
    destruct (IH this1 ltac:(rewrite Ha; exact Hcal) Hall)
      as (this' & Hrun' & Hsame' & Hraws' & Hss' & Hxs').
    exists this'. split; [exact Hrun' |].
    split; [eapply same_setup_trans; [| exact Hsame']; exact Hsame1 |].
    split; [congruence |].
    rewrite Hss', Hxs', Hss1, Hxs1, Ha, Hc1, Hc2. simpl.
    split.
    + destruct (scans_cb_ this); simpl; rewrite <- ?app_assoc, ?app_nil_r;
        reflexivity.
    + destruct k; [rewrite !app_nil_r; reflexivity |].
      destruct (xyz_cb_ this); simpl; rewrite <- ?app_assoc, ?app_nil_r;
        reflexivity.
Qed.

(** Per-packet processing that returns has left the setup alone and invoked
    each callback at most once. *)
Lemma Scans_processPacket_returned (this this' : RawData F)
    (pkt : VelodynePacket) (frame : string) :
  Scans_processPacket ros_ok this pkt frame = Ok this' ->
  same_setup this this' /\ rawScan_ this' = rawScan_ this /\
  xyz_sent this' = xyz_sent this /\
  exists more, scans_sent this' = scans_sent this ++ more /\
               (length more <= 1)%nat.
Proof.
  unfold Scans_processPacket. intros Hp.
  apply bind_Ok_inv in Hp as (scans & _ & Hp). simpl in Hp.
  destruct (ros_ok _); simpl in Hp; [destruct (scans_cb_ this) eqn:Hcb |];
    injection Hp as <-; simpl;
    (split; [repeat split; simpl; congruence |]);
    (split; [reflexivity |]); (split; [reflexivity |]).
  - eexists. split; [reflexivity | simpl; lia].
  - exists []. rewrite app_nil_r. split; [reflexivity | simpl; lia].
  - exists []. rewrite app_nil_r. split; [reflexivity | simpl; lia].
Qed.

Lemma XYZ_processPacket_returned (this this' : RawData F)
    (pkt : VelodynePacket) (frame : string) :
  XYZ_processPacket ros_ok this pkt frame = Ok this' ->
  same_setup this this' /\ rawScan_ this' = rawScan_ this /\
  (exists more, scans_sent this' = scans_sent this ++ more /\
                (length more <= 1)%nat) /\
  exists more, xyz_sent this' = xyz_sent this ++ more /\
               (length more <= 1)%nat.
Proof.
  unfold XYZ_processPacket. intros Hp.
  apply bind_Ok_inv in Hp as (this1 & H1 & Hp).
  apply Scans_processPacket_returned in H1
    as ((Ha & Hu & Hc1 & Hc2) & Hraws & Hxs & more & Hss & Hmore).
  apply bind_Ok_inv in Hp as (points & _ & Hp). simpl in Hp.
  destruct (ros_ok _); simpl in Hp; [destruct (xyz_cb_ this1) eqn:Hcb |];
    injection Hp as <-; simpl;
    (split; [repeat split; simpl; congruence |]);
    (split; [exact Hraws |]); (split; [exists more; auto |]); rewrite Hxs.
  - eexists. split; [reflexivity | simpl; lia].
  - exists []. rewrite app_nil_r. split; [reflexivity | simpl; lia].
  - exists []. rewrite app_nil_r. split; [reflexivity | simpl; lia].
Qed.

Lemma process_packets_returned (k : klass) (frame : string) :
  forall (pkts : list VelodynePacket) (this this' : RawData F),
    process_packets ros_ok k pkts frame this = Ok this' ->
    same_setup this this' /\ rawScan_ this' = rawScan_ this /\
    (exists more, scans_sent this' = scans_sent this ++ more /\
                  (length more <= length pkts)%nat) /\
    exists more, xyz_sent this' = xyz_sent this ++ more /\
                 (length more <= length pkts)%nat.
Proof.
  induction pkts as [|pkt pkts IH]; intros this this' Hp; simpl in Hp.
  - injection Hp as <-. split; [apply same_setup_refl |]. split; [reflexivity |].
    split; exists []; rewrite app_nil_r; auto.
  - destruct (ros_ok (ok_calls this)); simpl in Hp.
    + apply bind_Ok_inv in Hp as (this1 & H1 & Hp).
      apply IH in Hp as (Hsame' & Hraws' & (m1 & Hs1 & Hl1) & (m2 & Hs2 & Hl2)).
      assert (H1' : same_setup this this1 /\ rawScan_ this1 = rawScan_ this /\
                (exists more, scans_sent this1 = scans_sent this ++ more /\
                              (length more <= 1)%nat) /\
                exists more, xyz_sent this1 = xyz_sent this ++ more /\
                             (length more <= 1)%nat).
      { destruct k; simpl in H1.
        - apply Scans_processPacket_returned in H1
            as (Hs & Hr & Hx & Hmore). simpl in *.
          split; [exact Hs |]. split; [exact Hr |]. split; [exact Hmore |].
          exists []. rewrite app_nil_r. split; [exact Hx | simpl; lia].
        - apply XYZ_processPacket_returned in H1. exact H1. }
      destruct H1' as (Hsame1 & Hraws1 & (n1 & Ht1 & Hk1) & (n2 & Ht2 & Hk2)).
      split; [eapply same_setup_trans; eassumption |].
      split; [congruence |]. split.
      * exists (n1 ++ m1). rewrite Hs1, Ht1, app_assoc, length_app.
        split; [reflexivity | simpl; lia].
      * exists (n2 ++ m2). rewrite Hs2, Ht2, app_assoc, length_app.
        split; [reflexivity | simpl; lia].
    + injection Hp as <-. split; [repeat split |]. split; [reflexivity |].
      split; exists []; rewrite app_nil_r; simpl; split; auto; lia.
Qed.

(** Past the initialization gate processScan is its loop. *)
Lemma processScan_ready (k : klass) (this : RawData F) (scanMsg : VelodyneScan) :
  uninitialized_ this = false ->
  processScan ros_ok k this scanMsg
  = process_packets ros_ok k (packets scanMsg) (frame_id scanMsg)
      (gated this scanMsg).
Proof.
  intros Hu. unfold processScan, gated. cbv zeta. cbn [uninitialized_].
  rewrite Hu. reflexivity.
Qed.

End ScanFacts.

(** X7. RawDataXYZ::processPacket, on a buffer that holds the bytes read,
    returns with the SCANS_PER_PACKET entries of the packet in [scans_] and
    their projections, entry for entry and in the same order, in
    [xyzScans_]; it calls ros::ok() twice, and when both calls hold and both
    callbacks are subscribed each callback is invoked once, with the stamp of
    the packet and the frame of the message. *)
Theorem XYZ_processPacket_projects_all {F : Type} {Farith : FloatArith F}
    {Flib : FloatLib F} {Fres : Resolutions F}
    (ros_ok : nat -> bool) (this : RawData F) (pkt : VelodynePacket)
    (frame : string) :
  (bytes_read <= length (data pkt))%nat -> calibration_wf (angles_ this) ->
  exists this',
    XYZ_processPacket ros_ok this pkt frame = Ok this' /\
    scans_ this' = decode_packet (angles_ this) pkt /\
    length (scans_ this') = SCANS_PER_PACKET /\
    xyzScans_ this' = scan2xyz <$> scans_ this' /\
    length (xyzScans_ this') = SCANS_PER_PACKET /\
    (forall p e, scans_ this' !! p = Some e ->
                 xyzScans_ this' !! p = Some (scan2xyz e)) /\
    ok_calls this' = (ok_calls this + 2)%nat /\
    (ros_ok (ok_calls this) = true -> ros_ok (ok_calls this + 1)%nat = true ->
     scans_cb_ this = true -> xyz_cb_ this = true ->
     scans_sent this' = scans_sent this ++ [(scans_ this', stamp pkt, frame)] /\
     xyz_sent this' = xyz_sent this ++ [(xyzScans_ this', stamp pkt, frame)]).
Proof.
  intros Hraw Hcal.
  destruct (XYZ_processPacket_result ros_ok this pkt frame Hraw Hcal)
    as (this' & Hrun & _ & _ & Hscans & Hxyz & Hok & Hss & Hxs).
  destruct (Scans_processPacket_result ros_ok this pkt frame Hraw Hcal)
    as (this1 & _ & _ & _ & Hscans1 & Hlen1 & _).
  rewrite Hscans1 in Hlen1.
  exists this'. split; [exact Hrun |]. split; [exact Hscans |].
  rewrite Hxyz, Hscans. split; [exact Hlen1 |]. split; [reflexivity |].
  split; [now rewrite length_fmap |]. split.
  { intros p e He. rewrite list_lookup_fmap, He. reflexivity. }
  split; [lia |].
  intros H1 H2 H3 H4. replace (ok_calls this + 1)%nat
    with (Datatypes.S (ok_calls this)) in H2 by lia.
  rewrite Hss, Hxs, H1, H2, H3, H4. split; reflexivity.
Qed.

Lemma XYZ_processPacket_projects_all_witness :
  (bytes_read <= length (data short_packet))%nat /\
  calibration_wf (angles_ ready_object) /\
  exists this',
    XYZ_processPacket always_ok ready_object short_packet "velodyne" = Ok this' /\
    length (xyzScans_ this') = SCANS_PER_PACKET /\
    xyzScans_ this' = scan2xyz <$> scans_ this' /\
    xyz_sent this' = [(xyzScans_ this', 0, "velodyne")].
Proof.
  assert (H1 : (bytes_read <= length (data short_packet))%nat) by (vm_compute; lia).
  assert (H2 : calibration_wf (angles_ ready_object)) by (split; reflexivity).
  split; [exact H1 |]. split; [exact H2 |].
  destruct (XYZ_processPacket_projects_all always_ok ready_object short_packet
              "velodyne" H1 H2)
    as (this' & Hrun & _ & _ & Hxyz & Hlen & _ & _ & Hsent).
  exists this'. split; [exact Hrun |]. split; [exact Hlen |].
  split; [exact Hxyz |].
  destruct (Hsent eq_refl eq_refl eq_refl eq_refl) as [_ Hx]. exact Hx.
Defined.

(** X8. On an initialized object, while ros::ok() holds, processScan hands
    every packet of the message to processPacket in order: each subscribed
    callback is invoked once per packet, in the order of the packets, with
    the entries (or points) decoded from that packet alone, its stamp and the
    frame of the message; the tables and the flag are as before. *)
Theorem processScan_delivers_every_packet {F : Type} {Farith : FloatArith F}
    {Flib : FloatLib F} {Fres : Resolutions F}
    (ros_ok : nat -> bool) (k : klass) (this : RawData F)
    (scanMsg : VelodyneScan) :
  (forall n, ros_ok n = true) -> uninitialized_ this = false ->
  calibration_wf (angles_ this) ->
  Forall (fun pkt => (bytes_read <= length (data pkt))%nat) (packets scanMsg) ->
  exists this',
    processScan ros_ok k this scanMsg = Ok this' /\
    rawScan_ this' = Some scanMsg /\
    same_setup this this' /\
    scans_sent this' =
      scans_sent this ++
      (if scans_cb_ this
       then scans_batches (angles_ this) (frame_id scanMsg) (packets scanMsg)
       else []) /\
    xyz_sent this' =
      xyz_sent this ++
      match k with
      | RawDataScans => []
      | RawDataXYZ =>
          if xyz_cb_ this
          then xyz_batches (angles_ this) (frame_id scanMsg) (packets scanMsg)
          else []
      end.
Proof.
  intros Hok Hu Hcal Hall. rewrite (processScan_ready ros_ok k this scanMsg Hu).
  destruct (process_packets_running ros_ok k (frame_id scanMsg) Hok
              (packets scanMsg) (gated this scanMsg) Hcal Hall)
    as (this' & Hrun & Hsame & Hraws & Hss & Hxs).
  exists this'. split; [exact Hrun |]. split; [exact Hraws |].
  split; [exact Hsame |]. split; [exact Hss | exact Hxs].
Qed.

Lemma processScan_delivers_every_packet_witness :
  (forall n, always_ok n = true) /\ uninitialized_ ready_object = false /\
  calibration_wf (angles_ ready_object) /\
  Forall (fun pkt => (bytes_read <= length (data pkt))%nat) (packets example_msg) /\
  exists this',
    processScan always_ok RawDataXYZ ready_object example_msg = Ok this' /\
    length (scans_sent this') = 2%nat /\ length (xyz_sent this') = 2%nat.
Proof.
  assert (H1 : forall n, always_ok n = true) by reflexivity.
  assert (H2 : uninitialized_ ready_object = false) by reflexivity.
  assert (H3 : calibration_wf (angles_ ready_object)) by (split; reflexivity).
  assert (H4 : Forall (fun pkt => (bytes_read <= length (data pkt))%nat)
                 (packets example_msg)).
  { repeat constructor; vm_compute; lia. }
  repeat (split; [assumption |]).
  destruct (processScan_delivers_every_packet always_ok RawDataXYZ ready_object
              example_msg H1 H2 H3 H4) as (this' & Hrun & _ & _ & Hss & Hxs).
  exists this'. split; [exact Hrun |]. rewrite Hss, Hxs. split; reflexivity.
Defined.

(** X9. Whatever ros::ok() answers and whatever the packets hold, a
    processScan that returns has saved the message, has left the calibration
    tables, the initialization flag and the subscriptions as they were, and
    has only appended to the record of each callback, at most one invocation
    per packet. *)
Theorem processScan_keeps_setup {F : Type} {Farith : FloatArith F}
    {Flib : FloatLib F} {Fres : Resolutions F}
    (ros_ok : nat -> bool) (k : klass) (this this' : RawData F)
    (scanMsg : VelodyneScan) :
  processScan ros_ok k this scanMsg = Ok this' ->
  rawScan_ this' = Some scanMsg /\
  same_setup this this' /\
  (exists more, scans_sent this' = scans_sent this ++ more /\
                (length more <= length (packets scanMsg))%nat) /\
  (exists more, xyz_sent this' = xyz_sent this ++ more /\
                (length more <= length (packets scanMsg))%nat).
Proof.
  destruct (uninitialized_ this) eqn:Hu.
  - rewrite (processScan_gated ros_ok k this scanMsg Hu). intros [= <-].
    split; [reflexivity |]. split; [repeat split |].
    split; exists []; rewrite app_nil_r; simpl; split; auto; lia.
  - rewrite (processScan_ready ros_ok k this scanMsg Hu). intros Hrun.
    apply process_packets_returned in Hrun as (Hsame & Hraws & Hss & Hxs).
    split; [exact Hraws |]. split; [exact Hsame |]. split; assumption.
Qed.

Lemma processScan_keeps_setup_witness :
  exists this',
    processScan always_ok RawDataXYZ ready_object example_msg = Ok this' /\
    angles_ this' = angles_ ready_object /\ uninitialized_ this' = false.
Proof.
  destruct (process_packets_running always_ok RawDataXYZ "velodyne"
              ltac:(reflexivity) (packets example_msg)
              (gated ready_object example_msg))
    as (this' & Hrun & _).
  { split; reflexivity. }
  { repeat constructor; vm_compute; lia. }
  assert (Hrun' : processScan always_ok RawDataXYZ ready_object example_msg
                  = Ok this') by exact Hrun.
  exists this'. split; [exact Hrun' |].
  destruct (processScan_keeps_setup always_ok RawDataXYZ ready_object this'
              example_msg Hrun') as (_ & (Ha & Hu & _) & _).
  split; [exact Ha | exact Hu].
Defined.

(** ** More on getline *)

Lemma fits_buffer_check (line : list ascii) :
  fits_bufferb line = true -> fits_buffer line.
Proof.
  unfold fits_bufferb, fits_buffer. intros Hb.
  apply andb_true_iff in Hb as [Hall Hlen]. split.
  - apply Forall_forall. intros c Hc Heq. subst c.
    rewrite forallb_forall in Hall.
    apply list_elem_of_In in Hc. apply Hall in Hc. discriminate.
  - now apply Nat.leb_le.
Qed.

(** getline on a text without newline: all of it, or failbit. *)
Lemma getline_chars_no_newline :
  forall (s : list ascii) (room : nat),
    Forall (fun c => c <> newline) s ->
    getline_chars room s =
      if decide (length s <= room)%nat then (s, [], false)
      else (take room s, drop room s, true).
Proof.
  induction s as [|c s IH]; intros room Hnl.
  - destruct (decide (length (@nil ascii) <= room)%nat) as [|Hn];
      [reflexivity | simpl in Hn; lia].
  - apply Forall_cons in Hnl as [Hc Hnl].
    cbn [getline_chars]. rewrite eqb_newline, bool_decide_eq_false_2 by exact Hc.
    destruct room as [|room].
    + destruct (decide (length (c :: s) <= 0)%nat) as [Hl|];
        [simpl in Hl; lia | reflexivity].
    + rewrite (IH room Hnl).
      destruct (decide (length s <= room)%nat),
               (decide (length (c :: s) <= Datatypes.S room)%nat);
        simpl in *; try lia; reflexivity.
Qed.

(** getline on a line that fits, ended by a newline: the line. *)
Lemma getline_chars_line :
  forall (line rest : list ascii) (room : nat),
    Forall (fun c => c <> newline) line -> (length line <= room)%nat ->
    getline_chars room (line ++ newline :: rest) = (line, rest, false).
Proof.
  induction line as [|c line IH]; intros rest room Hnl Hlen.
  - reflexivity.
  - apply Forall_cons in Hnl as [Hc Hnl]. simpl.
    rewrite eqb_newline, bool_decide_eq_false_2 by exact Hc.
    destruct room as [|room]; [simpl in Hlen; lia |].
    rewrite (IH rest room Hnl) by (simpl in Hlen; lia). reflexivity.
Qed.

Lemma getline_line (line rest : list ascii) :
  fits_buffer line -> getline 256 (line ++ newline :: rest) = Some (line, rest).
Proof.
  intros [Hnl Hlen]. unfold getline.
  destruct (line ++ newline :: rest) as [|c s] eqn:Hs.
  { destruct line; discriminate. }
  rewrite <- Hs. change (256 - 1)%nat with 255%nat.
  rewrite (getline_chars_line line rest 255 Hnl Hlen). reflexivity.
Qed.

(** Any text is complete lines followed by a last line without newline. *)
Lemma split_last_line (content : list ascii) :
  exists pre last,
    content = pre ++ last /\ complete_lines pre /\
    Forall (fun c => c <> newline) last.
Proof.
  induction content as [|x content IH] using rev_ind.
  - exists [], []. split; [reflexivity |]. split; [now left | constructor].
  - destruct (decide (x = newline)) as [->|Hx].
    + exists (content ++ [newline]), []. rewrite app_nil_r.
      split; [reflexivity |]. split; [| constructor].
      right. apply last_snoc.
    + destruct IH as (pre & last & -> & Hpre & Hnl).
      exists pre, (last ++ [x]). rewrite app_assoc.
      split; [reflexivity |]. split; [exact Hpre |].
      apply Forall_app. split; [exact Hnl |]. now constructor.
Qed.

Section ReloadFacts.
Context {F : Type} {Farith : FloatArith F} {Flib : FloatLib F}
  {Fres : Resolutions F}.

Lemma read_config_nil (fuel : nat) (v : locals F) (cal : calibration F) :
  read_config fuel [] v cal = Ok cal.
Proof. destruct fuel; reflexivity. Qed.

(** Two texts that read_config treats alike, from any variables and
    tables, are treated alike after any complete lines. *)
Lemma read_config_after_lines (s1 s2 : list ascii) :
  (forall (f1 f2 : nat) (v : locals F) (cal : calibration F),
     (length s1 < f1)%nat -> (length s2 < f2)%nat ->
     read_config f1 s1 v cal = read_config f2 s2 v cal) ->
  forall (n : nat) (pre : list ascii) (f1 f2 : nat) (v : locals F)
         (cal : calibration F),
    (length pre < n)%nat -> complete_lines pre ->
    (length (pre ++ s1) < f1)%nat -> (length (pre ++ s2) < f2)%nat ->
    read_config f1 (pre ++ s1) v cal = read_config f2 (pre ++ s2) v cal.
Proof.
  intros Hbase. induction n as [|n IH]; intros pre f1 f2 v cal Hn Hpre H1 H2; [lia |].
  destruct Hpre as [->|Hlast].
  - simpl in *. now apply Hbase.
  - assert (Hne : pre <> []) by (intros ->; discriminate).
    pose proof (getline_complete pre s1 Hne Hlast) as Hg1.
    pose proof (getline_complete pre s2 Hne Hlast) as Hg2.
    destruct f1 as [|f1]; [lia |]. destruct f2 as [|f2]; [lia |]. simpl.
    destruct (getline 256 pre) as [[buf rest]|].
    + destruct Hg1 as (-> & Hrest & Hshort). destruct Hg2 as (-> & _ & _).
      destruct (config_line (c_str buf) v cal) as [[v' cal']|]; [| reflexivity].
      rewrite !bind_Ok. rewrite length_app in *.
      apply IH; [lia | exact Hrest | rewrite length_app; lia
                | rewrite length_app; lia].
    + rewrite Hg1, Hg2. reflexivity.
Qed.

(** sscanf on white space only: EOF, nothing assigned. *)
Lemma sscanf_blank (buffer : list ascii) (fmt : list (directive F))
    (v : locals F) :
  skip_space buffer = [] -> sscanf buffer fmt v = (-1, v).
Proof. intros Hb. unfold sscanf. rewrite Hb. reflexivity. Qed.

(** The loop body on a buffer that is passed over. *)
Lemma config_line_passed_over (buffer : list ascii) (v : locals F)
    (cal : calibration F) :
  passed_over buffer -> config_line buffer v cal = Ok (v, cal).
Proof.
  intros Hp. unfold config_line.
  destruct (decide (head buffer = Some "#"%char)); [reflexivity |].
  destruct (decide (buffer = upper_text)); [reflexivity |].
  destruct (decide (buffer = lower_text)); [reflexivity |].
  destruct Hp as [Hp | [Hp | [Hp | Hp]]]; try contradiction.
  unfold data_line. rewrite !(sscanf_blank buffer _ v Hp). reflexivity.
Qed.

(** A line that is passed over can be dropped from the head of a text. *)
Lemma read_config_drop_line (line rest : list ascii) (f1 f2 : nat)
    (v : locals F) (cal : calibration F) :
  fits_buffer line -> passed_over (c_str line) ->
  (length (line ++ newline :: rest) < f1)%nat -> (length rest < f2)%nat ->
  read_config f1 (line ++ newline :: rest) v cal = read_config f2 rest v cal.
Proof.
  intros Hfit Hp H1 H2. destruct f1 as [|f1]; [lia |]. simpl.
  rewrite (getline_line line rest Hfit).
  rewrite (config_line_passed_over _ v cal Hp), bind_Ok.
  apply read_config_fuel; [| exact H2].
  rewrite length_app in H1. simpl in H1. lia.
Qed.

End ReloadFacts.

Section PassedOverFacts.
Context {F : Type} {Farith : FloatArith F} {Flib : FloatLib F}
  {Fres : Resolutions F}.

(** The text with and without a closing newline. *)
Lemma read_config_last_line (last : list ascii) (f1 f2 : nat) (v : locals F)
    (cal : calibration F) :
  Forall (fun c => c <> newline) last ->
  (length (last ++ [newline]) < f1)%nat -> (length last < f2)%nat ->
  read_config f1 (last ++ [newline]) v cal = read_config f2 last v cal.
Proof.
  intros Hnl H1 H2. destruct f1 as [|f1]; [lia |]. destruct f2 as [|f2]; [lia |].
  destruct (decide (length last <= 255)%nat) as [Hlen|Hlen].
  - cbn [read_config]. rewrite (getline_line last [] (conj Hnl Hlen)).
    destruct last as [|c last].
    + change (c_str []) with (@nil ascii).
      rewrite (config_line_passed_over [] v cal)
        by (right; right; right; reflexivity).
      rewrite bind_Ok. change (getline 256 []) with (@None (list ascii * list ascii)).
      apply read_config_nil.
    + unfold getline. change (256 - 1)%nat with 255%nat.
      rewrite (getline_chars_no_newline (c :: last) 255 Hnl).
      destruct (decide (length (c :: last) <= 255)%nat); [| contradiction].
      destruct (config_line (c_str (c :: last)) v cal) as [[v' cal']|];
        [| reflexivity].
      rewrite !bind_Ok, !read_config_nil. reflexivity.
  - cbn [read_config]. unfold getline.
    destruct last as [|c last]; [simpl in Hlen; lia |].
    rewrite <- app_comm_cons. change (256 - 1)%nat with 255%nat.
    assert (Hover : forall tail,
              exists buf rest, getline_chars 255 ((c :: last) ++ tail)
                               = (buf, rest, true)).
    { intros tail. apply getline_chars_overlong.
      - rewrite length_app. lia.
      - rewrite take_app_le by lia. now apply Forall_take. }
    destruct (Hover [newline]) as (b1 & r1 & E1).
    destruct (Hover []) as (b2 & r2 & E2). rewrite app_nil_r in E2.
    rewrite app_comm_cons, E1, E2. reflexivity.
Qed.

End PassedOverFacts.



(** X11. A file that could be opened and holds nothing but comments, bank
    markers and blank lines is a successful load: setup returns 0 and clears
    [uninitialized_], and every table entry is as it was before the call. *)
Theorem setup_without_data_lines {F : Type} {Farith : FloatArith F}
    {Flib : FloatLib F}
    (this : RawData F) (ls : list (list ascii)) :
  Forall (fun line => fits_buffer line /\ passed_over (c_str line)) ls ->
  setup this (Some (file_of_lines ls)) = Ok (0, initialized this).
Proof.
  intros Hls. unfold setup.
  assert (Hrun : forall fuel, (length (file_of_lines ls) < fuel)%nat ->
            read_config fuel (file_of_lines ls) locals_init (angles_ this)
            = Ok (angles_ this)).
  { induction Hls as [|line ls [Hfit Hp] Hls IH]; intros fuel Hfuel.
    - apply read_config_nil.
    - unfold file_of_lines in *. simpl in *. rewrite <- app_assoc in *. simpl in *.
      rewrite (read_config_drop_line line _ fuel
                 (Datatypes.S (length (concat (map (fun l => l ++ [newline]) ls))))
                 locals_init (angles_ this) Hfit Hp Hfuel ltac:(lia)).
      apply IH. lia. }
  rewrite Hrun by lia. reflexivity.
Qed.

Lemma setup_without_data_lines_witness :
  Forall (fun line => fits_buffer line /\ passed_over (c_str line))
    file_without_data /\
  setup example_object (Some (file_of_lines file_without_data))
  = Ok (0, initialized example_object).
Proof.
  assert (H : Forall (fun line => fits_buffer line /\ passed_over (c_str line))
                file_without_data).
  { unfold file_without_data.
    apply Forall_cons. split.
    { split; [apply fits_buffer_check; reflexivity | left; reflexivity]. }
    apply Forall_cons. split.
    { split; [apply fits_buffer_check; reflexivity | right; left; reflexivity]. }
    apply Forall_cons. split.
    { split; [apply fits_buffer_check; reflexivity
             | right; right; right; reflexivity]. }
    apply Forall_cons. split.
    { split; [apply fits_buffer_check; reflexivity
             | right; right; right; reflexivity]. }
    apply Forall_cons. split.
    { split; [apply fits_buffer_check; reflexivity
             | right; right; left; reflexivity]. }
    constructor. }
  split; [exact H |].
  exact (setup_without_data_lines example_object file_without_data H).
Defined.

(** X12. The newline after the last line is optional: setup gives the same
    result on a file and on the file with a newline appended. *)
Theorem setup_final_newline_optional {F : Type} {Farith : FloatArith F}
    {Flib : FloatLib F}
    (this : RawData F) (content : list ascii) :
  setup this (Some (content ++ [newline])) = setup this (Some content).
Proof.
  destruct (split_last_line content) as (pre & last & -> & Hpre & Hnl).
  unfold setup. rewrite <- app_assoc.
  rewrite (read_config_after_lines (last ++ [newline]) last
             (fun f1 f2 v cal H1 H2 =>
                read_config_last_line last f1 f2 v cal Hnl H1 H2)
             (Datatypes.S (length pre)) pre
             (Datatypes.S (length (pre ++ last ++ [newline])))
             (Datatypes.S (length (pre ++ last))) locals_init (angles_ this));
    [reflexivity | lia | exact Hpre | lia | lia].
Qed.

(** ** Loading twice *)

Lemma arrays_track_start {A} (t x : list A) :
  length x = length t -> arrays_track t x t x.
Proof. intros Hl. split; [exact Hl | intros k; right; auto]. Qed.

Lemma arrays_track_insert {A} (t x tc xc : list A) (i : nat) (e : A) :
  arrays_track t x tc xc ->
  arrays_track t x (<[i := e]> tc) (<[i := e]> xc).
Proof.
  intros [Hl Hk]. split; [now rewrite !length_insert |].
  intros k. destruct (decide (i = k)) as [->|Hne].
  - destruct (decide (k < length tc)%nat) as [Hlt|Hge].
    + left. rewrite !list_lookup_insert_eq by lia. reflexivity.
    + left. rewrite !lookup_ge_None_2 by (rewrite length_insert; lia).
      reflexivity.
  - rewrite !list_lookup_insert_ne by exact Hne. apply Hk.
Qed.

Lemma arrays_track_end {A} (t tc xc : list A) :
  arrays_track t tc tc xc -> xc = tc.
Proof.
  intros [Hl Hk]. apply list_eq. intros k.
  destruct (Hk k) as [H|[H _]]; exact H.
Qed.

Lemma wr_int_track {A} (t x tc xc tc' : list A) (ind : Z) (e : A) :
  arrays_track t x tc xc -> wr_int tc ind e = Ok tc' ->
  exists xc', wr_int xc ind e = Ok xc' /\ arrays_track t x tc' xc'.
Proof.
  intros Htr Hw. unfold wr_int, wr in *.
  destruct (decide (0 <= ind)); [| discriminate].
  destruct Htr as [Hl Hk]. rewrite Hl.
  destruct (decide (Z.to_nat ind < length tc)%nat); [| discriminate].
  injection Hw as <-. eexists. split; [reflexivity |].
  apply arrays_track_insert. split; assumption.
Qed.

Lemma wr_int_length {A} (a a' : list A) (ind : Z) (e : A) :
  wr_int a ind e = Ok a' -> length a' = length a.
Proof.
  unfold wr_int, wr. destruct (decide _); [| discriminate].
  destruct (decide _); [| discriminate]. intros [= <-]. apply length_insert.
Qed.

Section TwiceFacts.
Context {F : Type} {Farith : FloatArith F} {Flib : FloatLib F}
  {Fres : Resolutions F}.

Lemma store_angles_track (v : locals F) (t x tc xc tc' : calibration F) :
  tables_track t x tc xc -> store_angles v tc = Ok tc' ->
  exists xc', store_angles v xc = Ok xc' /\ tables_track t x tc' xc'.
Proof.
  intros [Hlo Hup] Hs. unfold store_angles in *.
  destruct (decide (l_index v < 32)).
  - apply bind_Ok_inv in Hs as (lower' & Hw & Hs). injection Hs as <-.
    destruct (wr_int_track _ _ _ _ _ _ _ Hlo Hw) as (xl & -> & Htr).
    eexists. split; [reflexivity |]. split; assumption.
  - apply bind_Ok_inv in Hs as (upper' & Hw & Hs). injection Hs as <-.
    destruct (wr_int_track _ _ _ _ _ _ _ Hup Hw) as (xu & -> & Htr).
    eexists. split; [reflexivity |]. split; assumption.
Qed.

Lemma config_line_track (buffer : list ascii) (v v' : locals F)
    (t x tc xc tc' : calibration F) :
  tables_track t x tc xc -> config_line buffer v tc = Ok (v', tc') ->
  exists xc', config_line buffer v xc = Ok (v', xc') /\ tables_track t x tc' xc'.
Proof.
  intros Htr Hc. unfold config_line in *.
  destruct (decide (head buffer = Some "#"%char));
    [injection Hc as <- <-; eauto |].
  destruct (decide (buffer = upper_text)); [injection Hc as <- <-; eauto |].
  destruct (decide (buffer = lower_text)); [injection Hc as <- <-; eauto |].
  destruct (data_line buffer v) as [matched v1].
  destruct matched; [| injection Hc as <- <-; eauto].
  apply bind_Ok_inv in Hc as (cal' & Hs & Hc). injection Hc as <- <-.
  destruct (store_angles_track v1 t x tc xc cal' Htr Hs) as (xc' & -> & Htr').
  eexists. split; [reflexivity | exact Htr'].
Qed.

Lemma read_config_track (t x : calibration F) :
  forall (fuel : nat) (config : list ascii) (v : locals F)
         (tc xc t' : calibration F),
    tables_track t x tc xc -> read_config fuel config v tc = Ok t' ->
    exists x', read_config fuel config v xc = Ok x' /\ tables_track t x t' x'.
Proof.
  induction fuel as [|fuel IH]; intros config v tc xc t' Htr Hr; simpl in *.
  - injection Hr as <-. eauto.
  - destruct (getline 256 config) as [[buf rest]|]; [| injection Hr as <-; eauto].
    apply bind_Ok_inv in Hr as ([v1 tc1] & Hc & Hr).
    destruct (config_line_track _ _ _ t x tc xc tc1 Htr Hc) as (xc1 & -> & Htr1).
    rewrite bind_Ok. exact (IH rest v1 tc1 xc1 t' Htr1 Hr).
Qed.

Lemma store_angles_lengths (v : locals F) (cal cal' : calibration F) :
  store_angles v cal = Ok cal' ->
  length (lower_ cal') = length (lower_ cal) /\
  length (upper_ cal') = length (upper_ cal).
Proof.
  unfold store_angles. intros Hs. destruct (decide _);
    apply bind_Ok_inv in Hs as (a & Hw & Hs); injection Hs as <-;
    apply wr_int_length in Hw; simpl; auto.
Qed.

Lemma config_line_lengths (buffer : list ascii) (v v' : locals F)
    (cal cal' : calibration F) :
  config_line buffer v cal = Ok (v', cal') ->
  length (lower_ cal') = length (lower_ cal) /\
  length (upper_ cal') = length (upper_ cal).
Proof.
  unfold config_line. intros Hc.
  repeat (destruct (decide _); [injection Hc as <- <-; auto |]).
  destruct (data_line buffer v) as [matched v1].
  destruct matched; [| injection Hc as <- <-; auto].
  apply bind_Ok_inv in Hc as (c1 & Hs & Hc). injection Hc as <- <-.
  now apply store_angles_lengths in Hs.
Qed.

(** read_config keeps the sizes of the two tables. *)
Lemma read_config_lengths :
  forall (fuel : nat) (config : list ascii) (v : locals F)
         (cal cal' : calibration F),
    read_config fuel config v cal = Ok cal' ->
    length (lower_ cal') = length (lower_ cal) /\
    length (upper_ cal') = length (upper_ cal).
Proof.
  induction fuel as [|fuel IH]; intros config v cal cal' Hr; simpl in Hr.
  - injection Hr as <-. auto.
  - destruct (getline 256 config) as [[buf rest]|]; [| injection Hr as <-; auto].
    apply bind_Ok_inv in Hr as ([v1 c1] & Hc & Hr).
    apply config_line_lengths in Hc as [H1 H2].
    apply IH in Hr as [H3 H4]. split; congruence.
Qed.

(** Reading the same text again into the tables it produced changes
    nothing. *)
Lemma read_config_twice (fuel : nat) (config : list ascii) (v : locals F)
    (cal cal' : calibration F) :
  read_config fuel config v cal = Ok cal' ->
  read_config fuel config v cal' = Ok cal'.
Proof.
  intros Hr. pose proof (read_config_lengths _ _ _ _ _ Hr) as [Hl Hu].
  destruct (read_config_track cal cal' fuel config v cal cal' cal') as (x' & Hx & Htr);
    [split; apply arrays_track_start; assumption | exact Hr |].
  rewrite Hx. f_equal. destruct Htr as [Hlo Hup].
  apply arrays_track_end in Hlo, Hup.
  destruct x' as [xl xu], cal' as [cl cu]. simpl in *. congruence.
Qed.

End TwiceFacts.

(** X13. Loading is idempotent: when setup has returned on a file, calling
    it again on the same file returns 0 and leaves the object exactly as the
    first call left it. *)
Theorem setup_twice {F : Type} {Farith : FloatArith F} {Flib : FloatLib F}
    (this this' : RawData F) (content : list ascii) (rc : Z) :
  setup this (Some content) = Ok (rc, this') ->
  setup this' (Some content) = Ok (0, this').
Proof.
  intros Hs. unfold setup in *.
  apply bind_Ok_inv in Hs as (cal' & Hr & Hs). injection Hs as <- <-.
  cbn [angles_]. rewrite (read_config_twice _ _ _ _ _ Hr). reflexivity.
Qed.

Lemma setup_twice_witness :
  exists this',
    setup example_object (Some file_head) = Ok (0, this') /\
    setup this' (Some file_head) = Ok (0, this').
Proof.
  assert (Hs : exists this',
             setup example_object (Some file_head) = Ok (0, this')).
  { unfold setup. destruct (read_config _ _ _ _) as [cal|f] eqn:Hr.
    - eexists. reflexivity.
    - vm_compute in Hr. discriminate. }
  destruct Hs as [this' Hs]. exists this'. split; [exact Hs |].
  exact (setup_twice example_object this' file_head 0 Hs).
Defined.

(** X14. A setup that returns keeps the sizes of both tables, so tables of
    32 entries stay tables of 32 entries; it calls neither ros::ok() nor a
    callback and leaves the saved message, the sample and point vectors and
    the subscriptions as they were; and when the file cannot be opened it
    returns -1 with the tables and the initialization flag as they were. *)
Theorem setup_keeps_table_sizes {F : Type} {Farith : FloatArith F}
    {Flib : FloatLib F}
    (this this' : RawData F) (config : option (list ascii)) (rc : Z) :
  setup this config = Ok (rc, this') ->
  length (lower_ (angles_ this')) = length (lower_ (angles_ this)) /\
  length (upper_ (angles_ this')) = length (upper_ (angles_ this)) /\
  (calibration_wf (angles_ this) -> calibration_wf (angles_ this')) /\
  rawScan_ this' = rawScan_ this /\
  scans_ this' = scans_ this /\ xyzScans_ this' = xyzScans_ this /\
  scans_cb_ this' = scans_cb_ this /\ xyz_cb_ this' = xyz_cb_ this /\
  ok_calls this' = ok_calls this /\
  scans_sent this' = scans_sent this /\ xyz_sent this' = xyz_sent this /\
  (config = None ->
   rc = -1 /\ angles_ this' = angles_ this /\
   uninitialized_ this' = uninitialized_ this).
Proof.
  intros Hs. destruct config as [content|]; unfold setup in Hs.
  - apply bind_Ok_inv in Hs as (cal' & Hr & Hs). injection Hs as <- <-.
    apply read_config_lengths in Hr as [Hl Hu]. cbn.
    split; [exact Hl |]. split; [exact Hu |].
    split; [intros [H1 H2]; split; cbn; congruence |].
    repeat (split; [reflexivity |]). discriminate.
  - injection Hs as <- <-. repeat (split; [auto; reflexivity |]). auto.
Qed.

Lemma setup_keeps_table_sizes_witness :
  exists this',
    setup example_object (Some file_head) = Ok (0, this') /\
    calibration_wf (angles_ this') /\ scans_cb_ this' = true.
Proof.
  assert (Hs : exists this',
             setup example_object (Some file_head) = Ok (0, this')).
  { unfold setup. destruct (read_config _ _ _ _) as [cal|f] eqn:Hr.
    - eexists. reflexivity.
    - vm_compute in Hr. discriminate. }
  destruct Hs as [this' Hs]. exists this'. split; [exact Hs |].
  destruct (setup_keeps_table_sizes example_object this' (Some file_head)
              0 Hs) as (_ & _ & Hwf & _ & _ & _ & Hcb & _).
  split; [apply Hwf; split; reflexivity | exact Hcb].
Defined.

Section CorrectionFacts.
Context {F : Type} {Farith : FloatArith F} {Flib : FloatLib F}.

Lemma sscanf_from_count (fmt : list (directive F)) :
  forall (s : list ascii) (v v' : locals F) (count : Z),
    (sscanf_from fmt s v count).1 = (sscanf_from fmt s v' count).1.
Proof.
  induction fmt as [|d fmt IH]; intros s v v' count; [reflexivity |].
  destruct d as [assign|assign]; cbn [sscanf_from].
  - destruct (scan_d s) as [[n s']|]; [apply IH | reflexivity].
  - destruct (scan_f s) as [[x s']|]; [apply IH | reflexivity].
Qed.

Lemma sscanf_count (buffer : list ascii) (fmt : list (directive F))
    (v : locals F) :
  (sscanf buffer fmt v).1 = fields buffer fmt.
Proof.
  unfold fields, sscanf. destruct (skip_space buffer); [reflexivity |].
  apply sscanf_from_count.
Qed.

Ltac scan_cases :=
  repeat match goal with
         | |- context [match scan_d ?s with _ => _ end] =>
             destruct (scan_d s) as [[? ?]|]
         | |- context [match scan_f ?s with _ => _ end] =>
             destruct (scan_f s) as [[? ?]|]
         end.

(** The first format has no conversion for horzCorr or vertCorr. *)
Lemma sscanf_format7_keeps (buffer : list ascii) (v : locals F) :
  l_horzCorr (sscanf buffer format7 v).2 = l_horzCorr v /\
  l_vertCorr (sscanf buffer format7 v).2 = l_vertCorr v.
Proof.
  unfold sscanf. destruct (skip_space buffer); [auto |].
  unfold format7. cbn [sscanf_from]. scan_cases; cbn; auto.
Qed.

(** The second format assigns them with its seventh and eighth
    conversions. *)
Lemma sscanf_format9_keeps (buffer : list ascii) (v : locals F) :
  (sscanf buffer format9 v).1 < 7 ->
  l_horzCorr (sscanf buffer format9 v).2 = l_horzCorr v /\
  l_vertCorr (sscanf buffer format9 v).2 = l_vertCorr v.
Proof.
  unfold sscanf. destruct (skip_space buffer); [auto |].
  unfold format9. cbn [sscanf_from]. scan_cases; cbn; intros; auto; lia.
Qed.

Lemma data_line_first_format (buffer : list ascii) (v : locals F) :
  first_format_only buffer ->
  l_horzCorr (data_line buffer v).2 = l_horzCorr v /\
  l_vertCorr (data_line buffer v).2 = l_vertCorr v.
Proof.
  intros Hf. unfold data_line.
  pose proof (sscanf_format7_keeps buffer v) as [Hh7 Hv7].
  pose proof (sscanf_count buffer format7 v) as Hc7.
  destruct (sscanf buffer format7 v) as [n7 v7]. cbn [fst snd] in *.
  destruct (decide (n7 = 7)); [auto |].
  destruct Hf as [Hf|Hf]; [congruence |].
  pose proof (sscanf_count buffer format9 v7) as Hc9.
  pose proof (sscanf_format9_keeps buffer v7) as Hk.
  destruct (sscanf buffer format9 v7) as [n9 v9]. cbn [fst snd] in *.
  destruct Hk as [Hh9 Hv9]; [lia |]. split; congruence.
Qed.

Lemma old_or_uncorrected_refl (a : list (correction_angles F)) :
  old_or_uncorrected a a.
Proof. intros k e He. now left. Qed.

Lemma old_or_uncorrected_insert (old a : list (correction_angles F)) (i : nat)
    (e : correction_angles F) :
  old_or_uncorrected old a -> no_corrections e ->
  old_or_uncorrected old (<[i := e]> a).
Proof.
  intros Ha He k e' Hk. destruct (decide (i = k)) as [->|Hne].
  - destruct (decide (k < length a)%nat).
    + rewrite list_lookup_insert_eq in Hk by lia. injection Hk as <-. now right.
    + rewrite list_insert_ge in Hk by lia. now apply Ha.
  - rewrite list_lookup_insert_ne in Hk by exact Hne. now apply Ha.
Qed.

Lemma wr_int_uncorrected (old a a' : list (correction_angles F)) (ind : Z)
    (e : correction_angles F) :
  old_or_uncorrected old a -> no_corrections e -> wr_int a ind e = Ok a' ->
  old_or_uncorrected old a'.
Proof.
  intros Ha He Hw. unfold wr_int, wr in Hw.
  destruct (decide _); [| discriminate].
  destruct (decide _); [| discriminate]. injection Hw as <-.
  now apply old_or_uncorrected_insert.
Qed.

Lemma config_line_first_format (buffer : list ascii) (v v' : locals F)
    (old cal cal' : calibration F) :
  first_format_only buffer ->
  l_horzCorr v = fzero -> l_vertCorr v = fzero ->
  old_or_uncorrected (lower_ old) (lower_ cal) ->
  old_or_uncorrected (upper_ old) (upper_ cal) ->
  config_line buffer v cal = Ok (v', cal') ->
  l_horzCorr v' = fzero /\ l_vertCorr v' = fzero /\
  old_or_uncorrected (lower_ old) (lower_ cal') /\
  old_or_uncorrected (upper_ old) (upper_ cal').
Proof.
  intros Hf Hh Hv Hlo Hup Hc. unfold config_line in Hc.
  repeat (destruct (decide _); [injection Hc as <- <-; auto |]).
  pose proof (data_line_first_format buffer v Hf) as [Hh1 Hv1].
  destruct (data_line buffer v) as [matched v1]. cbn [snd] in *.
  destruct matched;
    [| injection Hc as <- <-; repeat split; first [assumption | congruence]].
  apply bind_Ok_inv in Hc as (c1 & Hs & Hc). injection Hc as <- <-.
  split; [congruence |]. split; [congruence |].
  assert (He : no_corrections (angles_entry v1))
    by (split; cbn; congruence).
  unfold store_angles in Hs. destruct (decide _);
    apply bind_Ok_inv in Hs as (a & Hw & Hs); injection Hs as <-; cbn;
    split; try assumption; eapply wr_int_uncorrected; eassumption.
Qed.

Lemma read_config_first_format (old : calibration F) :
  forall (fuel : nat) (config : list ascii) (v : locals F)
         (cal cal' : calibration F),
    Forall first_format_only (buffers_read fuel config) ->
    l_horzCorr v = fzero -> l_vertCorr v = fzero ->
    old_or_uncorrected (lower_ old) (lower_ cal) ->
    old_or_uncorrected (upper_ old) (upper_ cal) ->
    read_config fuel config v cal = Ok cal' ->
    old_or_uncorrected (lower_ old) (lower_ cal') /\
    old_or_uncorrected (upper_ old) (upper_ cal').
Proof.
  induction fuel as [|fuel IH]; intros config v cal cal' Hall Hh Hv Hlo Hup Hr;
    cbn [read_config buffers_read] in *.
  - injection Hr as <-. auto.
  - destruct (getline 256 config) as [[buf rest]|]; [| injection Hr as <-; auto].
    apply Forall_cons in Hall as [Hf Hall].
    apply bind_Ok_inv in Hr as ([v1 c1] & Hc & Hr).
    destruct (config_line_first_format _ _ _ old _ _ Hf Hh Hv Hlo Hup Hc)
      as (Hh1 & Hv1 & Hlo1 & Hup1).
    exact (IH rest v1 c1 cal' Hall Hh1 Hv1 Hlo1 Hup1 Hr).
Qed.

End CorrectionFacts.

(** X15. A line the first sscanf call reads in full is stored with the
    horzCorr and vertCorr the variables held before the line: the first
    format assigns neither, so the entry gets whatever an earlier line read
    by the second format left there. *)
Theorem seven_field_line_keeps_corrections {F : Type} {Farith : FloatArith F}
    {Flib : FloatLib F}
    (buffer : list ascii) (v v7 : locals F) (cal : calibration F) :
  sscanf buffer format7 v = (7, v7) ->
  calibration_wf cal -> 0 <= l_index v7 < 64 ->
  l_horzCorr v7 = l_horzCorr v /\ l_vertCorr v7 = l_vertCorr v /\
  exists cal' e,
    config_line buffer v cal = Ok (v7, cal') /\
    (lower_ cal' ++ upper_ cal') !! Z.to_nat (l_index v7) = Some e /\
    horzCorr e = l_horzCorr v /\ vertCorr e = l_vertCorr v.
Proof.
  intros H7 Hwf Hi.
  pose proof (sscanf_format7_keeps buffer v) as [Hh Hv].
  rewrite H7 in Hh, Hv. cbn [snd] in Hh, Hv.
  split; [exact Hh |]. split; [exact Hv |].
  destruct (store_angles_in_range v7 cal Hwf Hi)
    as (cal' & Hs & [Hl' Hu'] & Hlow & Hupp).
  exists cal', (angles_entry v7).
  rewrite (config_line_data buffer v v7 cal (data_line_seven_first _ _ _ H7)).
  rewrite Hs. split; [reflexivity |]. split; [| split; assumption].
  destruct (decide (l_index v7 < 32)) as [Hlt|Hge].
  - destruct (Hlow Hlt) as (_ & _ & Hk).
    rewrite lookup_app_l by lia. exact Hk.
  - destruct (Hupp ltac:(lia)) as (_ & _ & Hk).
    rewrite lookup_app_r by lia. rewrite Hl'.
    replace (Z.to_nat (l_index v7) - 32)%nat with (Z.to_nat (l_index v7 - 32))
      by lia.
    exact Hk.
Qed.

Lemma seven_field_line_keeps_corrections_witness :
  exists v7 cal' e,
    sscanf line_seven_fields format7 locals_after_nine = (7, v7) /\
    l_index v7 = 4 /\
    config_line line_seven_fields locals_after_nine example_table
    = Ok (v7, cal') /\
    (lower_ cal' ++ upper_ cal') !! 4%nat = Some e /\
    horzCorr e = (6 / 10)%R /\ vertCorr e = (5 / 10)%R.
Proof.
  destruct (sscanf line_seven_fields format7 locals_after_nine) as [n7 v7] eqn:H7.
  assert (Hn : n7 = 7) by (vm_compute in H7; now injection H7 as <- _).
  assert (Hi : l_index v7 = 4) by (vm_compute in H7; now injection H7 as _ <-).
  subst n7.
  assert (Hwf : calibration_wf example_table) by (split; reflexivity).
  destruct (seven_field_line_keeps_corrections line_seven_fields
              locals_after_nine v7 example_table H7 Hwf ltac:(lia))
    as (_ & _ & cal' & e & Hc & Hk & Hh & Hv).
  rewrite Hi in Hk. exists v7, cal', e. repeat split; assumption.
Defined.

(** X16. When every line of the file is read by the first sscanf call, or
    stops the second before its seventh conversion, every table entry after
    setup is the entry from before the call or has horzCorr and vertCorr
    zero: the values the two variables are initialized with. *)
Theorem setup_first_format_no_corrections {F : Type} {Farith : FloatArith F}
    {Flib : FloatLib F}
    (this this' : RawData F) (content : list ascii) (rc : Z) :
  Forall first_format_only
    (buffers_read (Datatypes.S (length content)) content) ->
  setup this (Some content) = Ok (rc, this') ->
  old_or_uncorrected (lower_ (angles_ this)) (lower_ (angles_ this')) /\
  old_or_uncorrected (upper_ (angles_ this)) (upper_ (angles_ this')).
Proof.
  intros Hall Hs. unfold setup in Hs.
  apply bind_Ok_inv in Hs as (cal' & Hr & Hs). injection Hs as <- <-.
  cbn [angles_].
  apply (read_config_first_format (angles_ this) (Datatypes.S (length content))
           content locals_init (angles_ this) cal' Hall);
    [reflexivity | reflexivity | apply old_or_uncorrected_refl
    | apply old_or_uncorrected_refl | exact Hr].
Qed.

Lemma setup_first_format_no_corrections_witness :
  exists this',
    Forall first_format_only
      (buffers_read (Datatypes.S (length file_seven_nine)) file_seven_nine) /\
    setup example_object (Some file_seven_nine) = Ok (0, this') /\
    old_or_uncorrected (lower_ (angles_ example_object)) (lower_ (angles_ this')) /\
    old_or_uncorrected (upper_ (angles_ example_object)) (upper_ (angles_ this')).
Proof.
  assert (Hs : exists this',
             setup example_object (Some file_seven_nine) = Ok (0, this')).
  { unfold setup. destruct (read_config _ _ _ _) as [cal|f] eqn:Hr.
    - eexists. reflexivity.
    - vm_compute in Hr. discriminate. }
  destruct Hs as [this' Hs]. exists this'.
  assert (Hall : Forall first_format_only
            (buffers_read (Datatypes.S (length file_seven_nine)) file_seven_nine)).
  { change (buffers_read (Datatypes.S (length file_seven_nine)) file_seven_nine)
      with [list_ascii_of_string "5 10.0 -2.0 0.1 0.2 0.3 1"; line_nine_fields].
    constructor; [left; vm_compute; reflexivity |].
    constructor; [left; vm_compute; reflexivity | constructor]. }
  split; [exact Hall |]. split; [exact Hs |].
  exact (setup_first_format_no_corrections example_object this' file_seven_nine
           0 Hall Hs).
Defined.

(** X17. In exact arithmetic the point scan2xyz computes lies at the
    measured distance from the origin: x^2 + y^2 + z^2 = range^2, for every
    heading and pitch. *)
Theorem scan2xyz_keeps_distance (scan : laserscan_t R) :
  let point := scan2xyz scan in
  (xyz_x point * xyz_x point + xyz_y point * xyz_y point
   + xyz_z point * xyz_z point = range scan * range scan)%R /\
  sqrt (xyz_x point * xyz_x point + xyz_y point * xyz_y point
        + xyz_z point * xyz_z point) = Rabs (range scan).
Proof.
  cbv zeta. unfold scan2xyz. cbn [xyz_x xyz_y xyz_z]. simpl.
  pose proof (sin2_cos2 (heading scan)) as Hh.
  pose proof (sin2_cos2 (pitch scan)) as Hp. unfold Rsqr in Hh, Hp.
  assert (Heq : (range scan * cos (pitch scan) * cos (heading scan)
                 * (range scan * cos (pitch scan) * cos (heading scan))
                 + range scan * cos (pitch scan) * sin (heading scan)
                   * (range scan * cos (pitch scan) * sin (heading scan))
                 + range scan * sin (pitch scan) * (range scan * sin (pitch scan))
                 = range scan * range scan)%R).
  { transitivity
      (range scan * range scan
       * (cos (pitch scan) * cos (pitch scan)
          * (sin (heading scan) * sin (heading scan)
             + cos (heading scan) * cos (heading scan))
          + sin (pitch scan) * sin (pitch scan)))%R; [ring |].
    rewrite Hh, Rmult_1_r, Rplus_comm, Hp. ring. }
  split; [exact Heq |]. rewrite Heq.
  rewrite <- sqrt_Rsqr_abs. reflexivity.
Qed.

(** X18. Construction, loading and processing compose: once setup has
    returned 0 on a newly constructed object, whatever its storage held and
    for any file that could be opened, the tables have their 32 entries each
    and the gate is open, so while ros::ok() holds processScan decodes every
    packet that holds the bytes read with the loaded tables and invokes each
    subscribed callback once per packet, in order. *)
Theorem loaded_object_processes_scans {F : Type} {Farith : FloatArith F}
    {Flib : FloatLib F} {Fres : Resolutions F}
    (ros_ok : nat -> bool) (k : klass) (stored_flag cb1 cb2 : bool)
    (content : list ascii) (rc : Z) (this : RawData F)
    (scanMsg : VelodyneScan) :
  setup (RawData_new stored_flag cb1 cb2) (Some content) = Ok (rc, this) ->
  (forall n, ros_ok n = true) ->
  Forall (fun pkt => (bytes_read <= length (data pkt))%nat) (packets scanMsg) ->
  rc = 0 /\ uninitialized_ this = false /\ calibration_wf (angles_ this) /\
  exists this',
    processScan ros_ok k this scanMsg = Ok this' /\
    angles_ this' = angles_ this /\
    scans_sent this' =
      (if cb1
       then scans_batches (angles_ this) (frame_id scanMsg) (packets scanMsg)
       else []) /\
    xyz_sent this' =
      match k with
      | RawDataScans => []
      | RawDataXYZ =>
          if cb2
          then xyz_batches (angles_ this) (frame_id scanMsg) (packets scanMsg)
          else []
      end.
Proof.
  intros Hs Hok Hall. unfold setup in Hs.
  apply bind_Ok_inv in Hs as (cal & Hr & Hs). injection Hs as <- <-.
  apply read_config_lengths in Hr as [Hl Hu]. cbn in Hl, Hu.
  rewrite ?length_replicate in Hl, Hu.
  assert (Hwf : calibration_wf cal) by (split; assumption).
  split; [reflexivity |]. split; [reflexivity |]. split; [exact Hwf |].
  rewrite processScan_ready by reflexivity.
  destruct (process_packets_running ros_ok k (frame_id scanMsg) Hok
              (packets scanMsg)
              (gated (mk_RawData None cal false [] cb1 [] cb2 0 [] []) scanMsg)
              Hwf Hall)
    as (this' & Hrun & Hsame & _ & Hss & Hxs).
  exists this'. split; [exact Hrun |].
  destruct Hsame as (Ha & _). split; [exact Ha |].
  split; [exact Hss | exact Hxs].
Qed.

Lemma loaded_object_processes_scans_witness :
  exists this this',
    setup (RawData_new true true true) (Some file_head) = Ok (0, this) /\
    (forall n, always_ok n = true) /\
    Forall (fun pkt => (bytes_read <= length (data pkt))%nat)
      (packets example_msg) /\
    processScan always_ok RawDataXYZ this example_msg = Ok this' /\
    length (scans_sent this') = 2%nat /\ length (xyz_sent this') = 2%nat.
Proof.
  assert (Hs : exists this : RawData R,
             setup (RawData_new true true true) (Some file_head) = Ok (0, this)).
  { unfold setup. destruct (read_config _ _ _ _) as [cal|f] eqn:Hr.
    - eexists. reflexivity.
    - vm_compute in Hr. discriminate. }
  destruct Hs as [this Hs].
  assert (H1 : forall n, always_ok n = true) by reflexivity.
  assert (H2 : Forall (fun pkt => (bytes_read <= length (data pkt))%nat)
                 (packets example_msg)).
  { repeat constructor; vm_compute; lia. }
  destruct (loaded_object_processes_scans always_ok RawDataXYZ true true true
              file_head 0 this example_msg Hs H1 H2)
    as (_ & _ & _ & this' & Hrun & _ & Hss & Hxs).
  exists this, this'. split; [exact Hs |]. split; [exact H1 |].
  split; [exact H2 |]. split; [exact Hrun |]. rewrite Hss, Hxs.
  split; reflexivity.
Defined.

(** ** The initialization gate after construction *)

(** C7. The gate of processScan is not closed by construction.  No
    constructor assigns [uninitialized_], so an object constructed in
    zero-filled storage has the flag clear: while ros::ok() holds,
    processScan, called before any setup, decodes every packet that holds
    the bytes read with the all-zero tables and invokes each subscribed
    callback once per packet.  Only an object whose storage held a set flag
    is gated. *)
Theorem constructor_leaves_gate_open {F : Type} {Farith : FloatArith F}
    {Flib : FloatLib F} {Fres : Resolutions F}
    (ros_ok : nat -> bool) (k : klass) (cb1 cb2 : bool)
    (scanMsg : VelodyneScan) :
  (forall n, ros_ok n = true) ->
  Forall (fun pkt => (bytes_read <= length (data pkt))%nat) (packets scanMsg) ->
  uninitialized_ (RawData_new (F := F) false cb1 cb2) = false /\
  (exists this',
     processScan ros_ok k (RawData_new false cb1 cb2) scanMsg = Ok this' /\
     scans_sent this' =
       (if cb1
        then scans_batches (angles_ (RawData_new false cb1 cb2))
               (frame_id scanMsg) (packets scanMsg)
        else []) /\
     xyz_sent this' =
       match k with
       | RawDataScans => []
       | RawDataXYZ =>
           if cb2
           then xyz_batches (angles_ (RawData_new false cb1 cb2))
                  (frame_id scanMsg) (packets scanMsg)
           else []
       end /\
     length (scans_sent this') = (if cb1 then length (packets scanMsg) else 0%nat)) /\
  processScan ros_ok k (RawData_new true cb1 cb2) scanMsg
  = Ok (gated (RawData_new true cb1 cb2) scanMsg).
Proof.
  intros Hok Hall. split; [reflexivity |]. split.
  - rewrite processScan_ready by reflexivity.
    destruct (process_packets_running ros_ok k (frame_id scanMsg) Hok
                (packets scanMsg) (gated (RawData_new false cb1 cb2) scanMsg))
      as (this' & Hrun & _ & _ & Hss & Hxs); [split; reflexivity | exact Hall |].
    exists this'. split; [exact Hrun |]. cbn in Hss, Hxs.
    split; [exact Hss |]. split; [exact Hxs |]. rewrite Hss.
    destruct cb1; [| reflexivity]. unfold scans_batches. now rewrite length_map.
  - apply processScan_gated. reflexivity.
Qed.

Lemma constructor_leaves_gate_open_witness :
  (forall n, always_ok n = true) /\
  Forall (fun pkt => (length (data pkt) = PACKET_SIZE)%nat) (packets full_msg) /\
  exists this' : RawData R,
    processScan always_ok RawDataScans (RawData_new false true false) full_msg
    = Ok this' /\
    length (scans_sent this') = 1%nat.
Proof.
  assert (H1 : forall n, always_ok n = true) by reflexivity.
  assert (H2 : Forall (fun pkt => (bytes_read <= length (data pkt))%nat)
                 (packets full_msg)).
  { repeat constructor; vm_compute; lia. }
  split; [exact H1 |]. split; [repeat constructor |].
  destruct (constructor_leaves_gate_open (F := R) always_ok RawDataScans true
              false full_msg H1 H2) as (_ & (this' & Hrun & _ & _ & Hlen) & _).
  exists this'. split; [exact Hrun | exact Hlen].
Defined.
